(** * RBM_CUDA.CPP: host-side orchestration of RBM training

    A shallow embedding of the two functions of [RBM_CUDA.CPP],
    [rbm_cuda_wt_init] (best-of-n random starting weights) and [rbm_cuda]
    (the epoch/batch training loop), and the properties of their control
    logic.

    Conventions of the embedding.
    - A C [int] is a [Z]; arithmetic on ints goes through [int_wrap], the
      two's complement wrap-around at 32 bits.  Loop counters that run from 0
      to an int bound are plain [Z].
    - A C [double] is a rational [Q]: arithmetic is exact, there is no
      rounding, infinity or NaN.  A division by zero, which yields an
      infinity or a NaN in C, yields 0 in [Q]; the theorems that depend on a
      quotient state that its divisor is not zero.  [sqrt] and [log] of the C
      library are parameters.  The cast [(int) x] is the truncation of [x],
      which is what C does when the truncated value is an [int]; the theorems
      that depend on the cast of line 445 bound its operand.
    - The one place where rounding decides a property, the update of
      [chain_length] (lines 432 and 744), is embedded a second time on
      binary64 floating-point numbers, in [Binary64].
    - An array reached through a pointer is a total map from indices to
      values; the buffers are assumed as long as the parameter comments of
      the source require.
    - A local variable that can be read before the source assigns it ([k],
      [most_recent_correct_error], [best_crit], [len_prev]) holds [None] until
      it is assigned; the other locals are assigned before they are read and
      hold 0 until then.
    - The numerical engine ([rbm_cuda_init], [cuda_...]) is not part of the
      file.  Its answers are tabulated in an [Engine] record by the place of
      the call: the primitive, the epoch (or trial), the batch and the chain
      step.  Every call is logged, with its scalar arguments, in [trace].
    - [unifrand_fast], [user_pressed_escape] and the global
      [escape_key_pressed] belong to the host program: the generator is a
      fixed stream read through a counter, the polling function a table of
      (value returned, value left in the flag).
    - Timers, audit messages and the [smoothed_...] and [best_err] variables
      of [rbm_cuda], which the source computes for display only, are left
      out. *)

From Stdlib Require Import ZArith QArith Qabs Lia Lqa Bool List.
From Stdlib Require PrimFloat Uint63.
Import ListNotations.
Local Open Scope Z_scope.

(** ** Machine integers *)

Definition int_wrap (z : Z) : Z := (z + 2147483648) mod 4294967296 - 2147483648.
Definition int_add (a b : Z) : Z := int_wrap (a + b).
Definition int_sub (a b : Z) : Z := int_wrap (a - b).
Definition int_mul (a b : Z) : Z := int_wrap (a * b).
(** C division truncates toward zero. *)
Definition int_div (a b : Z) : Z := int_wrap (Z.quot a b).

(** ** Doubles *)

Definition double : Type := Q.
Definition double_of_int (n : Z) : double := inject_Z n.
(** The cast [(int) x] truncates toward zero; C defines it when the truncated
    value is an [int]. *)
Definition int_of_double (x : double) : Z := Z.quot (Qnum x) (Zpos (Qden x)).
Definition Qltb (x y : Q) : bool := (Qnum x * Zpos (Qden y) <? Qnum y * Zpos (Qden x))%Z.
Definition fabs (x : double) : double := Qabs x.

(** ** Arrays *)

Definition array (A : Type) : Type := Z -> A.
Definition store {A : Type} (a : array A) (i : Z) (v : A) : array A :=
  fun j => if j =? i then v else a j.

(** ** Loops *)

(** [for (i = 0 ; i < n ; i++) body] without early exit. *)
Fixpoint count_up {S : Type} (fuel : nat) (i : Z) (body : Z -> S -> S) (s : S) : S :=
  match fuel with
  | O => s
  | Datatypes.S fuel' => count_up fuel' (i + 1) body (body i s)
  end.

Definition for_ {S : Type} (n : Z) (body : Z -> S -> S) (s : S) : S :=
  count_up (Z.to_nat n) 0 body s.

(** Why a loop was left through [break]. *)
Inductive reason : Type :=
| escape_in_batch   (* line 625 *)
| escape_pressed    (* lines 268 and 699 *)
| converged         (* line 722 *)
| stalled.          (* line 739 *)

(** How a statement ends: it falls through, it breaks out of the enclosing
    loop, or the function returns a value ([None]: an indeterminate one). *)
Inductive flow (S : Type) : Type :=
| Go (s : S)
| Brk (r : reason) (s : S)
| Ret (v : option double) (s : S).
Arguments Go {S} s.
Arguments Brk {S} r s.
Arguments Ret {S} v s.

Definition bind {S : Type} (m : flow S) (f : S -> flow S) : flow S :=
  match m with
  | Go s => f s
  | Brk r s => Brk r s
  | Ret v s => Ret v s
  end.

Notation "x <- m ;; f" := (bind m (fun x => f))
  (at level 61, m at next level, right associativity).

(** [for (i = 0 ; i < n ; i++) body] where the body may break or return. *)
Fixpoint count_up_flow {S : Type} (fuel : nat) (i : Z) (body : Z -> S -> flow S) (s : S)
  : flow S :=
  match fuel with
  | O => Go s
  | Datatypes.S fuel' =>
      match body i s with
      | Go s' => count_up_flow fuel' (i + 1) body s'
      | Brk r s' => Brk r s'
      | Ret v s' => Ret v s'
      end
  end.

Definition for_flow {S : Type} (n : Z) (body : Z -> S -> flow S) (s : S) : flow S :=
  count_up_flow (Z.to_nat n) 0 body s.

(** The statement after a loop: a [break] ends the loop, not the function. *)
Definition end_loop {S : Type} (m : flow S) : flow S :=
  match m with
  | Brk _ s => Go s
  | other => other
  end.

(** ** The deterministic stream (lines 27-31, 481-484) *)

Definition IA : Z := 16807.
Definition IM : Z := 2147483647.
Definition IQ : Z := 127773.
Definition IR : Z := 2836.

(** One advance; the result is the pair of the new [k] and the new [randnum]. *)
Definition advance (randnum : Z) : Z * Z :=
  let k := int_div randnum IQ in
  let randnum := int_sub (int_mul IA (int_sub randnum (int_mul k IQ))) (int_mul IR k) in
  let randnum := if randnum <? 0 then int_add randnum IM else randnum in
  (k, randnum).

(** The state after [n] advances. *)
Fixpoint draws (n : nat) (randnum : Z) : Z :=
  match n with
  | O => randnum
  | Datatypes.S n' => draws n' (snd (advance randnum))
  end.

(** ** The numerical engine and the host program *)

(** The place of an engine call.  [e] is the epoch in [rbm_cuda] and the
    trial in [rbm_cuda_wt_init], [b] the batch, [c] the chain step. *)
Inductive site : Type :=
| at_init
| at_shuffle_to_device (e : Z)
| at_params_to_device (e : Z)
| at_fetch_vis1 (e b : Z)
| at_vis_to_hid (e b : Z)
| at_hid_to_vis_direct (e b : Z)
| at_sample_hidden2 (e b c : Z)
| at_hid_to_vis (e b c : Z)
| at_recon_error (e b : Z)
| at_vis2_to_hid2 (e b c : Z)
| at_update_in_bias (e b : Z)
| at_update_hid_bias (e b : Z)
| at_update_weights (e b : Z)
| at_transpose (e b : Z)
| at_max_inc (e b : Z)
| at_len_dot (e b : Z)
| at_max_weight (e : Z)
| at_params_from_device.

(** An engine call with its scalar arguments, in the order of the source;
    work pointers (always NULL here) and data pointers are not recorded,
    except the parameters uploaded by [cuda_params_to_device]. *)
Inductive call : Type :=
| rbm_cuda_init (nc ncols n_inputs nhid mean_field greedy_mean_field max_batch : Z)
| cuda_shuffle_to_device (nc : Z)
| cuda_params_to_device (n_inputs nhid : Z) (in_bias hid_bias w : array double)
| cuda_fetch_vis1 (istart istop n_inputs : Z) (seed : option Z)
| cuda_vis_to_hid (n_in_batch nhid : Z)
| cuda_hid_to_vis_direct (n_in_batch n_inputs : Z)
| cuda_sample_hidden2 (n_in_batch nhid randnum : Z)
| cuda_hid_to_vis (n_in_batch n_inputs randnum : Z)
| cuda_recon_error (n_inputs n_in_batch : Z)
| cuda_vis2_to_hid2 (n_in_batch nhid : Z)
| cuda_update_in_bias (n_in_batch n_inputs : Z) (learning_rate momentum : double)
| cuda_update_hid_bias (n_in_batch nhid : Z) (learning_rate momentum : double)
    (randnum : Z) (sparsity_penalty sparsity_target : double)
| cuda_update_weights (n_in_batch n_inputs nhid : Z) (learning_rate momentum : double)
    (weight_pen sparsity_penalty sparsity_target : double)
| cuda_transpose (n_inputs nhid : Z)
| cuda_max_inc_w (n : Z) (inc_vs_w : Z)
| cuda_len_dot (n : Z)
| cuda_params_from_device (n_inputs nhid : Z)
| rbm_cuda_cleanup.

Record Engine : Type := {
  (** the [ret_val] of the primitive called at a place; 0 is success *)
  status : site -> Z;
  (** what [cuda_recon_error] leaves in [err_vec], given its old content *)
  recon_error_out : Z -> Z -> array double -> array double;
  (** the scalar of [cuda_max_inc_w (..., 1)], batch by batch *)
  max_inc_out : Z -> Z -> double;
  (** the scalar of [cuda_max_inc_w (..., 0)], epoch by epoch *)
  max_weight_out : Z -> double;
  (** the two scalars of [cuda_len_dot] *)
  len_out : Z -> Z -> double;
  dot_out : Z -> Z -> double;
  (** what [cuda_params_from_device] writes *)
  in_bias_out : array double;
  hid_bias_out : array double;
  w_out : array double
}.

(** The place of a call of [user_pressed_escape]. *)
Inductive poll_site : Type :=
| poll_entry                 (* line 79 *)
| poll_trial (irand : Z)     (* line 262 *)
| poll_trial_drain (irand : Z)  (* line 263 *)
| poll_batch (i_epoch ibatch : Z)  (* line 624 *)
| poll_epoch (i_epoch : Z)   (* line 693 *)
| poll_epoch_drain (i_epoch : Z).  (* line 694 *)

Record Host : Type := {
  (** the successive values of [unifrand_fast ()] *)
  unifrand_fast : nat -> double;
  (** [user_pressed_escape ()] at a place, given the flag before the call:
      whether it returns nonzero, and the flag after the call *)
  user_pressed_escape : poll_site -> bool -> bool * bool
}.

(** What the function shares with the rest of the program. *)
Record world : Type := {
  trace : list call;          (* engine calls, the latest first *)
  n_unif : nat;               (* draws taken from [unifrand_fast] *)
  escape_key_pressed : bool   (* the global flag *)
}.

Definition record (c : call) (x : world) : world :=
  {| trace := c :: trace x; n_unif := n_unif x; escape_key_pressed := escape_key_pressed x |}.

Definition set_escape_key_pressed (f : bool) (x : world) : world :=
  {| trace := trace x; n_unif := n_unif x; escape_key_pressed := f |}.

Definition draw (h : Host) (x : world) : double * world :=
  (unifrand_fast h (n_unif x),
   {| trace := trace x; n_unif := Datatypes.S (n_unif x);
      escape_key_pressed := escape_key_pressed x |}).

(** [escape_key_pressed || user_pressed_escape ()] *)
Definition escape_requested (h : Host) (p : poll_site) (x : world) : bool * world :=
  if escape_key_pressed x then (true, x)
  else
    let '(r, f) := user_pressed_escape h p false in
    (r, set_escape_key_pressed f x).

(** [user_pressed_escape () ; escape_key_pressed = 0 ;] *)
Definition drain_escape (h : Host) (p : poll_site) (x : world) : world :=
  let '(_, f) := user_pressed_escape h p (escape_key_pressed x) in
  set_escape_key_pressed false (set_escape_key_pressed f x).

(** ** Data statistics (lines 87-102 and 348-362) *)

Definition clamp_mean (ivis : Z) (dm : array double) : array double :=
  let dm := if Qltb (dm ivis) 1e-8 then store dm ivis 1e-8%Q else dm in
  if Qltb (1 - 1e-8)%Q (dm ivis) then store dm ivis (1 - 1e-8)%Q else dm.

(** In [rbm_cuda_wt_init] the case is reached through [dptr = data + i * ncols]. *)
Definition wt_init_data_mean (nc n_inputs ncols : Z) (data data_mean : array double)
  : array double :=
  let data_mean := for_ n_inputs (fun ivis dm => store dm ivis 0%Q) data_mean in
  let data_mean :=
    for_ nc (fun i dm =>
      let dptr := int_mul i ncols in
      for_ n_inputs (fun ivis dm => store dm ivis (dm ivis + data (dptr + ivis)%Z)%Q) dm)
      data_mean in
  for_ n_inputs (fun ivis dm =>
    clamp_mean ivis (store dm ivis (dm ivis / double_of_int nc)%Q)) data_mean.

(** In [rbm_cuda] it is [data[icase*ncols+ivis]]. *)
Definition rbm_data_mean (nc n_inputs ncols : Z) (data data_mean : array double)
  : array double :=
  let data_mean := for_ n_inputs (fun ivis dm => store dm ivis 0%Q) data_mean in
  let data_mean :=
    for_ nc (fun icase dm =>
      for_ n_inputs (fun ivis dm =>
        store dm ivis (dm ivis + data (int_add (int_mul icase ncols) ivis))%Q) dm)
      data_mean in
  for_ n_inputs (fun ivis dm =>
    clamp_mean ivis (store dm ivis (dm ivis / double_of_int nc)%Q)) data_mean.

(** ** Batch partition (lines 109-115 and 378-384) *)

Definition batch_size (nc n_done n_batches ibatch : Z) : Z :=
  int_div (int_sub nc n_done) (int_sub n_batches ibatch).

Definition max_batch_size (nc n_batches : Z) : Z :=
  snd (for_ n_batches (fun ibatch '(n_done, max_batch) =>
         let n_in_batch := batch_size nc n_done n_batches ibatch in
         let max_batch := if n_in_batch >? max_batch then n_in_batch else max_batch in
         (int_add n_done n_in_batch, max_batch)) (0, 0)).

(** ** What the file takes from elsewhere *)

Record Env : Type := {
  engine : Engine;
  host : Host;
  (** [sqrt] and [log] of the C library *)
  sqrt : double -> double;
  log : double -> double;
  (** the error codes of [const.h], whose values the file does not show *)
  ERROR_INSUFFICIENT_MEMORY : Z;
  ERROR_CUDA_MEMORY : Z;
  ERROR_CUDA_ERROR : Z
}.

(** The test of lines 120-140 and 389-409 on the value of [rbm_cuda_init]. *)
Definition init_refused (env : Env) (ret_val : Z) : bool :=
  (ret_val =? ERROR_INSUFFICIENT_MEMORY env)
  || (ret_val =? ERROR_CUDA_MEMORY env)
  || (ret_val =? ERROR_CUDA_ERROR env).

(** ** rbm_cuda_wt_init (lines 44-291) *)

Module WtInit.

Record args : Type := {
  nc : Z;
  n_inputs : Z;
  ncols : Z;
  data : array double;
  nhid : Z;
  n_rand : Z;
  n_batches : Z;
  (** the content of the caller's buffers, and of the flag, at the call *)
  shuffle_index0 : array Z;
  w0 : array double;
  in_bias0 : array double;
  hid_bias0 : array double;
  in_bias_best0 : array double;
  hid_bias_best0 : array double;
  w_best0 : array double;
  data_mean0 : array double;
  err_vec0 : array double;
  escape_key_pressed0 : bool
}.

Record locals : Type := {
  data_mean : array double;
  shuffle_index : array Z;
  w : array double;
  in_bias : array double;
  hid_bias : array double;
  in_bias_best : array double;
  hid_bias_best : array double;
  w_best : array double;
  err_vec : array double;
  error : double;
  best_err : double;
  n_done : Z;
  istart : Z;
  ext : world
}.

Definition set_shuffle_index (v : array Z) (s : locals) : locals :=
  {| data_mean := data_mean s; shuffle_index := v; w := w s; in_bias := in_bias s;
     hid_bias := hid_bias s; in_bias_best := in_bias_best s;
     hid_bias_best := hid_bias_best s; w_best := w_best s; err_vec := err_vec s;
     error := error s; best_err := best_err s; n_done := n_done s; istart := istart s;
     ext := ext s |}.

Definition set_w (v : array double) (s : locals) : locals :=
  {| data_mean := data_mean s; shuffle_index := shuffle_index s; w := v;
     in_bias := in_bias s; hid_bias := hid_bias s; in_bias_best := in_bias_best s;
     hid_bias_best := hid_bias_best s; w_best := w_best s; err_vec := err_vec s;
     error := error s; best_err := best_err s; n_done := n_done s; istart := istart s;
     ext := ext s |}.

Definition set_in_bias (v : array double) (s : locals) : locals :=
  {| data_mean := data_mean s; shuffle_index := shuffle_index s; w := w s; in_bias := v;
     hid_bias := hid_bias s; in_bias_best := in_bias_best s;
     hid_bias_best := hid_bias_best s; w_best := w_best s; err_vec := err_vec s;
     error := error s; best_err := best_err s; n_done := n_done s; istart := istart s;
     ext := ext s |}.

Definition set_hid_bias (v : array double) (s : locals) : locals :=
  {| data_mean := data_mean s; shuffle_index := shuffle_index s; w := w s;
     in_bias := in_bias s; hid_bias := v; in_bias_best := in_bias_best s;
     hid_bias_best := hid_bias_best s; w_best := w_best s; err_vec := err_vec s;
     error := error s; best_err := best_err s; n_done := n_done s; istart := istart s;
     ext := ext s |}.

Definition set_in_bias_best (v : array double) (s : locals) : locals :=
  {| data_mean := data_mean s; shuffle_index := shuffle_index s; w := w s;
     in_bias := in_bias s; hid_bias := hid_bias s; in_bias_best := v;
     hid_bias_best := hid_bias_best s; w_best := w_best s; err_vec := err_vec s;
     error := error s; best_err := best_err s; n_done := n_done s; istart := istart s;
     ext := ext s |}.

Definition set_hid_bias_best (v : array double) (s : locals) : locals :=
  {| data_mean := data_mean s; shuffle_index := shuffle_index s; w := w s;
     in_bias := in_bias s; hid_bias := hid_bias s; in_bias_best := in_bias_best s;
     hid_bias_best := v; w_best := w_best s; err_vec := err_vec s; error := error s;
     best_err := best_err s; n_done := n_done s; istart := istart s; ext := ext s |}.

Definition set_w_best (v : array double) (s : locals) : locals :=
  {| data_mean := data_mean s; shuffle_index := shuffle_index s; w := w s;
     in_bias := in_bias s; hid_bias := hid_bias s; in_bias_best := in_bias_best s;
     hid_bias_best := hid_bias_best s; w_best := v; err_vec := err_vec s; error := error s;
     best_err := best_err s; n_done := n_done s; istart := istart s; ext := ext s |}.

Definition set_err_vec (v : array double) (s : locals) : locals :=
  {| data_mean := data_mean s; shuffle_index := shuffle_index s; w := w s;
     in_bias := in_bias s; hid_bias := hid_bias s; in_bias_best := in_bias_best s;
     hid_bias_best := hid_bias_best s; w_best := w_best s; err_vec := v; error := error s;
     best_err := best_err s; n_done := n_done s; istart := istart s; ext := ext s |}.

Definition set_error (v : double) (s : locals) : locals :=
  {| data_mean := data_mean s; shuffle_index := shuffle_index s; w := w s;
     in_bias := in_bias s; hid_bias := hid_bias s; in_bias_best := in_bias_best s;
     hid_bias_best := hid_bias_best s; w_best := w_best s; err_vec := err_vec s;
     error := v; best_err := best_err s; n_done := n_done s; istart := istart s;
     ext := ext s |}.

Definition set_best_err (v : double) (s : locals) : locals :=
  {| data_mean := data_mean s; shuffle_index := shuffle_index s; w := w s;
     in_bias := in_bias s; hid_bias := hid_bias s; in_bias_best := in_bias_best s;
     hid_bias_best := hid_bias_best s; w_best := w_best s; err_vec := err_vec s;
     error := error s; best_err := v; n_done := n_done s; istart := istart s;
     ext := ext s |}.

Definition set_n_done (v : Z) (s : locals) : locals :=
  {| data_mean := data_mean s; shuffle_index := shuffle_index s; w := w s;
     in_bias := in_bias s; hid_bias := hid_bias s; in_bias_best := in_bias_best s;
     hid_bias_best := hid_bias_best s; w_best := w_best s; err_vec := err_vec s;
     error := error s; best_err := best_err s; n_done := v; istart := istart s;
     ext := ext s |}.

Definition set_istart (v : Z) (s : locals) : locals :=
  {| data_mean := data_mean s; shuffle_index := shuffle_index s; w := w s;
     in_bias := in_bias s; hid_bias := hid_bias s; in_bias_best := in_bias_best s;
     hid_bias_best := hid_bias_best s; w_best := w_best s; err_vec := err_vec s;
     error := error s; best_err := best_err s; n_done := n_done s; istart := v;
     ext := ext s |}.

Definition set_ext (v : world) (s : locals) : locals :=
  {| data_mean := data_mean s; shuffle_index := shuffle_index s; w := w s;
     in_bias := in_bias s; hid_bias := hid_bias s; in_bias_best := in_bias_best s;
     hid_bias_best := hid_bias_best s; w_best := w_best s; err_vec := err_vec s;
     error := error s; best_err := best_err s; n_done := n_done s; istart := istart s;
     ext := v |}.

Section Run.

Variable env : Env.
Variable a : args.

(** A call whose [ret_val] is tested: nonzero returns -1.0. *)
Definition engine_call (c : call) (p : site) (s : locals) : flow locals :=
  let s := set_ext (record c (ext s)) s in
  if status (engine env) p =? 0 then Go s else Ret (Some (-1)%Q) s.

Definition widx (ihid ivis : Z) : Z := int_add (int_mul ihid a.(n_inputs)) ivis.

(** Lines 182-190: the weights of one hidden neuron and its bias. *)
Definition gen_hidden (diff : double) (ihid : Z) (s : locals) : locals :=
  let '(sum, s) :=
    for_ a.(n_inputs) (fun ivis '(sum, s) =>
      let '(u, x) := draw (host env) (ext s) in
      let wt := (diff * (u - 0.5))%Q in
      let s := set_w (store (w s) (widx ihid ivis) wt) (set_ext x s) in
      ((sum + data_mean s ivis * wt)%Q, s)) (0%Q, s) in
  set_hid_bias (store (hid_bias s) ihid (- sum)%Q) s.

(** Lines 195-198: the bias of one visible neuron. *)
Definition center_visible (ivis : Z) (s : locals) : locals :=
  let sum := for_ a.(nhid) (fun ihid sum => (sum + w s (widx ihid ivis))%Q) 0%Q in
  set_in_bias
    (store (in_bias s) ivis
       (log env (data_mean s ivis / (1 - data_mean s ivis)) - 0.5 * sum)%Q) s.

(** Lines 214-245: one batch of the evaluation of a trial. *)
Definition evaluate_batch (irand ibatch : Z) (s : locals) : flow locals :=
  let n_in_batch := batch_size a.(nc) (n_done s) a.(n_batches) ibatch in
  let istop := int_add (istart s) n_in_batch in
  s <- engine_call (cuda_fetch_vis1 (istart s) istop a.(n_inputs) (Some 1))
         (at_fetch_vis1 irand ibatch) s ;;
  s <- engine_call (cuda_vis_to_hid n_in_batch a.(nhid)) (at_vis_to_hid irand ibatch) s ;;
  s <- engine_call (cuda_hid_to_vis_direct n_in_batch a.(n_inputs))
         (at_hid_to_vis_direct irand ibatch) s ;;
  (* line 239: ret_val is assigned and not tested *)
  let s := set_ext (record (cuda_recon_error a.(n_inputs) n_in_batch) (ext s)) s in
  let s := set_err_vec (recon_error_out (engine env) irand ibatch (err_vec s)) s in
  let s := set_error (for_ a.(n_inputs) (fun ivis e => (e + err_vec s ivis)%Q) (error s)) s in
  Go (set_n_done (int_add (n_done s) n_in_batch) (set_istart istop s)).

(** Lines 252-259. *)
Definition save_best (s : locals) : locals :=
  let s := set_best_err (error s) s in
  let s :=
    for_ a.(nhid) (fun ihid s =>
      let s := set_hid_bias_best (store (hid_bias_best s) ihid (hid_bias s ihid)) s in
      for_ a.(n_inputs) (fun ivis s =>
        set_w_best (store (w_best s) (widx ihid ivis) (w s (widx ihid ivis))) s) s) s in
  for_ a.(n_inputs) (fun ivis s =>
    set_in_bias_best (store (in_bias_best s) ivis (in_bias s ivis)) s) s.

(** Lines 166-246: a trial weight set and its reconstruction error. *)
Definition evaluate (irand : Z) (s : locals) : flow locals :=
  let s := set_error 0%Q s in
  s <- (if irand =? 0
        then engine_call (cuda_shuffle_to_device a.(nc)) (at_shuffle_to_device irand) s
        else Go s) ;;
  let '(u, x) := draw (host env) (ext s) in
  let s := set_ext x s in
  let diff :=
    (4 * u / sqrt env (sqrt env (double_of_int a.(n_inputs) * double_of_int a.(nhid))))%Q in
  let s := for_ a.(nhid) (gen_hidden diff) s in
  let s := for_ a.(n_inputs) center_visible s in
  s <- engine_call (cuda_params_to_device a.(n_inputs) a.(nhid) (in_bias s) (hid_bias s) (w s))
         (at_params_to_device irand) s ;;
  let s := set_istart 0 (set_n_done 0 s) in
  for_flow a.(n_batches) (evaluate_batch irand) s.

(** Lines 166-269: one pass of the main loop. *)
Definition trial (irand : Z) (s : locals) : flow locals :=
  s <- evaluate irand s ;;
  let s := if Qltb (error s) (best_err s) then save_best s else s in
  let '(esc, x) := escape_requested (host env) (poll_trial irand) (ext s) in
  let s := set_ext x s in
  if esc
  then Brk escape_pressed
         (set_ext (drain_escape (host env) (poll_trial_drain irand) (ext s)) s)
  else Go s.

(** Lines 79-163: up to the main loop. *)
Definition entry : flow locals :=
  let x :=
    drain_escape (host env) poll_entry
      {| trace := []; n_unif := O; escape_key_pressed := a.(escape_key_pressed0) |} in
  let max_batch := max_batch_size a.(nc) a.(n_batches) in
  let x := record (rbm_cuda_init a.(nc) a.(ncols) a.(n_inputs) a.(nhid) 1 1 max_batch) x in
  let s :=
    {| data_mean := wt_init_data_mean a.(nc) a.(n_inputs) a.(ncols) a.(data) a.(data_mean0);
       shuffle_index := a.(shuffle_index0); w := a.(w0); in_bias := a.(in_bias0);
       hid_bias := a.(hid_bias0); in_bias_best := a.(in_bias_best0);
       hid_bias_best := a.(hid_bias_best0); w_best := a.(w_best0); err_vec := a.(err_vec0);
       error := 0%Q; best_err := 0%Q; n_done := 0; istart := 0; ext := x |} in
  if init_refused env (status (engine env) at_init) then Ret (Some (-1)%Q) s
  else
    let s :=
      set_shuffle_index
        (for_ a.(nc) (fun icase si => store si icase icase) (shuffle_index s)) s in
    Go (set_best_err 1e40%Q s).

(** The main loop run for [n] trials at most. *)
Definition trials (n : Z) : flow locals :=
  s <- entry ;; for_flow n trial s.

(** Lines 279-286. *)
Definition restore_best (s : locals) : locals :=
  let s :=
    for_ a.(nhid) (fun ihid s =>
      let s := set_hid_bias (store (hid_bias s) ihid (hid_bias_best s ihid)) s in
      for_ a.(n_inputs) (fun ivis s =>
        set_w (store (w s) (widx ihid ivis) (w_best s (widx ihid ivis))) s) s) s in
  for_ a.(n_inputs) (fun ivis s =>
    set_in_bias (store (in_bias s) ivis (in_bias_best s ivis)) s) s.

(** The function with [n] in the place of [n_rand]. *)
Definition run (n : Z) : flow locals :=
  s <- end_loop (trials n) ;;
  let s := restore_best s in
  let s := set_ext (record rbm_cuda_cleanup (ext s)) s in
  Ret (Some (best_err s / double_of_int (int_mul a.(nc) a.(n_inputs)))%Q) s.

(** The value returned. *)
Definition result (n : Z) : option double :=
  match run n with
  | Ret v _ => v
  | _ => None
  end.

Definition rbm_cuda_wt_init : option double := result a.(n_rand).

End Run.

End WtInit.

(** ** rbm_cuda (lines 302-856) *)

(** Lines 655-666: the learning rate after one gradient-direction step. *)
Definition adapt_rate (dot learning_rate : double) : double :=
  let learning_rate :=
    if Qltb 0.5 dot then (learning_rate * 1.2)%Q
    else if Qltb 0.3 dot then (learning_rate * 1.1)%Q
    else if Qltb dot (-0.5) then (learning_rate / 1.2)%Q
    else if Qltb dot (-0.3) then (learning_rate / 1.1)%Q
    else learning_rate in
  let learning_rate := if Qltb 1 learning_rate then 1%Q else learning_rate in
  if Qltb learning_rate 0.001 then 0.001%Q else learning_rate.

(** The value read from a double that may not have been assigned; both places
    that read one are reached only after the first epoch assigned it. *)
Definition read (x : option double) : double :=
  match x with
  | Some v => v
  | None => 0%Q
  end.

Module Rbm.

Record args : Type := {
  nc : Z;
  ncols : Z;
  data : array double;
  n_inputs : Z;
  nhid : Z;
  n_chain_start : Z;
  n_chain_end : Z;
  n_chain_rate : double;
  mean_field : Z;
  greedy_mean_field : Z;
  n_batches : Z;
  max_epochs : Z;
  max_no_imp : Z;
  convergence_crit : double;
  learning_rate0 : double;   (* the parameter [learning_rate] at the call *)
  start_momentum : double;
  end_momentum : double;
  weight_pen : double;
  sparsity_penalty : double;
  sparsity_target : double;
  (** the content of the caller's buffers, and of the flag, at the call *)
  w0 : array double;
  in_bias0 : array double;
  hid_bias0 : array double;
  shuffle_index0 : array Z;
  data_mean0 : array double;
  err_vec0 : array double;
  escape_key_pressed0 : bool
}.

Record locals : Type := {
  i_epoch : Z;
  randnum : Z;
  k : option Z;
  learning_rate : double;
  momentum : double;
  chain_length : double;
  n_no_improvement : Z;
  best_crit : option double;
  most_recent_correct_error : option double;
  len_prev : option double;
  error : double;
  max_inc : double;
  n_done : Z;
  istart : Z;
  err_vec : array double;
  shuffle_index : array Z;
  data_mean : array double;
  w : array double;
  in_bias : array double;
  hid_bias : array double;
  ext : world
}.

Definition set_i_epoch (v : Z) (s : locals) : locals :=
  {| i_epoch := v; randnum := randnum s; k := k s; learning_rate := learning_rate s;
     momentum := momentum s; chain_length := chain_length s;
     n_no_improvement := n_no_improvement s; best_crit := best_crit s;
     most_recent_correct_error := most_recent_correct_error s; len_prev := len_prev s;
     error := error s; max_inc := max_inc s; n_done := n_done s; istart := istart s;
     err_vec := err_vec s; shuffle_index := shuffle_index s; data_mean := data_mean s;
     w := w s; in_bias := in_bias s; hid_bias := hid_bias s; ext := ext s |}.

Definition set_randnum (v : Z) (s : locals) : locals :=
  {| i_epoch := i_epoch s; randnum := v; k := k s; learning_rate := learning_rate s;
     momentum := momentum s; chain_length := chain_length s;
     n_no_improvement := n_no_improvement s; best_crit := best_crit s;
     most_recent_correct_error := most_recent_correct_error s; len_prev := len_prev s;
     error := error s; max_inc := max_inc s; n_done := n_done s; istart := istart s;
     err_vec := err_vec s; shuffle_index := shuffle_index s; data_mean := data_mean s;
     w := w s; in_bias := in_bias s; hid_bias := hid_bias s; ext := ext s |}.

Definition set_k (v : option Z) (s : locals) : locals :=
  {| i_epoch := i_epoch s; randnum := randnum s; k := v; learning_rate := learning_rate s;
     momentum := momentum s; chain_length := chain_length s;
     n_no_improvement := n_no_improvement s; best_crit := best_crit s;
     most_recent_correct_error := most_recent_correct_error s; len_prev := len_prev s;
     error := error s; max_inc := max_inc s; n_done := n_done s; istart := istart s;
     err_vec := err_vec s; shuffle_index := shuffle_index s; data_mean := data_mean s;
     w := w s; in_bias := in_bias s; hid_bias := hid_bias s; ext := ext s |}.

Definition set_learning_rate (v : double) (s : locals) : locals :=
  {| i_epoch := i_epoch s; randnum := randnum s; k := k s; learning_rate := v;
     momentum := momentum s; chain_length := chain_length s;
     n_no_improvement := n_no_improvement s; best_crit := best_crit s;
     most_recent_correct_error := most_recent_correct_error s; len_prev := len_prev s;
     error := error s; max_inc := max_inc s; n_done := n_done s; istart := istart s;
     err_vec := err_vec s; shuffle_index := shuffle_index s; data_mean := data_mean s;
     w := w s; in_bias := in_bias s; hid_bias := hid_bias s; ext := ext s |}.

Definition set_momentum (v : double) (s : locals) : locals :=
  {| i_epoch := i_epoch s; randnum := randnum s; k := k s;
     learning_rate := learning_rate s; momentum := v; chain_length := chain_length s;
     n_no_improvement := n_no_improvement s; best_crit := best_crit s;
     most_recent_correct_error := most_recent_correct_error s; len_prev := len_prev s;
     error := error s; max_inc := max_inc s; n_done := n_done s; istart := istart s;
     err_vec := err_vec s; shuffle_index := shuffle_index s; data_mean := data_mean s;
     w := w s; in_bias := in_bias s; hid_bias := hid_bias s; ext := ext s |}.

Definition set_chain_length (v : double) (s : locals) : locals :=
  {| i_epoch := i_epoch s; randnum := randnum s; k := k s;
     learning_rate := learning_rate s; momentum := momentum s; chain_length := v;
     n_no_improvement := n_no_improvement s; best_crit := best_crit s;
     most_recent_correct_error := most_recent_correct_error s; len_prev := len_prev s;
     error := error s; max_inc := max_inc s; n_done := n_done s; istart := istart s;
     err_vec := err_vec s; shuffle_index := shuffle_index s; data_mean := data_mean s;
     w := w s; in_bias := in_bias s; hid_bias := hid_bias s; ext := ext s |}.

Definition set_n_no_improvement (v : Z) (s : locals) : locals :=
  {| i_epoch := i_epoch s; randnum := randnum s; k := k s;
     learning_rate := learning_rate s; momentum := momentum s;
     chain_length := chain_length s; n_no_improvement := v; best_crit := best_crit s;
     most_recent_correct_error := most_recent_correct_error s; len_prev := len_prev s;
     error := error s; max_inc := max_inc s; n_done := n_done s; istart := istart s;
     err_vec := err_vec s; shuffle_index := shuffle_index s; data_mean := data_mean s;
     w := w s; in_bias := in_bias s; hid_bias := hid_bias s; ext := ext s |}.

Definition set_best_crit (v : option double) (s : locals) : locals :=
  {| i_epoch := i_epoch s; randnum := randnum s; k := k s;
     learning_rate := learning_rate s; momentum := momentum s;
     chain_length := chain_length s; n_no_improvement := n_no_improvement s;
     best_crit := v; most_recent_correct_error := most_recent_correct_error s;
     len_prev := len_prev s; error := error s; max_inc := max_inc s; n_done := n_done s;
     istart := istart s; err_vec := err_vec s; shuffle_index := shuffle_index s;
     data_mean := data_mean s; w := w s; in_bias := in_bias s; hid_bias := hid_bias s;
     ext := ext s |}.

Definition set_most_recent_correct_error (v : option double) (s : locals) : locals :=
  {| i_epoch := i_epoch s; randnum := randnum s; k := k s;
     learning_rate := learning_rate s; momentum := momentum s;
     chain_length := chain_length s; n_no_improvement := n_no_improvement s;
     best_crit := best_crit s; most_recent_correct_error := v; len_prev := len_prev s;
     error := error s; max_inc := max_inc s; n_done := n_done s; istart := istart s;
     err_vec := err_vec s; shuffle_index := shuffle_index s; data_mean := data_mean s;
     w := w s; in_bias := in_bias s; hid_bias := hid_bias s; ext := ext s |}.

Definition set_len_prev (v : option double) (s : locals) : locals :=
  {| i_epoch := i_epoch s; randnum := randnum s; k := k s;
     learning_rate := learning_rate s; momentum := momentum s;
     chain_length := chain_length s; n_no_improvement := n_no_improvement s;
     best_crit := best_crit s; most_recent_correct_error := most_recent_correct_error s;
     len_prev := v; error := error s; max_inc := max_inc s; n_done := n_done s;
     istart := istart s; err_vec := err_vec s; shuffle_index := shuffle_index s;
     data_mean := data_mean s; w := w s; in_bias := in_bias s; hid_bias := hid_bias s;
     ext := ext s |}.

Definition set_error (v : double) (s : locals) : locals :=
  {| i_epoch := i_epoch s; randnum := randnum s; k := k s;
     learning_rate := learning_rate s; momentum := momentum s;
     chain_length := chain_length s; n_no_improvement := n_no_improvement s;
     best_crit := best_crit s; most_recent_correct_error := most_recent_correct_error s;
     len_prev := len_prev s; error := v; max_inc := max_inc s; n_done := n_done s;
     istart := istart s; err_vec := err_vec s; shuffle_index := shuffle_index s;
     data_mean := data_mean s; w := w s; in_bias := in_bias s; hid_bias := hid_bias s;
     ext := ext s |}.

Definition set_max_inc (v : double) (s : locals) : locals :=
  {| i_epoch := i_epoch s; randnum := randnum s; k := k s;
     learning_rate := learning_rate s; momentum := momentum s;
     chain_length := chain_length s; n_no_improvement := n_no_improvement s;
     best_crit := best_crit s; most_recent_correct_error := most_recent_correct_error s;
     len_prev := len_prev s; error := error s; max_inc := v; n_done := n_done s;
     istart := istart s; err_vec := err_vec s; shuffle_index := shuffle_index s;
     data_mean := data_mean s; w := w s; in_bias := in_bias s; hid_bias := hid_bias s;
     ext := ext s |}.

Definition set_n_done (v : Z) (s : locals) : locals :=
  {| i_epoch := i_epoch s; randnum := randnum s; k := k s;
     learning_rate := learning_rate s; momentum := momentum s;
     chain_length := chain_length s; n_no_improvement := n_no_improvement s;
     best_crit := best_crit s; most_recent_correct_error := most_recent_correct_error s;
     len_prev := len_prev s; error := error s; max_inc := max_inc s; n_done := v;
     istart := istart s; err_vec := err_vec s; shuffle_index := shuffle_index s;
     data_mean := data_mean s; w := w s; in_bias := in_bias s; hid_bias := hid_bias s;
     ext := ext s |}.

Definition set_istart (v : Z) (s : locals) : locals :=
  {| i_epoch := i_epoch s; randnum := randnum s; k := k s;
     learning_rate := learning_rate s; momentum := momentum s;
     chain_length := chain_length s; n_no_improvement := n_no_improvement s;
     best_crit := best_crit s; most_recent_correct_error := most_recent_correct_error s;
     len_prev := len_prev s; error := error s; max_inc := max_inc s; n_done := n_done s;
     istart := v; err_vec := err_vec s; shuffle_index := shuffle_index s;
     data_mean := data_mean s; w := w s; in_bias := in_bias s; hid_bias := hid_bias s;
     ext := ext s |}.

Definition set_err_vec (v : array double) (s : locals) : locals :=
  {| i_epoch := i_epoch s; randnum := randnum s; k := k s;
     learning_rate := learning_rate s; momentum := momentum s;
     chain_length := chain_length s; n_no_improvement := n_no_improvement s;
     best_crit := best_crit s; most_recent_correct_error := most_recent_correct_error s;
     len_prev := len_prev s; error := error s; max_inc := max_inc s; n_done := n_done s;
     istart := istart s; err_vec := v; shuffle_index := shuffle_index s;
     data_mean := data_mean s; w := w s; in_bias := in_bias s; hid_bias := hid_bias s;
     ext := ext s |}.

Definition set_shuffle_index (v : array Z) (s : locals) : locals :=
  {| i_epoch := i_epoch s; randnum := randnum s; k := k s;
     learning_rate := learning_rate s; momentum := momentum s;
     chain_length := chain_length s; n_no_improvement := n_no_improvement s;
     best_crit := best_crit s; most_recent_correct_error := most_recent_correct_error s;
     len_prev := len_prev s; error := error s; max_inc := max_inc s; n_done := n_done s;
     istart := istart s; err_vec := err_vec s; shuffle_index := v;
     data_mean := data_mean s; w := w s; in_bias := in_bias s; hid_bias := hid_bias s;
     ext := ext s |}.

Definition set_w (v : array double) (s : locals) : locals :=
  {| i_epoch := i_epoch s; randnum := randnum s; k := k s;
     learning_rate := learning_rate s; momentum := momentum s;
     chain_length := chain_length s; n_no_improvement := n_no_improvement s;
     best_crit := best_crit s; most_recent_correct_error := most_recent_correct_error s;
     len_prev := len_prev s; error := error s; max_inc := max_inc s; n_done := n_done s;
     istart := istart s; err_vec := err_vec s; shuffle_index := shuffle_index s;
     data_mean := data_mean s; w := v; in_bias := in_bias s; hid_bias := hid_bias s;
     ext := ext s |}.

Definition set_in_bias (v : array double) (s : locals) : locals :=
  {| i_epoch := i_epoch s; randnum := randnum s; k := k s;
     learning_rate := learning_rate s; momentum := momentum s;
     chain_length := chain_length s; n_no_improvement := n_no_improvement s;
     best_crit := best_crit s; most_recent_correct_error := most_recent_correct_error s;
     len_prev := len_prev s; error := error s; max_inc := max_inc s; n_done := n_done s;
     istart := istart s; err_vec := err_vec s; shuffle_index := shuffle_index s;
     data_mean := data_mean s; w := w s; in_bias := v; hid_bias := hid_bias s;
     ext := ext s |}.

Definition set_hid_bias (v : array double) (s : locals) : locals :=
  {| i_epoch := i_epoch s; randnum := randnum s; k := k s;
     learning_rate := learning_rate s; momentum := momentum s;
     chain_length := chain_length s; n_no_improvement := n_no_improvement s;
     best_crit := best_crit s; most_recent_correct_error := most_recent_correct_error s;
     len_prev := len_prev s; error := error s; max_inc := max_inc s; n_done := n_done s;
     istart := istart s; err_vec := err_vec s; shuffle_index := shuffle_index s;
     data_mean := data_mean s; w := w s; in_bias := in_bias s; hid_bias := v;
     ext := ext s |}.

Definition set_ext (v : world) (s : locals) : locals :=
  {| i_epoch := i_epoch s; randnum := randnum s; k := k s;
     learning_rate := learning_rate s; momentum := momentum s;
     chain_length := chain_length s; n_no_improvement := n_no_improvement s;
     best_crit := best_crit s; most_recent_correct_error := most_recent_correct_error s;
     len_prev := len_prev s; error := error s; max_inc := max_inc s; n_done := n_done s;
     istart := istart s; err_vec := err_vec s; shuffle_index := shuffle_index s;
     data_mean := data_mean s; w := w s; in_bias := in_bias s; hid_bias := hid_bias s;
     ext := v |}.

Section Run.

Variable env : Env.
Variable a : args.

(** A call whose [ret_val] is tested: nonzero returns -1.0. *)
Definition engine_call (c : call) (p : site) (s : locals) : flow locals :=
  let s := set_ext (record c (ext s)) s in
  if status (engine env) p =? 0 then Go s else Ret (Some (-1)%Q) s.

(** Lines 481-484, and again at 513, 528 and 579. *)
Definition step_stream (s : locals) : locals :=
  let '(q, r) := advance (randnum s) in
  set_randnum r (set_k (Some q) s).

(** Lines 443-451: the shuffle; [fuel] passes remain, [i] is the number of
    entries still to place. *)
Fixpoint shuffle_loop (fuel : nat) (i : Z) (s : locals) : locals :=
  match fuel with
  | O => s
  | Datatypes.S fuel' =>
      let '(u, x) := draw (host env) (ext s) in
      let s := set_ext x s in
      let j := int_of_double (u * double_of_int i)%Q in
      let j := if j >=? i then i - 1 else j in
      let i := i - 1 in
      let tmp := shuffle_index s i in
      let s := set_k (Some tmp) s in
      let s := set_shuffle_index (store (shuffle_index s) i (shuffle_index s j)) s in
      let s := set_shuffle_index (store (shuffle_index s) j tmp) s in
      shuffle_loop fuel' i s
  end.

Definition shuffle (s : locals) : locals :=
  shuffle_loop (Z.to_nat (a.(nc) - 1)) a.(nc) s.

(** Lines 510-563: one step of the Markov chain. *)
Definition chain_step (i_epoch ibatch n_in_batch ichain : Z) (s : locals) : flow locals :=
  let s := step_stream s in
  s <- engine_call (cuda_sample_hidden2 n_in_batch a.(nhid) (randnum s))
         (at_sample_hidden2 i_epoch ibatch ichain) s ;;
  let s := step_stream s in
  s <- engine_call (cuda_hid_to_vis n_in_batch a.(n_inputs) (randnum s))
         (at_hid_to_vis i_epoch ibatch ichain) s ;;
  s <- (if ichain =? 0
        then
          s <- engine_call (cuda_recon_error a.(n_inputs) n_in_batch)
                 (at_recon_error i_epoch ibatch) s ;;
          Go (set_err_vec (recon_error_out (engine env) i_epoch ibatch (err_vec s)) s)
        else Go s) ;;
  engine_call (cuda_vis2_to_hid2 n_in_batch a.(nhid)) (at_vis2_to_hid2 i_epoch ibatch ichain) s.

(** Line 624: [i_epoch && (escape_key_pressed || user_pressed_escape ())]. *)
Definition escape_seen (i_epoch : Z) (p : poll_site) (s : locals) : bool * locals :=
  if i_epoch =? 0 then (false, s)
  else
    let '(esc, x) := escape_requested (host env) p (ext s) in
    (esc, set_ext x s).

(** Lines 632-673: gradient lengths, dot product and the rate controller. *)
Definition adapt (i_epoch ibatch : Z) (s : locals) : flow locals :=
  if (i_epoch =? 0) && (ibatch =? 0)
  then
    s <- engine_call (cuda_len_dot (int_mul a.(n_inputs) a.(nhid)))
           (at_len_dot i_epoch ibatch) s ;;
    Go (set_len_prev (Some (len_out (engine env) i_epoch ibatch)) s)
  else
    s <- engine_call (cuda_len_dot (int_mul a.(n_inputs) a.(nhid)))
           (at_len_dot i_epoch ibatch) s ;;
    let len_this := len_out (engine env) i_epoch ibatch in
    let dot :=
      (dot_out (engine env) i_epoch ibatch / sqrt env (len_this * read (len_prev s)))%Q in
    let s := set_len_prev (Some len_this) s in
    let s := set_learning_rate (adapt_rate dot (learning_rate s)) s in
    let s := if Qltb 0.3 (fabs dot) then set_momentum (momentum s / 1.5)%Q s else s in
    Go s.

(** Lines 477-622: the engine work of one batch. *)
Definition batch_work (i_epoch ibatch n_in_batch istop : Z) (s : locals) : flow locals :=
  let s := if a.(greedy_mean_field) =? 0 then step_stream s else s in
  s <- engine_call (cuda_fetch_vis1 (istart s) istop a.(n_inputs) (k s))
         (at_fetch_vis1 i_epoch ibatch) s ;;
  s <- engine_call (cuda_vis_to_hid n_in_batch a.(nhid)) (at_vis_to_hid i_epoch ibatch) s ;;
  s <- for_flow (int_of_double (chain_length s + 0.5)%Q)
         (chain_step i_epoch ibatch n_in_batch) s ;;
  s <- engine_call
         (cuda_update_in_bias n_in_batch a.(n_inputs) (learning_rate s) (momentum s))
         (at_update_in_bias i_epoch ibatch) s ;;
  let s := step_stream s in
  s <- engine_call
         (cuda_update_hid_bias n_in_batch a.(nhid) (learning_rate s) (momentum s)
            (randnum s) a.(sparsity_penalty) a.(sparsity_target))
         (at_update_hid_bias i_epoch ibatch) s ;;
  s <- engine_call
         (cuda_update_weights n_in_batch a.(n_inputs) a.(nhid) (learning_rate s)
            (momentum s) a.(weight_pen) a.(sparsity_penalty) a.(sparsity_target))
         (at_update_weights i_epoch ibatch) s ;;
  s <- engine_call (cuda_transpose a.(n_inputs) a.(nhid)) (at_transpose i_epoch ibatch) s ;;
  let s := set_error (for_ a.(n_inputs) (fun ivis e => (e + err_vec s ivis)%Q) (error s)) s in
  s <- engine_call (cuda_max_inc_w (int_mul a.(n_inputs) a.(nhid)) 1)
         (at_max_inc i_epoch ibatch) s ;;
  let dtemp := max_inc_out (engine env) i_epoch ibatch in
  Go (if Qltb (max_inc s) dtemp then set_max_inc dtemp s else s).

(** Lines 474-676: one batch. *)
Definition batch (i_epoch ibatch : Z) (s : locals) : flow locals :=
  let n_in_batch := batch_size a.(nc) (n_done s) a.(n_batches) ibatch in
  let istop := int_add (istart s) n_in_batch in
  s <- batch_work i_epoch ibatch n_in_batch istop s ;;
  let '(esc, s) := escape_seen i_epoch (poll_batch i_epoch ibatch) s in
  if esc then Brk escape_in_batch s
  else
    s <- adapt i_epoch ibatch s ;;
    Go (set_istart istop (set_n_done (int_add (n_done s) n_in_batch) s)).

(** Lines 755-768. *)
Definition ceiling (n : Z) (c : double) (s : locals) : locals :=
  if (n_no_improvement s >? n) && Qltb c (learning_rate s) then set_learning_rate c s else s.

(** Lines 731-768: the stall test and the end of an epoch that goes on. *)
Definition stall_test (i_epoch : Z) (ratio : double) (s : locals) : flow locals :=
  s <- (if (i_epoch =? 0) || Qltb ratio (read (best_crit s))
        then Go (set_n_no_improvement 0 (set_best_crit (Some ratio) s))
        else
          let s := set_n_no_improvement (int_add (n_no_improvement s) 1) s in
          if n_no_improvement s >? a.(max_no_imp) then Brk stalled s else Go s) ;;
  let s := set_momentum (0.99 * momentum s + 0.01 * a.(end_momentum))%Q s in
  let s :=
    set_chain_length
      ((1.0 - a.(n_chain_rate)) * chain_length s
       + a.(n_chain_rate) * double_of_int a.(n_chain_end))%Q s in
  Go (ceiling 250 0.002%Q (ceiling 200 0.005%Q (ceiling 150 0.01%Q
        (ceiling 100 0.02%Q (ceiling 50 0.03%Q s))))).

(** Lines 468-678: the batches of an epoch. *)
Definition batches (i_epoch : Z) (s : locals) : flow locals :=
  let s := set_max_inc 0%Q (set_error 0%Q (set_n_done 0 (set_istart 0 s))) in
  for_flow a.(n_batches) (batch i_epoch) s.

(** Lines 693-768: what follows the batch loop. *)
Definition epoch_end (i_epoch : Z) (s : locals) : flow locals :=
  let '(esc, s) := escape_seen i_epoch (poll_epoch i_epoch) s in
  if esc
  then Brk escape_pressed
         (set_ext (drain_escape (host env) (poll_epoch_drain i_epoch) (ext s)) s)
  else
    let s := set_error (error s / double_of_int (int_mul a.(nc) a.(n_inputs)))%Q s in
    let s := set_most_recent_correct_error (Some (error s)) s in
    s <- engine_call (cuda_max_inc_w (int_mul a.(n_inputs) a.(nhid)) 0)
           (at_max_weight i_epoch) s ;;
    let max_weight := max_weight_out (engine env) i_epoch in
    if Qltb (max_inc s / max_weight)%Q a.(convergence_crit) then Brk converged s
    else stall_test i_epoch (max_inc s / max_weight)%Q s.

(** Lines 435-678: an epoch up to the end of its batch loop. *)
Definition epoch_batches (i_epoch : Z) (s : locals) : flow locals :=
  let s := shuffle (set_i_epoch i_epoch s) in
  s <- engine_call (cuda_shuffle_to_device a.(nc)) (at_shuffle_to_device i_epoch) s ;;
  batches i_epoch s.

(** Lines 435-770: one epoch. *)
Definition epoch (i_epoch : Z) (s : locals) : flow locals :=
  s <- end_loop (epoch_batches i_epoch s) ;;
  epoch_end i_epoch s.

(** Lines 339-433: up to the epoch loop. *)
Definition entry : flow locals :=
  let max_batch := max_batch_size a.(nc) a.(n_batches) in
  let x :=
    record
      (rbm_cuda_init a.(nc) a.(ncols) a.(n_inputs) a.(nhid) a.(mean_field)
         a.(greedy_mean_field) max_batch)
      {| trace := []; n_unif := O; escape_key_pressed := a.(escape_key_pressed0) |} in
  let s :=
    {| i_epoch := 0; randnum := 1; k := None; learning_rate := a.(learning_rate0);
       momentum := a.(start_momentum); chain_length := double_of_int a.(n_chain_start);
       n_no_improvement := 0; best_crit := None; most_recent_correct_error := None;
       len_prev := None; error := 0%Q; max_inc := 0%Q; n_done := 0; istart := 0;
       err_vec := a.(err_vec0);
       shuffle_index := for_ a.(nc) (fun icase si => store si icase icase) a.(shuffle_index0);
       data_mean := rbm_data_mean a.(nc) a.(n_inputs) a.(ncols) a.(data) a.(data_mean0);
       w := a.(w0); in_bias := a.(in_bias0); hid_bias := a.(hid_bias0); ext := x |} in
  if init_refused env (status (engine env) at_init) then Ret (Some (-1)%Q) s else Go s.

(** The epoch loop from epoch [first] on, [fuel] epochs at most. *)
Definition epochs_from (fuel : nat) (first : Z) (s : locals) : flow locals :=
  match count_up_flow fuel first epoch s with
  | Go s => Go (set_i_epoch (first + Z.of_nat fuel) s)
  | other => other
  end.

(** The epoch loop of the function: how it ends, and the locals then. *)
Definition training : flow locals :=
  s <- entry ;; epochs_from (Z.to_nat a.(max_epochs)) 0 s.

(** Lines 772-855. *)
Definition run : flow locals :=
  s <- end_loop training ;;
  s <- engine_call (cuda_params_from_device a.(n_inputs) a.(nhid)) at_params_from_device s ;;
  let s :=
    set_w (w_out (engine env))
      (set_hid_bias (hid_bias_out (engine env)) (set_in_bias (in_bias_out (engine env)) s)) in
  let s := set_ext (record rbm_cuda_cleanup (ext s)) s in
  Ret (most_recent_correct_error s) s.

(** The value returned; [None] is an indeterminate value. *)
Definition rbm_cuda : option double :=
  match run with
  | Ret v _ => v
  | _ => None
  end.

End Run.

End Rbm.

(** ** The chain length on binary64 (lines 432 and 744) *)

(** The same two statements with the arithmetic of the machine: every
    operation rounds its exact result to the nearest binary64 number, ties to
    even, as the primitive floats do. *)
Module Binary64.
Import PrimFloat.

(** The conversion of an [int] to [double]; it is exact. *)
Definition double_of_int (n : Z) : float :=
  if n <? 0 then (- of_uint63 (Uint63.of_Z (- n)))%float else of_uint63 (Uint63.of_Z n).



End Binary64.

(** ** Observations on a run *)

Definition state_of {S : Type} (m : flow S) : S :=
  match m with
  | Go s | Brk _ s | Ret _ s => s
  end.

(** A projection that a step leaves unchanged. *)
Definition keeps {S T : Type} (f : S -> T) (s s' : S) : Prop := f s' = f s.

(** A statement that does not break out of a loop. *)
Definition no_Brk {S : Type} (m : flow S) : Prop := forall why s, m <> Brk why s.

(** The sum of [f 0], ..., [f (nc - 1)], added in the order of the loops of
    lines 90-94 and 351-354. *)
Definition sum_rows (nc : Z) (f : Z -> double) : double :=
  for_ nc (fun i acc => (acc + f i)%Q) 0%Q.

(** A value brought into [1e-8, 1 - 1e-8]. *)
Definition clamped (x : double) : double :=
  if Qltb x 1e-8 then 1e-8%Q else if Qltb (1 - 1e-8)%Q x then (1 - 1e-8)%Q else x.

Definition in_rate_range (x : double) : Prop := (0.001 <= x <= 1)%Q.

(** The engine never reports a failure, and no error code of [const.h] is 0. *)
Definition engine_ok (env : Env) : Prop :=
  (forall p, status (engine env) p = 0) /\ init_refused env 0 = false.

(** [user_pressed_escape] leaves the flag set whenever it reports a key. *)
Definition latching (h : Host) : Prop :=
  forall p f, fst (user_pressed_escape h p f) = true ->
              snd (user_pressed_escape h p f) = true.

(** Nobody presses the key. *)
Definition no_escape (h : Host) : Prop :=
  forall p, user_pressed_escape h p false = (false, false).

Module RbmRun.
Import Rbm.

Section Observations.

Variable env : Env.
Variable a : args.

(** The locals at the start of epoch [e], when the loop gets there. *)
Fixpoint locals_at (e : nat) : option locals :=
  match e with
  | O => match entry env a with
         | Go s => Some s
         | _ => None
         end
  | Datatypes.S e' =>
      match locals_at e' with
      | Some s => match epoch env a (Z.of_nat e') s with
                  | Go s' => Some s'
                  | _ => None
                  end
      | None => None
      end
  end.

(** The locals when the batch loop of epoch [e] ends, and how it ended. *)
Definition batches_at (e : nat) : option (flow locals) :=
  match locals_at e with
  | Some s => Some (epoch_batches env a (Z.of_nat e) s)
  | None => None
  end.

(** Epoch [e] was left at line 625. *)
Definition escape_during (e : nat) : bool :=
  match batches_at e with
  | Some (Brk escape_in_batch _) => true
  | _ => false
  end.

(** The error summed over all batches of epoch [e], over [nc * n_inputs]. *)
Definition reconstruction_error (e : nat) : option double :=
  match batches_at e with
  | Some (Go s) => Some (error s / double_of_int (int_mul a.(nc) a.(n_inputs)))%Q
  | _ => None
  end.

(** The largest increment the engine reports in epoch [e] (lines 471, 621). *)
Definition epoch_max_inc (e : Z) : double :=
  for_ a.(n_batches)
    (fun b m => if Qltb m (max_inc_out (engine env) e b)
                then max_inc_out (engine env) e b else m) 0%Q.

(** The ratio tested at lines 721 and 731. *)
Definition ratio (e : Z) : double :=
  (epoch_max_inc e / max_weight_out (engine env) e)%Q.

(** *** Frames: what each part of an epoch leaves alone *)

(** What the engine work of a batch leaves alone. *)
Definition outside_chain (s : locals) :=
  (i_epoch s, learning_rate s, momentum s, chain_length s, n_no_improvement s, best_crit s,
   most_recent_correct_error s, len_prev s, n_done s, istart s, shuffle_index s,
   n_unif (ext s), escape_key_pressed (ext s)).

(** What the Markov chain leaves alone. *)
Definition outside_chain_steps (s : locals) := (outside_chain s, error s, max_inc s).

(** What the batch loop of an epoch leaves alone. *)
Definition outside_batches (s : locals) :=
  (i_epoch s, chain_length s, n_no_improvement s, best_crit s, most_recent_correct_error s,
   shuffle_index s, n_unif (ext s)).

(** What the shuffle leaves alone. *)
Definition outside_shuffle (s : locals) :=
  (i_epoch s, randnum s, learning_rate s, momentum s, chain_length s, n_no_improvement s,
   best_crit s, most_recent_correct_error s, len_prev s, err_vec s,
   trace (ext s), escape_key_pressed (ext s)).

(** What an epoch leaves alone up to the end of its batch loop. *)
Definition outside_epoch_batches (s : locals) :=
  (chain_length s, n_no_improvement s, best_crit s, most_recent_correct_error s).

(** *** Quantities of the loop *)

(** The dot product as line 652 leaves it. *)
Definition cosine (e b : Z) (s : locals) : double :=
  (dot_out (engine env) e b
   / sqrt env (len_out (engine env) e b * read (len_prev s)))%Q.

(** The error of line 702, and the two updates of lines 743-744. *)
Definition normalized (s : locals) : double :=
  (error s / double_of_int (int_mul a.(nc) a.(n_inputs)))%Q.

Definition annealed_momentum (s : locals) : double :=
  (0.99 * momentum s + 0.01 * a.(end_momentum))%Q.

Definition annealed_chain_length (s : locals) : double :=
  ((1.0 - a.(n_chain_rate)) * chain_length s
   + a.(n_chain_rate) * double_of_int a.(n_chain_end))%Q.

(** The running maximum of line 621. *)
Definition larger (e b : Z) (m : double) : double :=
  if Qltb m (max_inc_out (engine env) e b) then max_inc_out (engine env) e b else m.

(** The engine calls of [s'] continue those of [s]. *)
Definition extends (s s' : locals) : Prop :=
  exists l, trace (ext s') = l ++ trace (ext s).

(** [k] and [randnum] are as one advance of the stream left them. *)
Definition left_by_advance (s : locals) : Prop :=
  exists r, k s = Some (fst (advance r)) /\ randnum s = snd (advance r).

End Observations.

End RbmRun.

Module WtInitRun.
Import WtInit.

Section Observations.

Variable env : Env.
Variable a : args.

(** The locals after [t] trials that all fell through to the next. *)
Fixpoint locals_after (t : nat) : option locals :=
  match t with
  | O => match entry env a with
         | Go s => Some s
         | _ => None
         end
  | Datatypes.S t' =>
      match locals_after t' with
      | Some s => match trial env a (Z.of_nat t') s with
                  | Go s' => Some s'
                  | _ => None
                  end
      | None => None
      end
  end.

(** The locals when trial [j] is over, whether the loop goes on or is left
    at line 268; [error] then holds the error of the trial and [w],
    [in_bias], [hid_bias] its parameters. *)
Definition trial_done (j : nat) : option locals :=
  match locals_after j with
  | Some s => match trial env a (Z.of_nat j) s with
              | Go s' | Brk _ s' => Some s'
              | Ret _ _ => None
              end
  | None => None
  end.

(** The snapshot of [s] is a copy of the parameters of [s']. *)
Definition holds (s s' : locals) : Prop :=
  (forall ihid, 0 <= ihid < a.(nhid) ->
     hid_bias_best s ihid = hid_bias s' ihid
     /\ forall ivis, 0 <= ivis < a.(n_inputs) ->
          w_best s (widx a ihid ivis) = w s' (widx a ihid ivis))
  /\ (forall ivis, 0 <= ivis < a.(n_inputs) -> in_bias_best s ivis = in_bias s' ivis).

Definition snapshot (s : locals) :=
  (hid_bias_best s, w_best s, in_bias_best s).

(** A trial that is not aborted ends in [s'], by falling through to the next
    trial or by the break of line 268. *)
Definition ends_in (m : flow locals) (s' : locals) : Prop :=
  m = Go s' \/ exists why, m = Brk why s'.

(** What the evaluation of a trial leaves alone. *)
Definition outside_evaluate (s : locals) := (best_err s, snapshot s).

(** What saving the best parameters leaves alone. *)
Definition outside_save (s : locals) := (w s, in_bias s, hid_bias s, error s, ext s).

(** Rows [0 .. h-1] of the weights, and as many hidden biases, are copied. *)
Definition rows_saved (s0 : locals) (h : Z) (s : locals) : Prop :=
  outside_save s = outside_save s0
  /\ best_err s = error s0
  /\ in_bias_best s = in_bias_best s0
  /\ forall h', 0 <= h' < h ->
       hid_bias_best s h' = hid_bias s0 h'
       /\ forall v, 0 <= v < a.(n_inputs) ->
            w_best s (widx a h' v) = w s0 (widx a h' v).

(** Row [h] is being copied, entries [0 .. v-1] are done. *)
Definition row_saving (s0 : locals) (h : Z) (s1 : locals) (v : Z) (s : locals)
  : Prop :=
  outside_save s = outside_save s0
  /\ best_err s = error s0
  /\ in_bias_best s = in_bias_best s0
  /\ hid_bias_best s = hid_bias_best s1
  /\ (forall idx, w_best s1 idx = w s0 idx -> w_best s idx = w s0 idx)
  /\ forall v', 0 <= v' < v -> w_best s (widx a h v') = w s0 (widx a h v').

(** The best error and the snapshot after the trials before [t]. *)
Definition best_of (t : nat) (s : locals) : Prop :=
  (forall i si, (i < t)%nat -> trial_done i = Some si -> (best_err s <= error si)%Q)
  /\ (best_err s <= 1e40)%Q
  /\ ((best_err s < 1e40)%Q ->
      exists i si, (i < t)%nat /\ trial_done i = Some si
                   /\ error si = best_err s /\ holds s si).

(** The best error never goes up. *)
Definition not_worse (s s' : locals) : Prop := (best_err s' <= best_err s)%Q.

End Observations.

End WtInitRun.

(** ** Further observations *)

(** The floor and the ceiling of [nc / n_batches]. *)
Definition batch_floor (nc n_batches : Z) : Z := nc / n_batches.
Definition batch_ceiling (nc n_batches : Z) : Z := (nc + n_batches - 1) / n_batches.

(** The cases done before batch [b] of an epoch or of a trial: the running
    [n_done] of lines 109-115, 212-245 and 469-675. *)
Definition done_before (nc n_batches : Z) (b : nat) : Z :=
  count_up b 0
    (fun ibatch n_done => int_add n_done (batch_size nc n_done n_batches ibatch)) 0.

(** A step that keeps an invariant. *)
Definition preserves {S : Type} (I : S -> Prop) (s s' : S) : Prop := I s -> I s'.

(** A statement that returns, when it does, the failure value -1.0. *)
Definition fails_only {S : Type} (m : flow S) : Prop :=
  forall v s, m = Ret v s -> v = Some (-1)%Q.

(** The [randnum] an engine call is given, when it takes one. *)
Definition seed_of (c : call) : option Z :=
  match c with
  | cuda_sample_hidden2 _ _ r => Some r
  | cuda_hid_to_vis _ _ r => Some r
  | cuda_update_hid_bias _ _ _ _ r _ _ => Some r
  | _ => None
  end.

(** The learning rate and the momentum an engine call is given, when it
    takes them. *)
Definition rate_of (c : call) : option (double * double) :=
  match c with
  | cuda_update_in_bias _ _ r m => Some (r, m)
  | cuda_update_hid_bias _ _ r m _ _ _ => Some (r, m)
  | cuda_update_weights _ _ _ r m _ _ _ => Some (r, m)
  | _ => None
  end.

(** The states of the stream: 1 .. IM - 1. *)
Definition in_stream_range (x : Z) : Prop := 1 <= x <= 2147483646.

(** [f] is one-to-one from 0 .. n-1 onto 0 .. n-1: [g] is its inverse. *)
Definition permutes (n : Z) (f : array Z) : Prop :=
  exists g : Z -> Z,
    (forall i, 0 <= i < n -> 0 <= f i < n /\ g (f i) = i)
    /\ (forall v, 0 <= v < n -> 0 <= g v < n /\ f (g v) = v).

Module RbmMore.
Import Rbm.

(** [randnum], and every [randnum] the engine was given, is a state of the
    stream. *)
Definition seeds_in_range (s : locals) : Prop :=
  in_stream_range (randnum s)
  /\ forall c r, In c (trace (ext s)) -> seed_of c = Some r -> in_stream_range r.

(** [learning_rate] is within [0.001, 1.0] and [momentum] within [0, b], and
    so are the ones the engine was given. *)
Definition rates_bounded (b : double) (s : locals) : Prop :=
  in_rate_range (learning_rate s) /\ (0 <= momentum s <= b)%Q
  /\ forall c r m, In c (trace (ext s)) -> rate_of c = Some (r, m) ->
                   in_rate_range r /\ (0 <= m <= b)%Q.

(** What the shuffle decides for the rest of the epoch. *)
Definition shuffled (s : locals) := (shuffle_index s, n_unif (ext s)).

(** Neither the closing download nor the cleanup has been called. *)
Definition still_open (s : locals) : Prop :=
  forall c, In c (trace (ext s)) ->
            c <> rbm_cuda_cleanup /\ forall n h, c <> cuda_params_from_device n h.

Section Observations.

Variable env : Env.
Variable a : args.

(** The batch loop of epoch [e] cut after [b] batches. *)
Definition first_batches (e : Z) (b : nat) (s : locals) : flow locals :=
  count_up_flow b 0 (batch env a e)
    (set_max_inc 0%Q (set_error 0%Q (set_n_done 0 (set_istart 0 s)))).

End Observations.

End RbmMore.

Module WtInitMore.
Import WtInit WtInitRun.

(** The cleanup has not been called. *)
Definition still_open (s : locals) : Prop := ~ In rbm_cuda_cleanup (trace (ext s)).

Section Observations.

Variable a : args.

(** What copying the snapshot back leaves alone. *)
Definition work (s : locals) :=
  (w_best s, hid_bias_best s, in_bias_best s, best_err s, error s, ext s).

(** Entry [idx] of [w] belongs to the first [v] weights of hidden neuron
    [ihid]; to one of the first [h] hidden neurons. *)
Definition in_row (ihid v idx : Z) : Prop :=
  exists ivis, 0 <= ivis < v /\ idx = widx a ihid ivis.

Definition in_rows (h idx : Z) : Prop :=
  exists ihid, 0 <= ihid < h /\ in_row ihid a.(n_inputs) idx.

(** The loop of lines 279-283 on its way: [w] holds the snapshot of [s0] on
    the entries [D], and [hid_bias] on its first [h] entries. *)
Definition restoring (s0 : locals) (D : Z -> Prop) (h : Z) (s : locals) : Prop :=
  work s = work s0 /\ in_bias s = in_bias s0
  /\ (forall idx, D idx -> w s idx = w_best s0 idx)
  /\ (forall h', 0 <= h' < h -> hid_bias s h' = hid_bias_best s0 h').

(** The parameters of [s] are the snapshot of [s0]. *)
Definition restored (s s0 : locals) : Prop :=
  (forall ihid, 0 <= ihid < a.(nhid) ->
     hid_bias s ihid = hid_bias_best s0 ihid
     /\ forall ivis, 0 <= ivis < a.(n_inputs) ->
          w s (widx a ihid ivis) = w_best s0 (widx a ihid ivis))
  /\ (forall ivis, 0 <= ivis < a.(n_inputs) -> in_bias s ivis = in_bias_best s0 ivis).

(** The parameters of [s] are those of [s']. *)
Definition same_parameters (s s' : locals) : Prop :=
  (forall ihid, 0 <= ihid < a.(nhid) ->
     hid_bias s ihid = hid_bias s' ihid
     /\ forall ivis, 0 <= ivis < a.(n_inputs) ->
          w s (widx a ihid ivis) = w s' (widx a ihid ivis))
  /\ (forall ivis, 0 <= ivis < a.(n_inputs) -> in_bias s ivis = in_bias s' ivis).

End Observations.

Section Generation.

Variable env : Env.
Variable a : args.

(** The trial parameters as lines 179-199 make them of the values of
    [unifrand_fast] from position [p] on and of the data means [dm]. *)
Definition trial_diff (p : nat) : double :=
  (4 * unifrand_fast (host env) p
   / sqrt env (sqrt env (double_of_int a.(n_inputs) * double_of_int a.(nhid))))%Q.

Definition trial_weight (p : nat) (ihid ivis : Z) : double :=
  (trial_diff p
   * (unifrand_fast (host env) (p + 1 + Z.to_nat (ihid * a.(n_inputs) + ivis)) - 0.5))%Q.

Definition trial_hid_bias (p : nat) (dm : array double) (ihid : Z) : double :=
  (- for_ a.(n_inputs) (fun ivis sum => sum + dm ivis * trial_weight p ihid ivis) 0)%Q.

Definition trial_in_bias (p : nat) (dm : array double) (ivis : Z) : double :=
  (log env (dm ivis / (1 - dm ivis))
   - 0.5 * for_ a.(nhid) (fun ihid sum => sum + trial_weight p ihid ivis) 0)%Q.

(** The weight made of the value at position [pos] of the stream. *)
Definition weight_at (diff : double) (pos : nat) : double :=
  (diff * (unifrand_fast (host env) pos - 0.5))%Q.

(** The loop of lines 184-188 after [v] weights of hidden neuron [h]: the
    running sum and the locals, against the locals [s] it started from. *)
Definition row_inv (diff : double) (h : Z) (s : locals) (v : Z) (p : double * locals)
  : Prop :=
  n_unif (ext (snd p)) = (n_unif (ext s) + Z.to_nat v)%nat
  /\ data_mean (snd p) = data_mean s /\ in_bias (snd p) = in_bias s
  /\ hid_bias (snd p) = hid_bias s
  /\ (forall idx,
        w (snd p) idx
        = if (h * a.(n_inputs) <=? idx) && (idx <? h * a.(n_inputs) + v)
          then weight_at diff (n_unif (ext s) + Z.to_nat (idx - h * a.(n_inputs)))
          else w s idx)
  /\ fst p = count_up (Z.to_nat v) 0
               (fun ivis sum =>
                  sum + data_mean s ivis
                        * weight_at diff (n_unif (ext s) + Z.to_nat ivis))%Q 0%Q.

(** The loop of lines 181-191 after [h] hidden neurons, against the locals
    [s1] it started from. *)
Definition rows_inv (diff : double) (s1 : locals) (h : Z) (s : locals) : Prop :=
  n_unif (ext s) = (n_unif (ext s1) + Z.to_nat (h * a.(n_inputs)))%nat
  /\ data_mean s = data_mean s1 /\ in_bias s = in_bias s1
  /\ (forall idx,
        w s idx = if (0 <=? idx) && (idx <? h * a.(n_inputs))
                  then weight_at diff (n_unif (ext s1) + Z.to_nat idx)
                  else w s1 idx)
  /\ (forall h',
        hid_bias s h'
        = if (0 <=? h') && (h' <? h)
          then (- for_ a.(n_inputs)
                    (fun ivis sum =>
                       sum + data_mean s1 ivis
                             * weight_at diff
                                 (n_unif (ext s1) + Z.to_nat (h' * a.(n_inputs) + ivis))) 0)%Q
          else hid_bias s1 h').

(** The loop of lines 194-199 after [v] visible neurons, against the locals
    [s2] it started from. *)
Definition center_inv (s2 : locals) (v : Z) (s : locals) : Prop :=
  w s = w s2 /\ hid_bias s = hid_bias s2 /\ data_mean s = data_mean s2
  /\ ext s = ext s2
  /\ forall ivis,
       in_bias s ivis
       = if (0 <=? ivis) && (ivis <? v)
         then (log env (data_mean s2 ivis / (1 - data_mean s2 ivis))
               - 0.5 * for_ a.(nhid) (fun ihid sum => sum + w s2 (widx a ihid ivis)) 0)%Q
         else in_bias s2 ivis.

(** What the evaluation of a trial leaves of its parameters. *)
Definition drawn (s : locals) := (w s, in_bias s, hid_bias s, n_unif (ext s)).

End Generation.

(** What the loops that draw the trial parameters leave alone. *)
Definition outside_drawing (s : locals) := (error s, err_vec s, trace (ext s)).

Section Evaluation.

Variable env : Env.
Variable a : args.

(** The cases of batch [b] of a trial: line 214 with the running [n_done]. *)
Definition in_batch (b : nat) : Z :=
  batch_size a.(nc) (done_before a.(nc) a.(n_batches) b) a.(n_batches) (Z.of_nat b).

(** [err_vec] after the first [b] batches of trial [irand], from [v]: what
    the successive calls of [cuda_recon_error] leave in it. *)
Fixpoint err_vec_after (irand : Z) (b : nat) (v : array double) : array double :=
  match b with
  | O => v
  | Datatypes.S b' =>
      recon_error_out (engine env) irand (Z.of_nat b') (err_vec_after irand b' v)
  end.

(** The error of lines 241-242 after the first [b] batches of trial [irand]:
    batch after batch, the [n_inputs] entries of [err_vec] added in the order
    of the loop. *)
Fixpoint summed_error (irand : Z) (b : nat) (v : array double) : double :=
  match b with
  | O => 0%Q
  | Datatypes.S b' =>
      for_ a.(n_inputs)
        (fun ivis e => (e + err_vec_after irand (Datatypes.S b') v ivis)%Q)
        (summed_error irand b' v)
  end.

(** The engine calls of batch [b] of a trial, the latest first (lines
    219-239). *)
Definition batch_calls (b : nat) : list call :=
  [cuda_recon_error a.(n_inputs) (in_batch b);
   cuda_hid_to_vis_direct (in_batch b) a.(n_inputs);
   cuda_vis_to_hid (in_batch b) a.(nhid);
   cuda_fetch_vis1 (done_before a.(nc) a.(n_batches) b)
     (done_before a.(nc) a.(n_batches) (Datatypes.S b)) a.(n_inputs) (Some 1)].

(** The engine calls of the first [b] batches, the latest first. *)
Fixpoint evaluation_calls (b : nat) : list call :=
  match b with
  | O => []
  | Datatypes.S b' => batch_calls b' ++ evaluation_calls b'
  end.

(** The engine calls that precede the batches of trial [irand], the latest
    first: the upload of the trial parameters [s] holds and, in trial 0, the
    upload of the shuffle index (lines 168-200). *)
Definition upload_calls (irand : Z) (s : locals) : list call :=
  cuda_params_to_device a.(n_inputs) a.(nhid) (in_bias s) (hid_bias s) (w s)
  :: (if irand =? 0 then [cuda_shuffle_to_device a.(nc)] else []).

End Evaluation.

End WtInitMore.

(** ** Sample runs *)

Module Samples.

(** A square root that is exact on the squares of fractions in lowest terms,
    and a stand-in for the logarithm; no result below depends on either. *)
Definition sample_sqrt (x : double) : double :=
  (inject_Z (Z.sqrt (Qnum x)) / inject_Z (Z.sqrt (Zpos (Qden x))))%Q.
Definition sample_log (x : double) : double := (x - 1)%Q.

Definition zeros : array double := fun _ => 0%Q.

(** An engine that never fails: in epoch [e] every input column has error
    [e + 1] in every batch and the largest increment is [e + 1]; the largest
    weight is 1 and successive gradients are orthogonal. *)
Definition steady_engine : Engine :=
  {| status := fun _ => 0;
     recon_error_out := fun e _ _ => fun _ => inject_Z (e + 1);
     max_inc_out := fun e _ => inject_Z (e + 1);
     max_weight_out := fun _ => 1%Q;
     len_out := fun _ _ => 1%Q;
     dot_out := fun _ _ => 0%Q;
     in_bias_out := zeros; hid_bias_out := zeros; w_out := zeros |}.

(** The same engine with one failing call. *)
Definition site_eqb (p q : site) : bool :=
  match p, q with
  | at_recon_error e b, at_recon_error e' b' => (e =? e') && (b =? b')
  | at_params_from_device, at_params_from_device => true
  | _, _ => false
  end.

Definition failing_at (p : site) : Engine :=
  {| status := fun q => if site_eqb q p then 1 else 0;
     recon_error_out := recon_error_out steady_engine;
     max_inc_out := max_inc_out steady_engine;
     max_weight_out := max_weight_out steady_engine;
     len_out := len_out steady_engine;
     dot_out := dot_out steady_engine;
     in_bias_out := zeros; hid_bias_out := zeros; w_out := zeros |}.

(** An engine whose increments are small from the start. *)
Definition settled_engine : Engine :=
  {| status := fun _ => 0;
     recon_error_out := fun _ _ _ => fun _ => 1%Q;
     max_inc_out := fun _ _ => 0.00001%Q;
     max_weight_out := fun _ => 1%Q;
     len_out := fun _ _ => 1%Q;
     dot_out := fun _ _ => 0%Q;
     in_bias_out := zeros; hid_bias_out := zeros; w_out := zeros |}.

(** Nobody touches the keyboard. *)
Definition quiet_host : Host :=
  {| unifrand_fast := fun _ => 0.5%Q;
     user_pressed_escape := fun _ _ => (false, false) |}.



Definition sample_env (g : Engine) (h : Host) : Env :=
  {| engine := g; host := h; sqrt := sample_sqrt; log := sample_log;
     ERROR_INSUFFICIENT_MEMORY := 1; ERROR_CUDA_MEMORY := 2; ERROR_CUDA_ERROR := 3 |}.

(** Four cases of two inputs, one hidden neuron. *)
Definition sample_args (n_batches max_epochs max_no_imp : Z) (learning_rate : double)
  : Rbm.args :=
  {| Rbm.nc := 4; Rbm.ncols := 2; Rbm.data := fun _ => 1%Q; Rbm.n_inputs := 2;
     Rbm.nhid := 1; Rbm.n_chain_start := 1; Rbm.n_chain_end := 2;
     Rbm.n_chain_rate := 0.5%Q; Rbm.mean_field := 0; Rbm.greedy_mean_field := 1;
     Rbm.n_batches := n_batches; Rbm.max_epochs := max_epochs;
     Rbm.max_no_imp := max_no_imp; Rbm.convergence_crit := 0.0001%Q;
     Rbm.learning_rate0 := learning_rate; Rbm.start_momentum := 0.5%Q;
     Rbm.end_momentum := 0.9%Q; Rbm.weight_pen := 0%Q; Rbm.sparsity_penalty := 0%Q;
     Rbm.sparsity_target := 0.1%Q; Rbm.w0 := zeros; Rbm.in_bias0 := zeros;
     Rbm.hid_bias0 := zeros; Rbm.shuffle_index0 := fun _ => 0; Rbm.data_mean0 := zeros;
     Rbm.err_vec0 := zeros; Rbm.escape_key_pressed0 := false |}.

(** The same data for the search of starting weights. *)
Definition sample_wt_args (n_rand : Z) : WtInit.args :=
  {| WtInit.nc := 4; WtInit.n_inputs := 2; WtInit.ncols := 2;
     WtInit.data := fun _ => 1%Q; WtInit.nhid := 1; WtInit.n_rand := n_rand;
     WtInit.n_batches := 2; WtInit.shuffle_index0 := fun _ => 0; WtInit.w0 := zeros;
     WtInit.in_bias0 := zeros; WtInit.hid_bias0 := zeros; WtInit.in_bias_best0 := zeros;
     WtInit.hid_bias_best0 := zeros; WtInit.w_best0 := zeros; WtInit.data_mean0 := zeros;
     WtInit.err_vec0 := zeros; WtInit.escape_key_pressed0 := false |}.

(** An engine whose reconstruction error gets smaller trial after trial. *)
Definition improving_engine : Engine :=
  {| status := fun _ => 0;
     recon_error_out := fun e _ _ => fun _ => (1 / inject_Z (e + 1))%Q;
     max_inc_out := fun _ _ => 1%Q;
     max_weight_out := fun _ => 1%Q;
     len_out := fun _ _ => 1%Q;
     dot_out := fun _ _ => 0%Q;
     in_bias_out := zeros; hid_bias_out := zeros; w_out := zeros |}.

(** ESCape is pressed while the first trial is evaluated. *)
Definition trial_escape_host : Host :=
  {| unifrand_fast := fun _ => 0.5%Q;
     user_pressed_escape := fun p f =>
       match p with
       | poll_trial irand => if irand =? 0 then (true, true) else (false, f)
       | _ => (false, f)
       end |}.

(** The runs used below. *)
Definition steady_run : Env := sample_env steady_engine quiet_host.
Definition settled_run : Env := sample_env settled_engine quiet_host.
Definition improving_run : Env := sample_env improving_engine quiet_host.
Definition recon_failing_run : Env :=
  sample_env (failing_at (at_recon_error 0 0)) quiet_host.
Definition escape_trial_run : Env := sample_env improving_engine trial_escape_host.

Definition one_batch : Rbm.args := sample_args 1 5 10 0.1%Q.
Definition one_batch_rate_5 : Rbm.args := sample_args 1 5 10 5%Q.
Definition two_batches : Rbm.args := sample_args 2 5 10 0.1%Q.
Definition two_batches_rate_5 : Rbm.args := sample_args 2 5 10 5%Q.
Definition stalling : Rbm.args := sample_args 2 10 2 0.1%Q.
Definition two_epochs : Rbm.args := sample_args 1 2 10 0.1%Q.
Definition patient : Rbm.args := sample_args 1 1000 100 0.1%Q.
Definition no_epochs : Rbm.args := sample_args 1 0 10 0.1%Q.
Definition two_trials : WtInit.args := sample_wt_args 2.
Definition three_trials : WtInit.args := sample_wt_args 3.
Definition no_trials : WtInit.args := sample_wt_args 0.

End Samples.

(** * Proofs *)

Import Samples.

Lemma Qltb_lt x y : Qltb x y = true <-> (x < y)%Q.
Proof. unfold Qltb, Qlt. apply Z.ltb_lt. Qed.

Lemma Qltb_ge x y : Qltb x y = false <-> (y <= x)%Q.
Proof. unfold Qltb, Qle. rewrite Z.ltb_ge. reflexivity. Qed.

Lemma count_up_pointwise {A : Type} (h : Z -> Z -> A -> A) (body : Z -> array A -> array A) :
  (forall i a j, body i a j = h i j (a j)) ->
  forall n i0 a j, count_up n i0 body a j = count_up n i0 (fun i v => h i j v) (a j).
Proof.
  intros Hb n. induction n as [|n IH]; intros i0 a j; simpl.
  - reflexivity.
  - rewrite IH, Hb. reflexivity.
Qed.

Lemma count_up_at {A : Type} (g : Z -> A -> A) (j : Z) :
  forall n i0 v,
    count_up n i0 (fun i v => if j =? i then g i v else v) v =
    if (i0 <=? j) && (j <? i0 + Z.of_nat n) then g j v else v.
Proof.
  induction n as [|n IH]; intros i0 v.
  - cbn [count_up]. destruct (Z.leb_spec i0 j), (Z.ltb_spec j (i0 + Z.of_nat 0)); simpl; try reflexivity; lia.
  - cbn [count_up]. rewrite IH.
    destruct (Z.eqb_spec j i0) as [->|Hne].
    + replace (i0 + 1 <=? i0) with false by (symmetry; apply Z.leb_gt; lia).
      replace (i0 <=? i0) with true by (symmetry; apply Z.leb_le; lia).
      replace (i0 <? i0 + Z.of_nat (S n)) with true by (symmetry; apply Z.ltb_lt; lia).
      reflexivity.
    + destruct (Z.leb_spec (i0 + 1) j), (Z.leb_spec i0 j),
        (Z.ltb_spec j (i0 + 1 + Z.of_nat n)), (Z.ltb_spec j (i0 + Z.of_nat (S n)));
        simpl; try reflexivity; lia.
Qed.

Lemma for_at {A : Type} (body : Z -> array A -> array A) (g : Z -> A -> A) :
  (forall i a j, body i a j = if j =? i then g i (a j) else a j) ->
  forall n a j, for_ n body a j = if (0 <=? j) && (j <? n) then g j (a j) else a j.
Proof.
  intros Hb n a j. unfold for_.
  rewrite (count_up_pointwise (fun i j v => if j =? i then g i v else v) body Hb).
  rewrite count_up_at. simpl.
  destruct (Z.leb_spec 0 j); simpl; [|reflexivity].
  destruct (Z.ltb_spec j (Z.of_nat (Z.to_nat n))), (Z.ltb_spec j n); try reflexivity; lia.
Qed.

Lemma store_at {A : Type} (a : array A) i v j : store a i v j = if j =? i then v else a j.
Proof. reflexivity. Qed.

Lemma clamp_mean_at ivis dm j :
  clamp_mean ivis dm j = if j =? ivis then clamped (dm ivis) else dm j.
Proof.
  unfold clamp_mean, clamped.
  destruct (Qltb (dm ivis) 1e-8) eqn:E1.
  - rewrite store_at, Z.eqb_refl.
    replace (Qltb (1 - 1e-8) 1e-8) with false by reflexivity.
    rewrite store_at. reflexivity.
  - destruct (Qltb (1 - 1e-8) (dm ivis)) eqn:E2.
    + rewrite store_at. reflexivity.
    + destruct (Z.eqb_spec j ivis) as [->|]; reflexivity.
Qed.

Lemma clamped_range x : (1e-8 <= clamped x <= 1 - 1e-8)%Q.
Proof.
  unfold clamped.
  destruct (Qltb x 1e-8) eqn:E1.
  - split; [apply Qle_refl | apply Qltb_ge; reflexivity].
  - destruct (Qltb (1 - 1e-8) x) eqn:E2.
    + split; [apply Qltb_ge; reflexivity | apply Qle_refl].
    + split; [apply Qltb_ge; exact E1 | apply Qltb_ge; exact E2].
Qed.

Lemma mean_loops (off : Z -> Z -> Z) nc n_inputs data data_mean j :
  0 <= j < n_inputs ->
  for_ n_inputs (fun ivis dm => clamp_mean ivis (store dm ivis (dm ivis / double_of_int nc)%Q))
    (for_ nc (fun i dm =>
        for_ n_inputs (fun ivis dm => store dm ivis (dm ivis + data (off i ivis))%Q) dm)
       (for_ n_inputs (fun ivis dm => store dm ivis 0%Q) data_mean)) j
  = clamped (sum_rows nc (fun i => data (off i j)) / double_of_int nc)%Q.
Proof.
  intros Hj.
  assert (Hin : (0 <=? j) && (j <? n_inputs) = true).
  { apply andb_true_iff. split; [apply Z.leb_le | apply Z.ltb_lt]; lia. }
  rewrite (for_at _ (fun _ v => clamped (v / double_of_int nc)%Q)).
  2:{ intros i a j'. rewrite clamp_mean_at. rewrite !store_at, Z.eqb_refl.
      destruct (Z.eqb_spec j' i) as [->|]; reflexivity. }
  rewrite Hin. f_equal. f_equal.
  unfold for_ at 1.
  rewrite (count_up_pointwise
             (fun i j' v => if (0 <=? j') && (j' <? n_inputs) then (v + data (off i j'))%Q else v)).
  2:{ intros i a j'.
      rewrite (for_at _ (fun iv v => (v + data (off i iv))%Q)); [reflexivity|].
      intros i' a' j''. rewrite store_at.
      destruct (Z.eqb_spec j'' i') as [->|]; reflexivity. }
  rewrite (for_at _ (fun _ _ => 0%Q)).
  2:{ intros i a j'. rewrite store_at. reflexivity. }
  rewrite Hin. reflexivity.
Qed.

(** ** Control flow *)

Section Flow.
Context {S : Type}.
Variable R : S -> S -> Prop.
Hypothesis R_refl : forall s, R s s.
Hypothesis R_trans : forall s1 s2 s3, R s1 s2 -> R s2 s3 -> R s1 s3.

Lemma rel_bind (m : flow S) (f : S -> flow S) s :
  R s (state_of m) -> (forall s1, R s1 (state_of (f s1))) -> R s (state_of (bind m f)).
Proof.
  intros Hm Hf. destruct m as [s1|r s1|v s1]; cbn [bind state_of] in *; auto.
  apply R_trans with s1; auto.
Qed.

Lemma rel_count_up_flow (body : Z -> S -> flow S) :
  (forall i s, R s (state_of (body i s))) ->
  forall n i s, R s (state_of (count_up_flow n i body s)).
Proof.
  intros Hb n. induction n as [|n IH]; intros i s; cbn [count_up_flow state_of].
  - apply R_refl.
  - specialize (Hb i s). destruct (body i s) as [s1|r s1|v s1]; cbn [state_of] in *; auto.
    apply R_trans with s1; auto.
Qed.

Lemma rel_end_loop (m : flow S) s : R s (state_of m) -> R s (state_of (end_loop m)).
Proof. destruct m; auto. Qed.
End Flow.

Lemma bind_Go {S : Type} (m : flow S) f s' :
  bind m f = Go s' -> exists s1, m = Go s1 /\ f s1 = Go s'.
Proof. destruct m; cbn [bind]; intros H; try discriminate. eauto. Qed.

Lemma bind_Brk {S : Type} (m : flow S) f r s' :
  bind m f = Brk r s' -> m = Brk r s' \/ exists s1, m = Go s1 /\ f s1 = Brk r s'.
Proof. destruct m; cbn [bind]; intros H; try discriminate; eauto. Qed.

Lemma count_up_flow_Go {S : Type} (body : Z -> S -> flow S) :
  (forall i s, exists s', body i s = Go s') ->
  forall n i s, exists s', count_up_flow n i body s = Go s'.
Proof.
  intros Hb n. induction n as [|n IH]; intros i s; cbn [count_up_flow]; eauto.
  destruct (Hb i s) as [s1 ->]. apply IH.
Qed.

Lemma end_loop_Go {S : Type} (m : flow S) s1 :
  end_loop m = Go s1 -> s1 = state_of m /\ (m = Go s1 \/ exists why, m = Brk why s1).
Proof.
  destruct m; cbn [end_loop state_of]; intros H; inversion H; subst; eauto.
Qed.

Lemma keeps_refl {S T : Type} (f : S -> T) s : keeps f s s.
Proof. reflexivity. Qed.

Lemma keeps_trans {S T : Type} (f : S -> T) s1 s2 s3 :
  keeps f s1 s2 -> keeps f s2 s3 -> keeps f s1 s3.
Proof. unfold keeps. congruence. Qed.

Module RbmFacts.
Import Rbm RbmRun.

Ltac proj :=
  cbn [i_epoch randnum k learning_rate momentum chain_length n_no_improvement best_crit
       most_recent_correct_error len_prev error max_inc n_done istart err_vec shuffle_index
       data_mean w in_bias hid_bias ext
       set_i_epoch set_randnum set_k set_learning_rate set_momentum set_chain_length
       set_n_no_improvement set_best_crit set_most_recent_correct_error set_len_prev
       set_error set_max_inc set_n_done set_istart set_err_vec set_shuffle_index set_w
       set_in_bias set_hid_bias set_ext
       trace n_unif escape_key_pressed record set_escape_key_pressed
       bind state_of fst snd] in *.

Section Facts.
Variable env : Env.
Variable a : args.

Lemma step_stream_eq s :
  step_stream s =
  set_randnum (snd (advance (randnum s))) (set_k (Some (fst (advance (randnum s)))) s).
Proof. unfold step_stream. destruct (advance (randnum s)). reflexivity. Qed.

Lemma engine_call_state c p s :
  state_of (engine_call env c p s) = set_ext (record c (ext s)) s.
Proof. unfold engine_call. destruct (_ =? 0); reflexivity. Qed.

Lemma engine_call_Go c p s s' :
  engine_call env c p s = Go s' -> s' = set_ext (record c (ext s)) s.
Proof. unfold engine_call. destruct (_ =? 0); intros H; inversion H. reflexivity. Qed.

Lemma engine_call_Brk c p s r s' : engine_call env c p s <> Brk r s'.
Proof. unfold engine_call. destruct (_ =? 0); discriminate. Qed.

Lemma engine_call_keeps {T} (f : locals -> T) c p s :
  (forall s, f (set_ext (record c (ext s)) s) = f s) ->
  keeps f s (state_of (engine_call env c p s)).
Proof. intros H. unfold keeps. rewrite engine_call_state. apply H. Qed.

Lemma chain_step_keeps e b nb c s :
  keeps outside_chain_steps s (state_of (chain_step env a e b nb c s)).
Proof.
  unfold chain_step, engine_call, keeps.
  repeat (match goal with |- context[if ?c then _ else _] => destruct c end;
          cbn [bind state_of]);
  rewrite ?step_stream_eq; reflexivity.
Qed.

Lemma chain_keeps_all e b nb n s :
  keeps outside_chain_steps s (state_of (for_flow n (chain_step env a e b nb) s)).
Proof.
  unfold for_flow.
  apply (rel_count_up_flow (keeps outside_chain_steps)); intros.
  - apply keeps_refl.
  - eapply keeps_trans; eassumption.
  - apply chain_step_keeps.
Qed.

Lemma chain_keeps e b nb n s :
  keeps outside_chain s (state_of (for_flow n (chain_step env a e b nb) s)).
Proof.
  pose proof (chain_keeps_all e b nb n s) as H. unfold keeps in *.
  exact (f_equal (fun t => fst (fst t)) H).
Qed.

Ltac keeps_leaf :=
  unfold keeps; rewrite ?engine_call_state;
  repeat match goal with |- context[if ?c then _ else _] => destruct c end;
  rewrite ?step_stream_eq; reflexivity.

Ltac keeps_flow :=
  lazymatch goal with
  | |- keeps ?f _ (state_of (bind _ _)) =>
      apply (rel_bind (keeps f) (keeps_trans f)); [ keeps_flow | intros ?; keeps_flow ]
  | |- keeps ?f _ (state_of (for_flow _ (chain_step _ _ _ _ _) _)) =>
      eapply (keeps_trans f); [ | apply chain_keeps ]; keeps_leaf
  | |- _ => keeps_leaf
  end.

Lemma batch_work_keeps e b nb istop s :
  keeps outside_chain s (state_of (batch_work env a e b nb istop s)).
Proof.
  unfold batch_work. cbv zeta.
  keeps_flow.
Qed.

Lemma outside_chain_inv s s' :
  keeps outside_chain s s' ->
  i_epoch s' = i_epoch s /\ learning_rate s' = learning_rate s /\ momentum s' = momentum s
  /\ chain_length s' = chain_length s /\ n_no_improvement s' = n_no_improvement s
  /\ best_crit s' = best_crit s
  /\ most_recent_correct_error s' = most_recent_correct_error s
  /\ len_prev s' = len_prev s /\ n_done s' = n_done s /\ istart s' = istart s
  /\ shuffle_index s' = shuffle_index s /\ n_unif (ext s') = n_unif (ext s)
  /\ escape_key_pressed (ext s') = escape_key_pressed (ext s).
Proof.
  unfold keeps, outside_chain. intros H. injection H as -> -> -> -> -> -> -> -> -> -> -> -> ->.
  repeat split.
Qed.

Lemma adapt_Go e b s s' :
  adapt env a e b s = Go s' ->
  learning_rate s' =
    (if (e =? 0) && (b =? 0) then learning_rate s
     else adapt_rate (cosine env e b s) (learning_rate s))
  /\ i_epoch s' = i_epoch s /\ chain_length s' = chain_length s
  /\ n_no_improvement s' = n_no_improvement s /\ best_crit s' = best_crit s
  /\ most_recent_correct_error s' = most_recent_correct_error s
  /\ k s' = k s /\ randnum s' = randnum s /\ error s' = error s /\ max_inc s' = max_inc s
  /\ escape_key_pressed (ext s') = escape_key_pressed (ext s).
Proof.
  unfold adapt, cosine. destruct ((e =? 0) && (b =? 0)); intros H;
    apply bind_Go in H; destruct H as (s1 & H1 & H2); apply engine_call_Go in H1; subst s1.
  - inversion H2; subst s'. proj. repeat split.
  - revert H2. match goal with |- context[if ?c then _ else _] => destruct c end;
      intros H2; inversion H2; subst s'; proj; repeat split.
Qed.

Lemma escape_seen_frame e p s :
  snd (escape_seen env e p s)
  = set_ext (set_escape_key_pressed (escape_key_pressed (ext (snd (escape_seen env e p s))))
               (ext s)) s.
Proof.
  unfold escape_seen, escape_requested.
  destruct (e =? 0); [destruct s as [? ? ? ? ? ? ? ? ? ? ? ? ? ? ? ? ? ? ? ? []]; reflexivity|].
  destruct (escape_key_pressed (ext s)) eqn:E.
  - destruct s as [? ? ? ? ? ? ? ? ? ? ? ? ? ? ? ? ? ? ? ? []]; proj. subst. reflexivity.
  - destruct (user_pressed_escape _ _ _). reflexivity.
Qed.

Lemma adapt_rate_range dot x : in_rate_range (adapt_rate dot x).
Proof.
  unfold adapt_rate, in_rate_range.
  set (y := if Qltb 0.5 dot then _ else _).
  destruct (Qltb 1 y) eqn:E1.
  - replace (Qltb 1 0.001) with false by reflexivity. split; [apply Qltb_ge|apply Qle_refl]; reflexivity.
  - destruct (Qltb y 0.001) eqn:E2.
    + split; [apply Qle_refl | apply Qltb_ge; reflexivity].
    + split; apply Qltb_ge; assumption.
Qed.

Lemma batch_Go_rate e b s s' :
  batch env a e b s = Go s' ->
  learning_rate s' =
    if (e =? 0) && (b =? 0) then learning_rate s
    else adapt_rate
           (cosine env e b (state_of (batch_work env a e b
               (batch_size a.(nc) (n_done s) a.(n_batches) b)
               (int_add (istart s) (batch_size a.(nc) (n_done s) a.(n_batches) b)) s)))
           (learning_rate s).
Proof.
  unfold batch. cbv zeta. intros H.
  apply bind_Go in H. destruct H as (s1 & H1 & H).
  match type of H1 with batch_work _ _ _ _ ?nb ?st _ = _ =>
    pose proof (batch_work_keeps e b nb st s) as K end.
  rewrite H1 in *. cbn [state_of] in *.
  apply outside_chain_inv in K. destruct K as (_ & Klr & _ & _ & _ & _ & _ & Klen & _).
  pose proof (escape_seen_frame e (poll_batch e b) s1) as F.
  destruct (escape_seen env e (poll_batch e b) s1) as [esc s2]. cbn [snd] in F.
  destruct esc; [discriminate|].
  apply bind_Go in H. destruct H as (s3 & H3 & H).
  apply adapt_Go in H3. destruct H3 as (Hlr & _).
  inversion H; subst s'. proj. rewrite Hlr.
  unfold cosine. rewrite F. proj. rewrite Klr. reflexivity.
Qed.

Lemma outside_batches_inv s s' :
  keeps outside_batches s s' ->
  i_epoch s' = i_epoch s /\ chain_length s' = chain_length s
  /\ n_no_improvement s' = n_no_improvement s /\ best_crit s' = best_crit s
  /\ most_recent_correct_error s' = most_recent_correct_error s
  /\ shuffle_index s' = shuffle_index s /\ n_unif (ext s') = n_unif (ext s).
Proof.
  unfold keeps, outside_batches. intros H. injection H as -> -> -> -> -> -> ->.
  repeat split.
Qed.

Lemma outside_chain_batches s s' :
  keeps outside_chain s s' -> keeps outside_batches s s'.
Proof.
  intros H. apply outside_chain_inv in H.
  destruct H as (H1 & _ & _ & H2 & H3 & H4 & H5 & _ & _ & _ & H6 & H7 & _).
  unfold keeps, outside_batches. congruence.
Qed.

Lemma adapt_keeps e b s : keeps outside_batches s (state_of (adapt env a e b s)).
Proof. unfold adapt. cbv zeta. destruct ((e =? 0) && (b =? 0)); keeps_flow. Qed.

Lemma batch_keeps e b s : keeps outside_batches s (state_of (batch env a e b s)).
Proof.
  unfold batch. cbv zeta.
  apply (rel_bind (keeps outside_batches) (keeps_trans outside_batches)).
  - apply outside_chain_batches, batch_work_keeps.
  - intros s1. pose proof (escape_seen_frame e (poll_batch e b) s1) as F.
    destruct (escape_seen env e (poll_batch e b) s1) as [esc s2]. cbn [snd] in F.
    destruct esc.
    + rewrite F. reflexivity.
    + apply (rel_bind (keeps outside_batches) (keeps_trans outside_batches)).
      * eapply (keeps_trans outside_batches); [|apply adapt_keeps]. rewrite F. reflexivity.
      * intros s3. reflexivity.
Qed.

Lemma batches_keeps e s : keeps outside_batches s (state_of (batches env a e s)).
Proof.
  unfold batches, for_flow. cbv zeta.
  eapply (keeps_trans outside_batches);
    [|apply (rel_count_up_flow (keeps outside_batches)); intros].
  - reflexivity.
  - apply keeps_refl.
  - eapply keeps_trans; eassumption.
  - apply batch_keeps.
Qed.

Lemma shuffle_loop_keeps n i s : keeps outside_shuffle s (shuffle_loop env n i s).
Proof.
  revert i s. induction n as [|n IH]; intros i s; cbn [shuffle_loop].
  - reflexivity.
  - unfold draw. cbv zeta. cbn iota.
    eapply (keeps_trans outside_shuffle); [|apply IH]. reflexivity.
Qed.

Lemma shuffle_keeps s : keeps outside_shuffle s (shuffle env a s).
Proof. apply shuffle_loop_keeps. Qed.

Lemma epoch_batches_keeps e s :
  keeps outside_epoch_batches s (state_of (epoch_batches env a e s))
  /\ i_epoch (state_of (epoch_batches env a e s)) = e.
Proof.
  unfold epoch_batches. cbv zeta.
  pose proof (shuffle_keeps (set_i_epoch e s)) as K1.
  set (s1 := shuffle env a (set_i_epoch e s)) in *.
  assert (K1' : keeps outside_epoch_batches s s1 /\ i_epoch s1 = e).
  { unfold keeps, outside_shuffle in K1.
    injection K1 as E1 _ _ _ E2 E3 E4 E5 _. unfold keeps, outside_epoch_batches.
    proj. split; congruence. }
  clearbody s1. clear K1. destruct K1' as [K1 E1].
  unfold engine_call. destruct (_ =? 0); cbn [bind state_of].
  - pose proof (batches_keeps e (set_ext (record (cuda_shuffle_to_device (nc a)) (ext s1)) s1))
      as K2.
    apply outside_batches_inv in K2. proj.
    destruct K2 as (K20 & K21 & K22 & K23 & K24 & _).
    unfold keeps, outside_epoch_batches in *. split; congruence.
  - split; assumption.
Qed.

Lemma ceiling_frame n c s :
  ceiling n c s = set_learning_rate (learning_rate (ceiling n c s)) s.
Proof.
  unfold ceiling. destruct (_ && _); [reflexivity|]. destruct s; reflexivity.
Qed.

Lemma stall_test_Go e r s s' :
  stall_test a e r s = Go s' ->
  momentum s' = annealed_momentum a s /\ chain_length s' = annealed_chain_length a s
  /\ most_recent_correct_error s' = most_recent_correct_error s
  /\ i_epoch s' = i_epoch s /\ ext s' = ext s.
Proof.
  unfold stall_test. intros H. apply bind_Go in H. destruct H as (s1 & H1 & H).
  inversion H as [E]; clear H.
  rewrite (ceiling_frame 250), (ceiling_frame 200), (ceiling_frame 150),
    (ceiling_frame 100), (ceiling_frame 50).
  proj. unfold annealed_momentum, annealed_chain_length.
  destruct (_ || _).
  - inversion H1; subst s1. proj. repeat split.
  - revert H1. cbv zeta. destruct (_ >? _); intros H1; inversion H1; subst s1. proj.
    repeat split.
Qed.

Lemma stall_test_Brk e r s why s' :
  stall_test a e r s = Brk why s' ->
  why = stalled /\ momentum s' = momentum s /\ chain_length s' = chain_length s
  /\ most_recent_correct_error s' = most_recent_correct_error s
  /\ i_epoch s' = i_epoch s.
Proof.
  unfold stall_test. intros H. apply bind_Brk in H.
  destruct H as [H | (s1 & _ & H)]; [|discriminate].
  destruct (_ || _); [discriminate|].
  revert H. cbv zeta. destruct (_ >? _); intros H; inversion H; subst. proj. repeat split.
Qed.

Lemma epoch_end_Go e s s' :
  epoch_end env a e s = Go s' ->
  momentum s' = annealed_momentum a s /\ chain_length s' = annealed_chain_length a s
  /\ most_recent_correct_error s' = Some (normalized a s)
  /\ i_epoch s' = i_epoch s
  /\ fst (escape_seen env e (poll_epoch e) s) = false.
Proof.
  unfold epoch_end. pose proof (escape_seen_frame e (poll_epoch e) s) as F.
  destruct (escape_seen env e (poll_epoch e) s) as [esc s1]. cbn [fst snd] in *.
  destruct esc; [discriminate|]. cbv zeta. intros H.
  apply bind_Go in H. destruct H as (s2 & H2 & H). apply engine_call_Go in H2.
  destruct (Qltb _ _); [discriminate|].
  apply stall_test_Go in H. destruct H as (Hm & Hc & Hr & Hi & _).
  unfold annealed_momentum, annealed_chain_length, normalized in *.
  rewrite Hm, Hc, Hr, Hi. subst s2. rewrite F. proj. repeat split.
Qed.

Lemma epoch_end_Brk e s why s' :
  epoch_end env a e s = Brk why s' ->
  momentum s' = momentum s /\ chain_length s' = chain_length s
  /\ i_epoch s' = i_epoch s
  /\ (why = escape_pressed /\ most_recent_correct_error s' = most_recent_correct_error s
      \/ (why = converged \/ why = stalled)
         /\ most_recent_correct_error s' = Some (normalized a s)).
Proof.
  unfold epoch_end. pose proof (escape_seen_frame e (poll_epoch e) s) as F.
  destruct (escape_seen env e (poll_epoch e) s) as [esc s1]. cbn [fst snd] in *.
  destruct esc.
  - intros H. inversion H; subst. rewrite F. proj. repeat split. left. split; reflexivity.
  - cbv zeta. intros H. apply bind_Brk in H.
    destruct H as [H | (s2 & H2 & H)]; [apply engine_call_Brk in H; contradiction|].
    apply engine_call_Go in H2. unfold normalized.
    destruct (Qltb _ _).
    + inversion H; subst. rewrite F. proj. repeat split. right. split; [left|]; reflexivity.
    + apply stall_test_Brk in H. destruct H as (-> & Hm & Hc & Hr & Hi).
      rewrite Hm, Hc, Hr, Hi. subst s2. rewrite F. proj. repeat split.
      right. split; [right|]; reflexivity.
Qed.

Lemma epoch_Go e s s' :
  epoch env a e s = Go s' ->
  momentum s' = annealed_momentum a (state_of (epoch_batches env a e s))
  /\ chain_length s' = annealed_chain_length a s
  /\ most_recent_correct_error s' = Some (normalized a (state_of (epoch_batches env a e s)))
  /\ i_epoch s' = e
  /\ fst (escape_seen env e (poll_epoch e) (state_of (epoch_batches env a e s))) = false.
Proof.
  unfold epoch. intros H. apply bind_Go in H. destruct H as (s1 & H1 & H).
  apply end_loop_Go in H1. destruct H1 as [-> _].
  apply epoch_end_Go in H. destruct H as (Hm & Hc & Hr & Hi & He).
  destruct (epoch_batches_keeps e s) as [K Ki].
  unfold keeps, outside_epoch_batches in K. injection K as K1 _ _ _.
  unfold annealed_chain_length in *. rewrite Hm, Hc, Hr, Hi, K1, Ki. repeat split.
  exact He.
Qed.

Lemma epoch_Brk e s why s' :
  epoch env a e s = Brk why s' ->
  momentum s' = momentum (state_of (epoch_batches env a e s))
  /\ chain_length s' = chain_length s
  /\ i_epoch s' = e
  /\ (why = escape_pressed /\ most_recent_correct_error s' = most_recent_correct_error s
      \/ (why = converged \/ why = stalled)
         /\ most_recent_correct_error s'
            = Some (normalized a (state_of (epoch_batches env a e s)))).
Proof.
  unfold epoch. intros H. apply bind_Brk in H.
  destruct H as [H | (s1 & H1 & H)].
  { destruct (epoch_batches env a e s); discriminate. }
  apply end_loop_Go in H1. destruct H1 as [-> _].
  apply epoch_end_Brk in H. destruct H as (Hm & Hc & Hi & Hr).
  destruct (epoch_batches_keeps e s) as [K Ki].
  unfold keeps, outside_epoch_batches in K. injection K as K1 _ _ K4.
  rewrite Hm, Hc, Hi, K1, Ki. repeat split.
  destruct Hr as [[-> Hr] | [Hw Hr]]; [left | right]; split; congruence.
Qed.

End Facts.

(** Claim C4, amended: an epoch after which the loop goes on ends with
    [momentum = 0.99 * momentum + 0.01 * end_momentum] and
    [chain_length = (1 - n_chain_rate) * chain_length + n_chain_rate * n_chain_end];
    an epoch that leaves the loop, by convergence, stall or ESCape, leaves
    both as its batches left them. *)
Theorem anneal_in_epochs_that_go_on env a e s :
  match epoch env a e s with
  | Go s' =>
      momentum s' = (0.99 * momentum (state_of (epoch_batches env a e s))
                     + 0.01 * a.(end_momentum))%Q
      /\ chain_length s' = ((1.0 - a.(n_chain_rate)) * chain_length s
                            + a.(n_chain_rate) * double_of_int a.(n_chain_end))%Q
  | Brk _ s' =>
      momentum s' = momentum (state_of (epoch_batches env a e s))
      /\ chain_length s' = chain_length s
  | Ret _ _ => True
  end.
Proof.
  destruct (epoch env a e s) as [s'|why s'|v s'] eqn:E; [| |exact I].
  - apply epoch_Go in E. destruct E as (Hm & Hc & _). split; assumption.
  - apply epoch_Brk in E. destruct E as (Hm & Hc & _). split; assumption.
Qed.

Lemma locals_at_S env a e s' :
  locals_at env a (S e) = Some s' ->
  exists s, locals_at env a e = Some s /\ epoch env a (Z.of_nat e) s = Go s'.
Proof.
  cbn [locals_at]. destruct (locals_at env a e) as [s|]; [|discriminate].
  destruct (epoch env a (Z.of_nat e) s) eqn:E; intros H; inversion H; subst. eauto.
Qed.





End RbmFacts.

Lemma no_Brk_bind {S : Type} (m : flow S) f :
  no_Brk m -> (forall s, no_Brk (f s)) -> no_Brk (bind m f).
Proof.
  intros Hm Hf why s H. apply bind_Brk in H. destruct H as [H | (s1 & _ & H)].
  - exact (Hm _ _ H).
  - exact (Hf _ _ _ H).
Qed.

Lemma no_Brk_count_up_flow {S : Type} (body : Z -> S -> flow S) :
  (forall i s, no_Brk (body i s)) -> forall n i s, no_Brk (count_up_flow n i body s).
Proof.
  intros Hb n. induction n as [|n IH]; intros i s why s' H; cbn [count_up_flow] in H.
  - discriminate.
  - destruct (body i s) eqn:E.
    + exact (IH _ _ _ _ H).
    + exact (Hb _ _ _ _ E).
    + discriminate.
Qed.

Lemma count_up_flow_Brk {S : Type} (body : Z -> S -> flow S) n i s why s' :
  count_up_flow n i body s = Brk why s' -> exists i1 s1, body i1 s1 = Brk why s'.
Proof.
  revert i s. induction n as [|n IH]; intros i s H; cbn [count_up_flow] in H.
  - discriminate.
  - destruct (body i s) eqn:E.
    + eapply IH; eassumption.
    + inversion H; subst. eauto.
    + discriminate.
Qed.

Module RbmEscape.
Import Rbm RbmRun RbmFacts.

Section Facts.
Variable env : Env.
Variable a : args.

Lemma no_Brk_engine_call c p s : no_Brk (engine_call env c p s).
Proof. intros why s'. apply engine_call_Brk. Qed.

Lemma no_Brk_Go (s : locals) : no_Brk (Go s).
Proof. intros why s'. discriminate. Qed.

Lemma no_Brk_chain_step e b nb c s : no_Brk (chain_step env a e b nb c s).
Proof.
  unfold chain_step. cbv zeta.
  repeat first [ apply no_Brk_bind; [|intros ?] | apply no_Brk_engine_call
               | apply no_Brk_Go | destruct (c =? 0) ].
Qed.

Lemma no_Brk_batch_work e b nb istop s : no_Brk (batch_work env a e b nb istop s).
Proof.
  unfold batch_work. cbv zeta.
  repeat first [ apply no_Brk_bind; [|intros ?] | apply no_Brk_engine_call
               | apply no_Brk_Go
               | apply no_Brk_count_up_flow; intros; apply no_Brk_chain_step ].
Qed.

Lemma no_Brk_adapt e b s : no_Brk (adapt env a e b s).
Proof.
  unfold adapt. cbv zeta. destruct (_ && _);
  repeat first [ apply no_Brk_bind; [|intros ?] | apply no_Brk_engine_call
               | apply no_Brk_Go ].
Qed.

Lemma escape_seen_true e p s s' :
  escape_seen env e p s = (true, s') ->
  e <> 0 /\ (latching (host env) -> escape_key_pressed (ext s') = true).
Proof.
  unfold escape_seen, escape_requested.
  destruct (Z.eqb_spec e 0); [discriminate|].
  destruct (escape_key_pressed (ext s)) eqn:E.
  - intros H. inversion H; subst. proj. auto.
  - pose proof (fun L : latching (host env) => L p false) as L.
    destruct (user_pressed_escape (host env) p false) as [r f]. cbn [fst snd] in L.
    intros H. inversion H; subst. proj. auto.
Qed.


Lemma escape_seen_0 p s : escape_seen env 0 p s = (false, s).
Proof. reflexivity. Qed.

Lemma batch_Brk e b s why s' :
  batch env a e b s = Brk why s' ->
  why = escape_in_batch /\ e <> 0
  /\ (latching (host env) -> escape_key_pressed (ext s') = true).
Proof.
  unfold batch. cbv zeta. intros H. apply bind_Brk in H.
  destruct H as [H | (s1 & _ & H)]; [exfalso; exact (no_Brk_batch_work _ _ _ _ _ _ _ H)|].
  destruct (escape_seen env e (poll_batch e b) s1) as [esc s2] eqn:E.
  destruct esc.
  - inversion H; subst. apply escape_seen_true in E. tauto.
  - apply bind_Brk in H. destruct H as [H | (s3 & _ & H)]; [|discriminate].
    exfalso. exact (no_Brk_adapt _ _ _ _ _ H).
Qed.

Lemma epoch_batches_Brk e s why s' :
  epoch_batches env a e s = Brk why s' ->
  why = escape_in_batch /\ e <> 0
  /\ (latching (host env) -> escape_key_pressed (ext s') = true).
Proof.
  unfold epoch_batches. cbv zeta. intros H. apply bind_Brk in H.
  destruct H as [H | (s1 & _ & H)]; [exfalso; exact (no_Brk_engine_call _ _ _ _ _ H)|].
  unfold batches, for_flow in H. apply count_up_flow_Brk in H.
  destruct H as (b & s2 & H). eapply batch_Brk; eassumption.
Qed.



Lemma locals_at_count e s :
  locals_at env a e = Some s ->
  exists s0, entry env a = Go s0
             /\ forall fuel, count_up_flow (e + fuel) 0 (epoch env a) s0
                             = count_up_flow fuel (Z.of_nat e) (epoch env a) s.
Proof.
  revert s. induction e as [|e IH]; intros s H.
  - cbn [locals_at] in H. destruct (entry env a) as [s0| |]; inversion H; subst.
    exists s. split; [reflexivity|]. intros fuel. reflexivity.
  - apply locals_at_S in H. destruct H as (s1 & H & E).
    destruct (IH s1 H) as (s0 & H0 & Hc). exists s0. split; [exact H0|].
    intros fuel. replace (S e + fuel)%nat with (e + S fuel)%nat by lia.
    rewrite Hc. cbn [count_up_flow]. rewrite E.
    replace (Z.of_nat e + 1) with (Z.of_nat (S e)) by lia. reflexivity.
Qed.

(** How the loop ends when epoch [e] is reached and leaves it. *)
Lemma training_leaves e s why s' :
  locals_at env a e = Some s -> Z.of_nat e < a.(max_epochs) ->
  epoch env a (Z.of_nat e) s = Brk why s' ->
  training env a = Brk why s'.
Proof.
  intros H Hlt E. destruct (locals_at_count e s H) as (s0 & H0 & Hc).
  unfold training. rewrite H0. cbn [bind]. unfold epochs_from.
  replace (Z.to_nat a.(max_epochs)) with (e + S (Z.to_nat a.(max_epochs) - S e))%nat by lia.
  rewrite Hc. cbn [count_up_flow]. rewrite E. reflexivity.
Qed.




End Facts.


End RbmEscape.

Module RbmStall.
Import Rbm RbmRun RbmFacts RbmEscape.

Section Quiet.
Variable env : Env.
Variable a : args.
Hypothesis ok : engine_ok env.
Hypothesis quiet : no_escape (host env).

Lemma engine_call_ok c p s : engine_call env c p s = Go (set_ext (record c (ext s)) s).
Proof. unfold engine_call. rewrite (proj1 ok). reflexivity. Qed.

Lemma chain_step_ok e b nb c s : exists s', chain_step env a e b nb c s = Go s'.
Proof.
  unfold chain_step. cbv zeta. rewrite !engine_call_ok. cbn [bind].
  rewrite engine_call_ok. cbn [bind].
  destruct (c =? 0); [rewrite engine_call_ok|]; cbn [bind]; rewrite engine_call_ok; eauto.
Qed.

Lemma chain_ok e b nb n s : exists s', for_flow n (chain_step env a e b nb) s = Go s'.
Proof. apply count_up_flow_Go. intros. apply chain_step_ok. Qed.

Lemma batch_work_ok e b nb istop s :
  exists s', batch_work env a e b nb istop s = Go s'
             /\ keeps outside_chain s s'
             /\ max_inc s' = (if Qltb (max_inc s) (max_inc_out (engine env) e b)
                              then max_inc_out (engine env) e b else max_inc s).
Proof.
  pose proof (batch_work_keeps env a e b nb istop s) as K.
  assert (E : exists s', batch_work env a e b nb istop s = Go s'
              /\ max_inc s' = (if Qltb (max_inc s) (max_inc_out (engine env) e b)
                               then max_inc_out (engine env) e b else max_inc s)).
  { clear K. unfold batch_work. cbv zeta.
    set (s0 := if greedy_mean_field a =? 0 then step_stream s else s).
    assert (M0 : max_inc s0 = max_inc s).
    { subst s0. destruct (_ =? 0); [rewrite step_stream_eq|]; reflexivity. }
    clearbody s0.
    rewrite !engine_call_ok. cbn [bind]. rewrite engine_call_ok. cbn [bind].
    match goal with |- context[for_flow ?n (chain_step _ _ _ _ _) ?st] =>
      destruct (chain_ok e b nb n st) as [sc Hsc];
      pose proof (chain_keeps_all env a e b nb n st) as Kc end.
    rewrite Hsc in *. cbn [bind state_of] in *.
    apply (f_equal snd) in Kc. cbn [snd outside_chain_steps] in Kc. proj.
    do 5 (rewrite !engine_call_ok; cbn [bind]).
    eexists. split; [reflexivity|].
    match goal with |- max_inc (if Qltb (max_inc ?X) _ then _ else _) = _ =>
      assert (MX : max_inc X = max_inc s)
        by (rewrite ?step_stream_eq; proj; congruence);
      rewrite MX; destruct (Qltb _ _); [reflexivity | exact MX] end. }
  destruct E as (s' & E & M). exists s'. rewrite E in K. cbn [state_of] in K. auto.
Qed.

Lemma escape_seen_quiet e p s :
  escape_key_pressed (ext s) = false ->
  exists s', escape_seen env e p s = (false, s')
             /\ s' = set_ext (set_escape_key_pressed false (ext s)) s.
Proof.
  intros Hf. unfold escape_seen, escape_requested.
  destruct (e =? 0).
  - eexists. split; [reflexivity|].
    destruct s as [? ? ? ? ? ? ? ? ? ? ? ? ? ? ? ? ? ? ? ? []]; proj. subst. reflexivity.
  - rewrite Hf, quiet. eexists. split; reflexivity.
Qed.

Lemma adapt_ok e b s : exists s', adapt env a e b s = Go s'.
Proof.
  unfold adapt. cbv zeta. destruct (_ && _); rewrite engine_call_ok; cbn [bind]; eauto.
Qed.

Lemma batch_ok e b s :
  escape_key_pressed (ext s) = false ->
  exists s', batch env a e b s = Go s'
             /\ escape_key_pressed (ext s') = false
             /\ max_inc s' = larger env e b (max_inc s)
             /\ keeps outside_batches s s'.
Proof.
  intros Hf. pose proof (batch_keeps env a e b s) as K.
  unfold batch in *. cbv zeta in *.
  match goal with |- context[batch_work _ _ _ _ ?nb ?st _] =>
    destruct (batch_work_ok e b nb st s) as (s1 & E1 & K1 & M1) end.
  rewrite E1 in *. cbn [bind] in *.
  apply outside_chain_inv in K1.
  destruct K1 as (_ & _ & _ & _ & _ & _ & _ & _ & _ & _ & _ & _ & F1).
  destruct (escape_seen_quiet e (poll_batch e b) s1) as (s2 & E2 & ->); [congruence|].
  rewrite E2 in *.
  match goal with |- context[adapt _ _ _ _ ?st] =>
    destruct (adapt_ok e b st) as (s3 & E3) end.
  rewrite E3 in *. cbn [bind state_of] in *.
  apply adapt_Go in E3.
  destruct E3 as (_ & _ & _ & _ & _ & _ & _ & _ & _ & M3 & F3).
  eexists. split; [reflexivity|]. proj. repeat split; try assumption.
  rewrite M3. exact M1.
Qed.

Lemma batches_from_ok e n b0 s :
  escape_key_pressed (ext s) = false ->
  exists s', count_up_flow n b0 (batch env a e) s = Go s'
             /\ escape_key_pressed (ext s') = false
             /\ max_inc s' = count_up n b0 (larger env e) (max_inc s)
             /\ keeps outside_batches s s'.
Proof.
  revert b0 s. induction n as [|n IH]; intros b0 s Hf; cbn [count_up_flow count_up].
  - exists s. repeat split; try assumption; try reflexivity.
  - destruct (batch_ok e b0 s Hf) as (s1 & E1 & F1 & M1 & K1). rewrite E1.
    destruct (IH (b0 + 1) s1 F1) as (s2 & E2 & F2 & M2 & K2).
    exists s2. repeat split; try assumption.
    + rewrite M2, M1. reflexivity.
    + eapply keeps_trans; eassumption.
Qed.

Lemma epoch_batches_ok e s :
  escape_key_pressed (ext s) = false ->
  exists s', epoch_batches env a e s = Go s'
             /\ escape_key_pressed (ext s') = false
             /\ max_inc s' = epoch_max_inc env a e
             /\ n_no_improvement s' = n_no_improvement s
             /\ best_crit s' = best_crit s
             /\ i_epoch s' = e.
Proof.
  intros Hf. destruct (epoch_batches_keeps env a e s) as [K Ki].
  unfold epoch_batches in *. cbv zeta in *.
  pose proof (shuffle_keeps env a (set_i_epoch e s)) as Ks.
  set (s1 := shuffle env a (set_i_epoch e s)) in *.
  assert (F1 : escape_key_pressed (ext s1) = false).
  { unfold keeps, outside_shuffle in Ks. proj.
    injection Ks as _ _ _ _ _ _ _ _ _ _ _ F. congruence. }
  clearbody s1. rewrite engine_call_ok in *. cbn [bind] in *.
  unfold batches, for_flow in *. cbv zeta in *.
  match goal with |- context[count_up_flow ?n 0 _ ?st] =>
    destruct (batches_from_ok e n 0 st) as (s2 & E2 & F2 & M2 & _); [exact F1|] end.
  rewrite E2 in *. cbn [state_of] in *.
  unfold keeps, outside_epoch_batches in K. injection K as _ K2 K3 _.
  exists s2. repeat split; assumption.
Qed.

Lemma epoch_first s :
  escape_key_pressed (ext s) = false ->
  ~ (ratio env a 0 < a.(convergence_crit))%Q ->
  exists s', epoch env a 0 s = Go s'
             /\ escape_key_pressed (ext s') = false
             /\ best_crit s' = Some (ratio env a 0)
             /\ n_no_improvement s' = 0.
Proof.
  intros Hf Hc. unfold epoch.
  destruct (epoch_batches_ok 0 s Hf) as (sb & Eb & Fb & Mb & _).
  rewrite Eb. cbn [end_loop bind]. unfold epoch_end. rewrite escape_seen_0. cbv zeta.
  rewrite engine_call_ok. cbn [bind]. proj. rewrite Mb. fold (ratio env a 0).
  destruct (Qltb (ratio env a 0) (convergence_crit a)) eqn:Q;
    [apply Qltb_lt in Q; contradiction|].
  unfold stall_test. cbn [Z.eqb orb bind].
  rewrite (ceiling_frame 250), (ceiling_frame 200), (ceiling_frame 150),
    (ceiling_frame 100), (ceiling_frame 50).
  eexists. split; [reflexivity|]. proj. repeat split. exact Fb.
Qed.

Lemma epoch_later e s c :
  e <> 0 ->
  escape_key_pressed (ext s) = false ->
  best_crit s = Some c ->
  ~ (ratio env a e < a.(convergence_crit))%Q ->
  ~ (ratio env a e < c)%Q ->
  if int_add (n_no_improvement s) 1 >? a.(max_no_imp)
  then exists s', epoch env a e s = Brk stalled s'
                  /\ i_epoch s' = e
                  /\ n_no_improvement s' = int_add (n_no_improvement s) 1
  else exists s', epoch env a e s = Go s'
                  /\ escape_key_pressed (ext s') = false
                  /\ best_crit s' = Some c
                  /\ n_no_improvement s' = int_add (n_no_improvement s) 1.
Proof.
  intros He Hf Hb Hc Hs. unfold epoch.
  destruct (epoch_batches_ok e s Hf) as (sb & Eb & Fb & Mb & Nb & Bb & Ib).
  rewrite Eb. cbn [end_loop bind]. unfold epoch_end.
  destruct (escape_seen_quiet e (poll_epoch e) sb Fb) as (s1 & E1 & ->).
  rewrite E1. cbv zeta. rewrite engine_call_ok. cbn [bind]. proj.
  rewrite Mb. fold (ratio env a e).
  destruct (Qltb (ratio env a e) (convergence_crit a)) eqn:Q;
    [apply Qltb_lt in Q; contradiction|].
  unfold stall_test. proj. rewrite Bb, Hb. cbn [read].
  destruct (Z.eqb_spec e 0); [contradiction|]. cbn [orb].
  destruct (Qltb (ratio env a e) c) eqn:Q2; [apply Qltb_lt in Q2; contradiction|].
  cbv zeta. proj. rewrite Nb.
  destruct (int_add (n_no_improvement s) 1 >? max_no_imp a).
  - cbn [bind]. eexists. split; [reflexivity|]. proj. split; [exact Ib | reflexivity].
  - cbn [bind].
    rewrite (ceiling_frame 250), (ceiling_frame 200), (ceiling_frame 150),
      (ceiling_frame 100), (ceiling_frame 50).
    eexists. split; [reflexivity|]. proj. repeat split. congruence.
Qed.

Lemma entry_ok :
  exists s, entry env a = Go s
            /\ escape_key_pressed (ext s) = a.(escape_key_pressed0)
            /\ n_no_improvement s = 0.
Proof.
  unfold entry. cbv zeta. rewrite (proj1 ok), (proj2 ok).
  eexists. split; [reflexivity|]. split; reflexivity.
Qed.

End Quiet.

Lemma int_add_small x y :
  -2147483648 <= x + y <= 2147483647 -> int_add x y = x + y.
Proof. intros H. unfold int_add, int_wrap. rewrite Z.mod_small; lia. Qed.

Section Stall.
Variable env : Env.
Variable a : args.
Hypothesis ok : engine_ok env.
Hypothesis quiet : no_escape (host env).
Hypothesis flag0 : a.(escape_key_pressed0) = false.
Hypothesis imp_pos : 0 <= a.(max_no_imp).
Hypothesis epochs_enough : a.(max_no_imp) + 1 < a.(max_epochs) <= 2147483647.
Hypothesis rising :
  forall e, 0 <= e <= a.(max_no_imp) -> (ratio env a e < ratio env a (e + 1))%Q.
Hypothesis not_converged :
  forall e, 0 <= e <= a.(max_no_imp) + 1 -> ~ (ratio env a e < a.(convergence_crit))%Q.

Lemma above_first (e : nat) :
  1 <= Z.of_nat e <= a.(max_no_imp) + 1 -> (ratio env a 0 < ratio env a (Z.of_nat e))%Q.
Proof.
  induction e as [|e IH]; intros H; [lia|].
  destruct e as [|e].
  - apply (rising 0). lia.
  - eapply Qlt_trans; [apply IH; lia|].
    replace (Z.of_nat (S (S e))) with (Z.of_nat (S e) + 1) by lia.
    apply rising. lia.
Qed.

Lemma counting (e : nat) :
  1 <= Z.of_nat e <= a.(max_no_imp) + 1 ->
  exists s, locals_at env a e = Some s
            /\ escape_key_pressed (ext s) = false
            /\ best_crit s = Some (ratio env a 0)
            /\ n_no_improvement s = Z.of_nat e - 1.
Proof.
  induction e as [|e IH]; intros H; [lia|].
  destruct e as [|e].
  - destruct (entry_ok env a ok) as (s0 & E0 & F0 & _).
    destruct (epoch_first env a ok quiet s0) as (s1 & E1 & F1 & B1 & N1).
    { congruence. } { apply not_converged. lia. }
    exists s1. cbn [locals_at]. rewrite E0. cbn [Z.of_nat]. rewrite E1.
    repeat split; assumption.
  - destruct IH as (s & Hs & Fs & Bs & Ns); [lia|].
    pose proof (epoch_later env a ok quiet (Z.of_nat (S e)) s (ratio env a 0)
                  ltac:(lia) Fs Bs) as L.
    rewrite Ns in L. rewrite int_add_small in L by lia.
    destruct (Z.gtb_spec (Z.of_nat (S e) - 1 + 1) (max_no_imp a)); [lia|].
    destruct L as (s' & E' & F' & B' & N').
    { apply not_converged. lia. }
    { apply Qle_not_lt, Qlt_le_weak, above_first. lia. }
    exists s'. repeat split; try assumption.
    + change (locals_at env a (S (S e))) with
        (match locals_at env a (S e) with
         | Some s => match epoch env a (Z.of_nat (S e)) s with
                     | Go s' => Some s' | _ => None end
         | None => None end).
      rewrite Hs, E'. reflexivity.
    + rewrite N'. lia.
Qed.

Lemma stalled_exit :
  exists s, training env a = Brk stalled s
            /\ i_epoch s = a.(max_no_imp) + 1
            /\ n_no_improvement s = a.(max_no_imp) + 1.
Proof.
  destruct (counting (Z.to_nat (a.(max_no_imp) + 1))) as (s & Hs & Fs & Bs & Ns); [lia|].
  rewrite Z2Nat.id in Ns by lia.
  pose proof (epoch_later env a ok quiet (a.(max_no_imp) + 1) s (ratio env a 0)
                ltac:(lia) Fs Bs) as L.
  rewrite Ns in L. rewrite int_add_small in L by lia.
  destruct (Z.gtb_spec (max_no_imp a + 1 - 1 + 1) (max_no_imp a)); [|lia].
  destruct L as (s' & E' & I' & N').
  { apply not_converged. lia. }
  { apply Qle_not_lt, Qlt_le_weak.
    replace (max_no_imp a + 1) with (Z.of_nat (Z.to_nat (max_no_imp a + 1))) by lia.
    apply above_first. lia. }
  exists s'. split; [|split; [exact I' | lia]].
  apply (training_leaves env a (Z.to_nat (a.(max_no_imp) + 1)) s); [exact Hs | lia |].
  rewrite Z2Nat.id by lia. exact E'.
Qed.

End Stall.

(** Claim C5: in a run where no engine call fails and nobody presses
    ESCape, if the ratio [max_inc / max_weight] grows strictly from each epoch
    to the next and never falls below [convergence_crit], the stall counter
    is [e - 1] at the start of every epoch [e] from 1 to [max_no_imp + 1] and
    the loop is left by the stall test in epoch [max_no_imp + 1], provided
    [max_epochs] lets it get there. *)
Theorem stalls_at_max_no_imp_plus_1 env a :
  engine_ok env -> no_escape (host env) -> a.(escape_key_pressed0) = false ->
  0 <= a.(max_no_imp) ->
  a.(max_no_imp) + 1 < a.(max_epochs) <= 2147483647 ->
  (forall e, 0 <= e <= a.(max_no_imp) + 1 -> ~ (max_weight_out (engine env) e == 0)%Q) ->
  (forall e, 0 <= e <= a.(max_no_imp) -> (ratio env a e < ratio env a (e + 1))%Q) ->
  (forall e, 0 <= e <= a.(max_no_imp) + 1 -> ~ (ratio env a e < a.(convergence_crit))%Q) ->
  (forall e : nat,
      1 <= Z.of_nat e <= a.(max_no_imp) + 1 ->
      exists s, locals_at env a e = Some s /\ n_no_improvement s = Z.of_nat e - 1)
  /\ exists s, training env a = Brk stalled s
               /\ i_epoch s = a.(max_no_imp) + 1
               /\ n_no_improvement s = a.(max_no_imp) + 1.
Proof.
  intros ok quiet flag0 imp_pos enough _ rising not_conv. split.
  - intros e He.
    edestruct (counting env a) as (s & Hs & _ & _ & Ns); try eassumption.
    eauto.
  - apply stalled_exit; assumption.
Qed.

End RbmStall.

Module RbmSeed.
Import Rbm RbmRun RbmFacts RbmEscape.

Lemma extends_refl s : extends s s.
Proof. exists []. reflexivity. Qed.

Lemma extends_trans s1 s2 s3 : extends s1 s2 -> extends s2 s3 -> extends s1 s3.
Proof.
  intros [l1 H1] [l2 H2]. exists (l2 ++ l1). rewrite H2, H1. apply app_assoc.
Qed.

Section Facts.
Variable env : Env.
Variable a : args.

Ltac extends_leaf :=
  rewrite ?engine_call_state;
  repeat match goal with |- context[if ?c then _ else _] => destruct c end;
  rewrite ?step_stream_eq; unfold extends;
  cbn [ext set_ext set_randnum set_k set_error set_max_inc set_err_vec set_len_prev
       set_learning_rate set_momentum set_istart set_n_done trace record];
  first [ exists []; reflexivity | eexists [_]; reflexivity ].

Ltac extends_steps :=
  lazymatch goal with
  | |- extends _ (state_of (bind _ _)) =>
      apply (rel_bind extends extends_trans); [ extends_steps | intros ?; extends_steps ]
  | |- extends _ (state_of (if ?c then _ else _)) => destruct c; extends_steps
  | |- _ => extends_leaf
  end.

Lemma chain_step_extends e b nb c s : extends s (state_of (chain_step env a e b nb c s)).
Proof. unfold chain_step. cbv zeta. extends_steps. Qed.

Lemma chain_extends e b nb n s :
  extends s (state_of (for_flow n (chain_step env a e b nb) s)).
Proof.
  unfold for_flow. apply (rel_count_up_flow extends); intros.
  - apply extends_refl.
  - eapply extends_trans; eassumption.
  - apply chain_step_extends.
Qed.

Ltac extends_flow :=
  lazymatch goal with
  | |- extends _ (state_of (bind _ _)) =>
      apply (rel_bind extends extends_trans); [ extends_flow | intros ?; extends_flow ]
  | |- extends _ (state_of (for_flow _ (chain_step _ _ _ _ _) _)) =>
      first [ apply chain_extends
            | eapply extends_trans; [ | apply chain_extends ]; extends_leaf ]
  | |- extends _ (state_of (if ?c then _ else _)) => destruct c; extends_flow
  | |- _ => extends_leaf
  end.

Lemma adapt_extends e b s : extends s (state_of (adapt env a e b s)).
Proof. unfold adapt. cbv zeta. destruct (_ && _); extends_flow. Qed.

Lemma escape_seen_extends e p s : extends s (snd (escape_seen env e p s)).
Proof. rewrite escape_seen_frame. exists []. reflexivity. Qed.

Lemma extends_after (m : flow locals) f :
  (forall s1, extends s1 (state_of (f s1))) -> extends (state_of m) (state_of (bind m f)).
Proof.
  intros H. destruct m; cbn [bind state_of]; auto using extends_refl.
Qed.

Lemma batch_first_call e b s :
  a.(greedy_mean_field) <> 0 ->
  exists l,
    trace (ext (state_of (batch env a e b s)))
    = l ++ cuda_fetch_vis1 (istart s)
             (int_add (istart s) (batch_size a.(nc) (n_done s) a.(n_batches) b))
             a.(n_inputs) (k s) :: trace (ext s).
Proof.
  intros Hg. unfold batch, batch_work. cbv zeta.
  destruct (Z.eqb_spec (greedy_mean_field a) 0) as [|_]; [contradiction|].
  set (c := cuda_fetch_vis1 _ _ _ _).
  match goal with |- context[bind (bind (engine_call env c ?p s) ?g) ?h] =>
    assert (X : extends (state_of (engine_call env c p s))
                  (state_of (bind (bind (engine_call env c p s) g) h))) end.
  { eapply extends_trans; [apply extends_after | apply extends_after].
    - intros s1. cbv beta. extends_flow.
    - intros s2. cbv beta. pose proof (escape_seen_extends e (poll_batch e b) s2) as X.
      destruct (escape_seen env e (poll_batch e b) s2) as [esc s3]. cbn [snd] in X.
      destruct esc; [exact X|].
      eapply extends_trans; [exact X|].
      apply (rel_bind extends extends_trans); [apply adapt_extends|].
      intros s4. exists []. reflexivity. }
  rewrite engine_call_state in X at 1. exact X.
Qed.

Lemma batch_work_Go_stream e b nb istop s s' :
  batch_work env a e b nb istop s = Go s' -> left_by_advance s'.
Proof.
  unfold batch_work. cbv zeta. intros H.
  do 4 (apply bind_Go in H; destruct H as (? & _ & H)).
  apply bind_Go in H. destruct H as (s5 & H5 & H). apply engine_call_Go in H5.
  apply bind_Go in H. destruct H as (s6 & H6 & H). apply engine_call_Go in H6.
  apply bind_Go in H. destruct H as (s7 & H7 & H). apply engine_call_Go in H7.
  apply bind_Go in H. destruct H as (s8 & H8 & H). apply engine_call_Go in H8.
  inversion H; subst s'. clear H.
  exists (randnum x2).
  destruct (Qltb _ _); subst; rewrite step_stream_eq; proj; split; reflexivity.
Qed.

Lemma batch_Go_stream e b s s' :
  batch env a e b s = Go s' -> left_by_advance s'.
Proof.
  unfold batch. cbv zeta. intros H.
  apply bind_Go in H. destruct H as (s1 & H1 & H).
  apply batch_work_Go_stream in H1. destruct H1 as (r & Hk & Hr).
  pose proof (escape_seen_frame env e (poll_batch e b) s1) as F.
  destruct (escape_seen env e (poll_batch e b) s1) as [esc s2]. cbn [snd] in F.
  destruct esc; [discriminate|].
  apply bind_Go in H. destruct H as (s3 & H3 & H).
  apply adapt_Go in H3. destruct H3 as (_ & _ & _ & _ & _ & _ & Hk3 & Hr3 & _).
  inversion H; subst s'. exists r. proj. rewrite Hk3, Hr3, F. proj. auto.
Qed.

Lemma shuffle_loop_k n i s :
  n <> O ->
  exists v j, k (shuffle_loop env n i s) = Some v
              /\ shuffle_index (shuffle_loop env n i s) j = v.
Proof.
  revert i s. induction n as [|n IH]; intros i s Hn; [contradiction|].
  cbn [shuffle_loop]. unfold draw. cbv zeta. cbn iota.
  destruct n as [|n].
  - cbn [shuffle_loop]. proj. eexists. eexists. split; [reflexivity|].
    unfold store. rewrite Z.eqb_refl. reflexivity.
  - apply IH. discriminate.
Qed.

Lemma shuffle_k s :
  (2 <= a.(nc) ->
   exists v j, k (shuffle env a s) = Some v /\ shuffle_index (shuffle env a s) j = v)
  /\ (a.(nc) < 2 -> shuffle env a s = s).
Proof.
  unfold shuffle. split; intros H.
  - apply shuffle_loop_k. lia.
  - replace (Z.to_nat (nc a - 1)) with O by lia. reflexivity.
Qed.

Lemma count_up_flow_first {T : Type} (R : T -> T -> Prop) (body : Z -> T -> flow T) :
  (forall s, R s s) -> (forall s1 s2 s3, R s1 s2 -> R s2 s3 -> R s1 s3) ->
  (forall i s, R s (state_of (body i s))) ->
  forall n i s, R (state_of (body i s)) (state_of (count_up_flow (S n) i body s)).
Proof.
  intros Hr Ht Hb n i s. cbn [count_up_flow].
  destruct (body i s) as [s1|why s1|v s1]; cbn [state_of]; auto.
  apply rel_count_up_flow; auto.
Qed.

Lemma batch_extends e b s : extends s (state_of (batch env a e b s)).
Proof.
  unfold batch, batch_work. cbv zeta.
  apply (rel_bind extends extends_trans); [extends_flow|].
  intros s2. cbv beta. pose proof (escape_seen_extends e (poll_batch e b) s2) as X.
  destruct (escape_seen env e (poll_batch e b) s2) as [esc s3]. cbn [snd] in X.
  destruct esc; [exact X|].
  eapply extends_trans; [exact X|].
  apply (rel_bind extends extends_trans); [apply adapt_extends|].
  intros s4. exists []. reflexivity.
Qed.

Lemma epoch_first_call e s :
  a.(greedy_mean_field) <> 0 -> 1 <= a.(n_batches) ->
  status (engine env) (at_shuffle_to_device e) = 0 ->
  exists l,
    trace (ext (state_of (epoch_batches env a e s)))
    = l ++ cuda_fetch_vis1 0 (int_add 0 (batch_size a.(nc) 0 a.(n_batches) 0))
             a.(n_inputs) (k (shuffle env a (set_i_epoch e s)))
           :: cuda_shuffle_to_device a.(nc) :: trace (ext s).
Proof.
  intros Hg Hn Hs. unfold epoch_batches. cbv zeta.
  pose proof (shuffle_keeps env a (set_i_epoch e s)) as K.
  set (s1 := shuffle env a (set_i_epoch e s)) in *.
  assert (T : trace (ext s1) = trace (ext s)).
  { unfold keeps, outside_shuffle in K. proj.
    injection K as _ _ _ _ _ _ _ _ _ _ T _. exact T. }
  clearbody s1. clear K.
  unfold engine_call. rewrite Hs. cbn [Z.eqb bind].
  unfold batches, for_flow. cbv zeta.
  replace (Z.to_nat (n_batches a)) with (S (Z.to_nat (n_batches a) - 1)) by lia.
  match goal with |- context[count_up_flow _ 0 _ ?st] => set (s3 := st) end.
  destruct (count_up_flow_first extends (batch env a e) extends_refl extends_trans
              (batch_extends e) (Z.to_nat (n_batches a) - 1) 0 s3) as [l1 H1].
  destruct (batch_first_call e 0 s3 Hg) as [l2 H2].
  exists (l1 ++ l2). rewrite H1, H2. subst s3. proj. rewrite T.
  rewrite <- app_assoc. reflexivity.
Qed.

Lemma entry_k s : entry env a = Go s -> k s = None /\ randnum s = 1.
Proof.
  unfold entry. cbv zeta. destruct (init_refused _ _); intros H; inversion H.
  split; reflexivity.
Qed.

End Facts.

(** Claim C10, amended: with [greedy_mean_field] nonzero a batch advances
    nothing before its fetch and passes to [cuda_fetch_vis1] the [k] it
    starts with.  [k] is unassigned when the epoch loop is entered; the
    shuffle of every epoch assigns it, to the entry it swapped last, when
    there are two cases or more, and leaves it alone otherwise; so the first
    fetch of an epoch gets the [k] left by that epoch's shuffle.  After a
    batch that ran to its end, [k] is the quotient of the advance that gave
    the current [randnum], which is what the next batch of the epoch passes. *)
Theorem fetch_seed_when_greedy env a :
  a.(greedy_mean_field) <> 0 ->
  (forall e b s,
      exists l,
        trace (ext (state_of (batch env a e b s)))
        = l ++ cuda_fetch_vis1 (istart s)
                 (int_add (istart s) (batch_size a.(nc) (n_done s) a.(n_batches) b))
                 a.(n_inputs) (k s) :: trace (ext s))
  /\ (forall s, entry env a = Go s -> k s = None)
  /\ (forall s,
        (2 <= a.(nc) ->
         exists v j, k (shuffle env a s) = Some v /\ shuffle_index (shuffle env a s) j = v)
        /\ (a.(nc) < 2 -> shuffle env a s = s))
  /\ (forall e s,
        1 <= a.(n_batches) -> status (engine env) (at_shuffle_to_device e) = 0 ->
        exists l,
          trace (ext (state_of (epoch_batches env a e s)))
          = l ++ cuda_fetch_vis1 0 (int_add 0 (batch_size a.(nc) 0 a.(n_batches) 0))
                   a.(n_inputs) (k (shuffle env a (set_i_epoch e s)))
                 :: cuda_shuffle_to_device a.(nc) :: trace (ext s))
  /\ (forall e b s s',
        batch env a e b s = Go s' ->
        exists r, k s' = Some (fst (advance r)) /\ randnum s' = snd (advance r)).
Proof.
  intros Hg. repeat split.
  - intros e b s. apply batch_first_call. exact Hg.
  - intros s H. apply (entry_k env a s H).
  - apply shuffle_k.
  - apply shuffle_k.
  - intros e s Hn Hs. apply epoch_first_call; assumption.
  - intros e b s s' H. apply (batch_Go_stream env a e b s s' H).
Qed.

End RbmSeed.

Module RbmRate.
Import Rbm RbmRun RbmFacts.

Lemma ceiling_range n c s :
  in_rate_range c -> in_rate_range (learning_rate s) ->
  in_rate_range (learning_rate (ceiling n c s)).
Proof. intros Hc Hs. unfold ceiling. destruct (_ && _); assumption. Qed.

Lemma stall_test_rate a e r s s' :
  stall_test a e r s = Go s' ->
  in_rate_range (learning_rate s) -> in_rate_range (learning_rate s').
Proof.
  unfold stall_test. intros H Hs. apply bind_Go in H. destruct H as (s1 & H1 & H).
  inversion H as [E]; clear H.
  assert (R1 : in_rate_range (learning_rate s1)).
  { destruct (_ || _).
    - inversion H1; subst s1. exact Hs.
    - revert H1. cbv zeta. destruct (_ >? _); intros H1; inversion H1; subst s1. exact Hs. }
  repeat apply ceiling_range; try exact R1; unfold in_rate_range; split; discriminate.
Qed.

Lemma epoch_end_rate env a e s s' :
  epoch_end env a e s = Go s' ->
  in_rate_range (learning_rate s) -> in_rate_range (learning_rate s').
Proof.
  unfold epoch_end. pose proof (escape_seen_frame env e (poll_epoch e) s) as F.
  destruct (escape_seen env e (poll_epoch e) s) as [esc s1]. cbn [fst snd] in *.
  destruct esc; [discriminate|]. cbv zeta. intros H Hs.
  apply bind_Go in H. destruct H as (s2 & H2 & H). apply engine_call_Go in H2.
  destruct (Qltb _ _); [discriminate|].
  apply stall_test_rate in H; [exact H|]. subst s2. rewrite F. exact Hs.
Qed.

(** Claim C3, amended: a batch that runs to its end leaves [learning_rate]
    within [0.001, 1.0] whatever the dot product, except the first batch of
    the first epoch, which leaves it as it found it; and the end of an epoch
    keeps it within [0.001, 1.0] when it was. *)
Theorem rate_within_bounds_after_adaptation env a :
  (forall e b s s',
      batch env a e b s = Go s' ->
      if (e =? 0) && (b =? 0)
      then learning_rate s' = learning_rate s
      else in_rate_range (learning_rate s'))
  /\ (forall e s s',
        epoch_end env a e s = Go s' ->
        in_rate_range (learning_rate s) -> in_rate_range (learning_rate s')).
Proof.
  split.
  - intros e b s s' H. rewrite (batch_Go_rate env a e b s s' H).
    destruct ((e =? 0) && (b =? 0)); [reflexivity | apply adapt_rate_range].
  - intros e s s'. apply epoch_end_rate.
Qed.

(** A batch of the second epoch of a run whose caller asks for a learning
    rate of 5. *)
Lemma rate_within_bounds_after_adaptation_witness :
  in_rate_range (learning_rate (state_of (batch steady_run two_batches_rate_5 1 0 (state_of (entry steady_run two_batches_rate_5))))).
Proof.
  refine (proj1 (rate_within_bounds_after_adaptation steady_run two_batches_rate_5) 1 0
            (state_of (entry steady_run two_batches_rate_5))
            (state_of (batch steady_run two_batches_rate_5 1 0 (state_of (entry steady_run two_batches_rate_5)))) _).
  vm_compute. reflexivity.
Defined.

(** After the first batch of the first epoch the rate is still the caller's. *)
Lemma first_batch_rate_unclamped :
  exists s, batches_at steady_run one_batch_rate_5 0 = Some (Go s)
            /\ learning_rate s = 5%Q
            /\ ~ in_rate_range (learning_rate s).
Proof.
  eexists. split; [vm_compute; reflexivity|].
  split; [vm_compute; reflexivity|].
  unfold in_rate_range. intros [_ H]. vm_compute in H. apply H. reflexivity.
Qed.

End RbmRate.

Lemma count_up_keeps {St T : Type} (f : St -> T) (body : Z -> St -> St) :
  (forall i s, f (body i s) = f s) -> forall n i s, f (count_up n i body s) = f s.
Proof.
  intros Hb n. induction n as [|n IH]; intros i s; cbn [count_up]; [reflexivity|].
  rewrite IH. apply Hb.
Qed.

(** An invariant that a loop carries from its first index to its bound. *)
Lemma count_up_inv {St : Type} (P : Z -> St -> Prop) (body : Z -> St -> St) :
  (forall i s, P i s -> P (i + 1) (body i s)) ->
  forall n i s, P i s -> P (i + Z.of_nat n) (count_up n i body s).
Proof.
  intros Hb n. induction n as [|n IH]; intros i s H; cbn [count_up].
  - replace (i + Z.of_nat 0) with i by lia. exact H.
  - replace (i + Z.of_nat (S n)) with (i + 1 + Z.of_nat n) by lia.
    apply IH, Hb, H.
Qed.

Module WtInitFacts.
Import WtInit WtInitRun.

Section Facts.
Variable env : Env.
Variable a : args.

Lemma wt_engine_call_state c p s :
  state_of (engine_call env c p s) = set_ext (record c (ext s)) s.
Proof. unfold engine_call. destruct (_ =? 0); reflexivity. Qed.

Lemma gen_hidden_keeps diff ihid s :
  outside_evaluate (gen_hidden env a diff ihid s) = outside_evaluate s.
Proof.
  unfold gen_hidden.
  pose proof (count_up_keeps (fun p : double * locals => outside_evaluate (snd p))
                (fun ivis '(sum, s) =>
                   let '(u, x) := draw (host env) (ext s) in
                   let wt := (diff * (u - 0.5))%Q in
                   let s := set_w (store (w s) (widx a ihid ivis) wt) (set_ext x s) in
                   ((sum + data_mean s ivis * wt)%Q, s))) as K.
  unfold for_.
  specialize (K ltac:(intros i [sum s1]; reflexivity) (Z.to_nat a.(n_inputs)) 0 (0%Q, s)).
  cbn [snd] in K.
  destruct (count_up _ _ _ _) as [sum s1]. cbn [snd] in K. rewrite <- K. reflexivity.
Qed.

Lemma center_visible_keeps ivis s :
  outside_evaluate (center_visible env a ivis s) = outside_evaluate s.
Proof. reflexivity. Qed.

Ltac keeps_leaf :=
  unfold keeps; rewrite ?wt_engine_call_state;
  repeat match goal with |- context[if ?c then _ else _] => destruct c end;
  reflexivity.

Ltac keeps_flow :=
  cbv beta;
  lazymatch goal with
  | |- keeps ?f _ (state_of (bind _ _)) =>
      apply (rel_bind (keeps f) (keeps_trans f)); [ keeps_flow | intros ?; keeps_flow ]
  | |- keeps ?f _ (state_of (if ?c then _ else _)) => destruct c; keeps_flow
  | |- _ => keeps_leaf
  end.

Lemma evaluate_batch_keeps irand ibatch s :
  keeps outside_evaluate s (state_of (evaluate_batch env a irand ibatch s)).
Proof. unfold evaluate_batch. cbv zeta. keeps_flow. Qed.

Lemma evaluate_keeps irand s :
  keeps outside_evaluate s (state_of (evaluate env a irand s)).
Proof.
  unfold evaluate. cbv zeta.
  apply (rel_bind (keeps outside_evaluate) (keeps_trans outside_evaluate)).
  { keeps_flow. }
  intros s1. cbv beta. unfold draw. cbv zeta. cbn iota.
  apply (rel_bind (keeps outside_evaluate) (keeps_trans outside_evaluate)).
  - unfold keeps. rewrite wt_engine_call_state.
    change (outside_evaluate (set_ext ?x ?s)) with (outside_evaluate s).
    unfold for_. rewrite !(count_up_keeps outside_evaluate).
    + reflexivity.
    + intros. apply gen_hidden_keeps.
    + intros. apply center_visible_keeps.
  - intros s2. cbv beta. unfold for_flow.
    eapply (keeps_trans outside_evaluate);
      [| apply (rel_count_up_flow (keeps outside_evaluate)); intros ].
    + reflexivity.
    + apply keeps_refl.
    + eapply keeps_trans; eassumption.
    + apply evaluate_batch_keeps.
Qed.

Lemma outside_save_inv s s' :
  outside_save s' = outside_save s ->
  w s' = w s /\ in_bias s' = in_bias s /\ hid_bias s' = hid_bias s
  /\ error s' = error s /\ ext s' = ext s.
Proof. unfold outside_save. intros H. injection H as -> -> -> -> ->. repeat split. Qed.

Section Save.
Variable s0 : locals.

Lemma save_row h s1 :
  0 <= h -> rows_saved a s0 h s1 ->
  rows_saved a s0 (h + 1)
    (for_ a.(n_inputs)
       (fun ivis s =>
          set_w_best (store (w_best s) (widx a h ivis) (w s (widx a h ivis))) s)
       (set_hid_bias_best (store (hid_bias_best s1) h (hid_bias s1 h)) s1)).
Proof.
  intros Hh (Ho & Hb & Hi & Hrows).
  apply outside_save_inv in Ho. destruct Ho as (Hw & Hib & Hhb & He & Hx).
  set (s2 := set_hid_bias_best _ s1).
  assert (P0 : row_saving a s0 h s2 0 s2).
  { unfold row_saving, outside_save. subst s2. cbn.
    rewrite Hw, Hib, Hhb, He, Hx. repeat split; auto. intros v' Hv'. lia. }
  assert (Step : forall i s, row_saving a s0 h s2 i s ->
            row_saving a s0 h s2 (i + 1)
              (set_w_best (store (w_best s) (widx a h i) (w s (widx a h i))) s)).
  { intros i s (Qo & Qb & Qi & Qh & Qk & Qv).
    apply outside_save_inv in Qo. destruct Qo as (Qw & Qib & Qhb & Qe & Qx).
    unfold row_saving, outside_save. cbn.
    rewrite Qw, Qib, Qhb, Qe, Qx. repeat split; auto.
    - intros idx Hidx. unfold store. destruct (Z.eqb_spec idx (widx a h i)) as [->|];
        [reflexivity | auto].
    - intros v' Hv'. unfold store.
      destruct (Z.eqb_spec (widx a h v') (widx a h i)) as [E|]; [rewrite E; reflexivity|].
      apply Qv. assert (v' <> i) by congruence. lia. }
  pose proof (count_up_inv (row_saving a s0 h s2) _ Step (Z.to_nat a.(n_inputs)) 0 s2 P0) as L.
  unfold for_. destruct L as (Lo & Lb & Li & Lh & Lk & Lv).
  split; [exact Lo|]. split; [exact Lb|]. split; [exact Li|].
  intros h' Hh'. rewrite Lh. subst s2. cbn [hid_bias_best set_hid_bias_best].
  destruct (Z.eq_dec h' h) as [->|Hne].
  - split.
    + unfold store. rewrite Z.eqb_refl. congruence.
    + intros v Hv. apply Lv. lia.
  - destruct (Hrows h' ltac:(lia)) as [R1 R2]. split.
    + unfold store. destruct (Z.eqb_spec h' h); [contradiction|]. exact R1.
    + intros v Hv. apply Lk. cbn [w_best set_hid_bias_best]. apply R2, Hv.
Qed.

Lemma save_best_holds :
  outside_save (save_best a s0) = outside_save s0
  /\ best_err (save_best a s0) = error s0
  /\ holds a (save_best a s0) s0.
Proof.
  unfold save_best. cbv zeta.
  set (s1 := set_best_err (error s0) s0).
  assert (R0 : rows_saved a s0 0 s1).
  { unfold rows_saved. subst s1. repeat split; try reflexivity; lia. }
  assert (R : rows_saved a s0 (Z.of_nat (Z.to_nat a.(nhid)))
                (for_ a.(nhid)
                   (fun ihid s =>
                      for_ a.(n_inputs)
                        (fun ivis s =>
                           set_w_best
                             (store (w_best s) (widx a ihid ivis) (w s (widx a ihid ivis))) s)
                        (set_hid_bias_best
                           (store (hid_bias_best s) ihid (hid_bias s ihid)) s)) s1)).
  { unfold for_ at 1.
    generalize (Z.to_nat (nhid a)) as n. intros n.
    assert (G : forall i s, 0 <= i -> rows_saved a s0 i s ->
              rows_saved a s0 (i + Z.of_nat n)
                (count_up n i
                   (fun ihid s =>
                      for_ a.(n_inputs)
                        (fun ivis s =>
                           set_w_best
                             (store (w_best s) (widx a ihid ivis) (w s (widx a ihid ivis))) s)
                        (set_hid_bias_best
                           (store (hid_bias_best s) ihid (hid_bias s ihid)) s)) s)).
    { induction n as [|n IH]; intros i s Hi Hs; cbn [count_up].
      - replace (i + Z.of_nat 0) with i by lia. exact Hs.
      - replace (i + Z.of_nat (S n)) with (i + 1 + Z.of_nat n) by lia.
        apply IH; [lia|]. apply save_row; assumption. }
    apply (G 0 s1); [lia | exact R0]. }
  set (s2 := for_ (nhid a) _ s1) in *. clearbody s2.
  destruct R as (Ro & Rb & Ri & Rrows).
  apply outside_save_inv in Ro. destruct Ro as (Rw & Rib & Rhb & Re & Rx).
  assert (Step : forall i s,
            (outside_save s = outside_save s0 /\ best_err s = error s0
             /\ hid_bias_best s = hid_bias_best s2 /\ w_best s = w_best s2
             /\ forall v, 0 <= v < i -> in_bias_best s v = in_bias s0 v) ->
            (outside_save (set_in_bias_best (store (in_bias_best s) i (in_bias s i)) s)
               = outside_save s0
             /\ best_err (set_in_bias_best (store (in_bias_best s) i (in_bias s i)) s)
                = error s0
             /\ hid_bias_best (set_in_bias_best (store (in_bias_best s) i (in_bias s i)) s)
                = hid_bias_best s2
             /\ w_best (set_in_bias_best (store (in_bias_best s) i (in_bias s i)) s)
                = w_best s2
             /\ forall v, 0 <= v < i + 1 ->
                  in_bias_best (set_in_bias_best (store (in_bias_best s) i (in_bias s i)) s) v
                  = in_bias s0 v)).
  { intros i s (Qo & Qb & Qh & Qw & Qv).
    pose proof (outside_save_inv _ _ Qo) as (_ & Qib & _).
    repeat split; try assumption.
    intros v Hv. cbn. unfold store. destruct (Z.eqb_spec v i) as [->|]; [congruence|].
    apply Qv. lia. }
  pose proof (count_up_inv
                (fun i s => outside_save s = outside_save s0 /\ best_err s = error s0
                            /\ hid_bias_best s = hid_bias_best s2 /\ w_best s = w_best s2
                            /\ forall v, 0 <= v < i -> in_bias_best s v = in_bias s0 v)
                _ Step (Z.to_nat a.(n_inputs)) 0 s2) as L.
  destruct L as (Lo & Lb & Lh & Lw & Lv).
  { unfold outside_save. rewrite Rw, Rib, Rhb, Re, Rx. repeat split; try assumption. lia. }
  unfold for_. split; [exact Lo|]. split; [exact Lb|].
  unfold holds. split.
  - intros ihid Hh. rewrite Lh, Lw. apply Rrows. lia.
  - intros ivis Hv. apply Lv. lia.
Qed.

End Save.

Lemma wt_no_Brk_engine_call c p s : no_Brk (engine_call env c p s).
Proof. intros why s'. unfold engine_call. destruct (_ =? 0); discriminate. Qed.

Lemma no_Brk_evaluate_batch irand ibatch s : no_Brk (evaluate_batch env a irand ibatch s).
Proof.
  unfold evaluate_batch. cbv zeta.
  repeat (apply no_Brk_bind; [apply wt_no_Brk_engine_call | intros ?]).
  intros why s'. discriminate.
Qed.

Lemma no_Brk_evaluate irand s : no_Brk (evaluate env a irand s).
Proof.
  unfold evaluate. cbv zeta. apply no_Brk_bind.
  - destruct (irand =? 0); [apply wt_no_Brk_engine_call | intros why s'; discriminate].
  - intros s1. unfold draw. cbv zeta. cbn iota.
    apply no_Brk_bind; [apply wt_no_Brk_engine_call | intros s2].
    apply no_Brk_count_up_flow. intros. apply no_Brk_evaluate_batch.
Qed.

Lemma holds_same s t s' t' :
  snapshot t = snapshot s ->
  w t' = w s' -> in_bias t' = in_bias s' -> hid_bias t' = hid_bias s' ->
  holds a s s' -> holds a t t'.
Proof.
  unfold snapshot, holds. intros H Hw Hi Hh. injection H as -> -> ->.
  rewrite Hw, Hi, Hh. auto.
Qed.

Lemma trial_effect irand s s' :
  ends_in (trial env a irand s) s' ->
  if Qltb (error s') (best_err s)
  then best_err s' = error s' /\ holds a s' s'
  else best_err s' = best_err s /\ snapshot s' = snapshot s.
Proof.
  unfold trial. intros H.
  pose proof (evaluate_keeps irand s) as K.
  destruct (evaluate env a irand s) as [s1|why s1|v s1] eqn:E; cbn [bind state_of] in *.
  2:{ exfalso. exact (no_Brk_evaluate irand s _ _ E). }
  2:{ destruct H as [H | [? H]]; discriminate. }
  unfold keeps, outside_evaluate in K.
  pose proof (f_equal fst K) as Kb. pose proof (f_equal snd K) as Ks.
  cbn [fst snd] in Kb, Ks. clear K.
  set (s2 := if Qltb (error s1) (best_err s1) then save_best a s1 else s1) in *.
  assert (F : error s2 = error s1 /\ w s2 = w s1 /\ in_bias s2 = in_bias s1
              /\ hid_bias s2 = hid_bias s1
              /\ if Qltb (error s1) (best_err s)
                 then best_err s2 = error s1 /\ holds a s2 s1
                 else best_err s2 = best_err s /\ snapshot s2 = snapshot s).
  { subst s2. rewrite Kb. destruct (Qltb (error s1) (best_err s)).
    - destruct (save_best_holds s1) as (Ho & Hb & Hh).
      apply outside_save_inv in Ho. destruct Ho as (Hw & Hi & Hhb & He & _).
      split; [exact He|]. split; [exact Hw|]. split; [exact Hi|]. split; [exact Hhb|].
      split; assumption.
    - do 4 (split; [reflexivity|]). split; [exact Kb | exact Ks]. }
  clearbody s2. destruct F as (Fe & Fw & Fi & Fh & F).
  destruct (escape_requested (host env) (poll_trial irand) (ext s2)) as [esc x].
  assert (Ey : exists y, s' = set_ext y s2).
  { destruct esc; destruct H as [H | [? H]]; inversion H; subst; eexists; reflexivity. }
  destruct Ey as [y ->].
  change (error (set_ext y s2)) with (error s2).
  change (best_err (set_ext y s2)) with (best_err s2).
  change (snapshot (set_ext y s2)) with (snapshot s2).
  rewrite Fe.
  destruct (Qltb (error s1) (best_err s)); destruct F as [F1 F2]; split; try assumption.
  eapply holds_same; [| | | |exact F2]; try reflexivity; assumption.
Qed.

Lemma locals_after_S t s' :
  locals_after env a (S t) = Some s' ->
  exists s, locals_after env a t = Some s /\ trial env a (Z.of_nat t) s = Go s'.
Proof.
  cbn [locals_after]. destruct (locals_after env a t) as [s|]; [|discriminate].
  destruct (trial env a (Z.of_nat t) s) eqn:E; intros H; inversion H; subst. eauto.
Qed.

Lemma trial_done_inv j s' :
  trial_done env a j = Some s' ->
  exists s, locals_after env a j = Some s /\ ends_in (trial env a (Z.of_nat j) s) s'.
Proof.
  unfold trial_done, ends_in. destruct (locals_after env a j) as [s|]; [|discriminate].
  destruct (trial env a (Z.of_nat j) s) eqn:E; intros H; inversion H; subst; eauto.
Qed.

Lemma entry_best_err s : entry env a = Go s -> best_err s = 1e40%Q.
Proof.
  unfold entry. cbv zeta. destruct (init_refused _ _); intros H; inversion H. reflexivity.
Qed.

Lemma best_of_step j s s' :
  locals_after env a j = Some s ->
  ends_in (trial env a (Z.of_nat j) s) s' ->
  best_of env a j s -> best_of env a (S j) s'.
Proof.
  intros Hs He (B1 & B2 & B3).
  assert (D : trial_done env a j = Some s').
  { unfold trial_done. rewrite Hs. destruct He as [-> | [why ->]]; reflexivity. }
  pose proof (trial_effect _ _ _ He) as T. unfold best_of.
  destruct (Qltb (error s') (best_err s)) eqn:Q.
  - apply Qltb_lt in Q. destruct T as [Tb Th]. rewrite Tb.
    split; [|split].
    + intros i si Hi Hd. destruct (Nat.eq_dec i j) as [->|].
      * rewrite D in Hd. inversion Hd. apply Qle_refl.
      * apply Qlt_le_weak. eapply Qlt_le_trans; [exact Q|]. apply (B1 i si); [lia | exact Hd].
    + apply Qlt_le_weak. eapply Qlt_le_trans; eassumption.
    + intros _. exists j, s'. split; [lia|]. split; [exact D|]. split; [reflexivity|exact Th].
  - apply Qltb_ge in Q. destruct T as [Tb Ts]. rewrite Tb.
    split; [|split].
    + intros i si Hi Hd. destruct (Nat.eq_dec i j) as [->|].
      * rewrite D in Hd. inversion Hd; subst. exact Q.
      * apply (B1 i si); [lia | exact Hd].
    + exact B2.
    + intros Hlt. destruct (B3 Hlt) as (i & si & Hi & Hd & Hee & Hh).
      exists i, si. split; [lia|]. split; [exact Hd|]. split; [exact Hee|].
      eapply holds_same; [exact Ts | | | | exact Hh]; reflexivity.
Qed.

Lemma best_of_after t s : locals_after env a t = Some s -> best_of env a t s.
Proof.
  revert s. induction t as [|t IH]; intros s H.
  - cbn [locals_after] in H. destruct (entry env a) as [s0| |] eqn:E; inversion H; subst.
    unfold best_of. rewrite (entry_best_err _ E).
    split; [intros; lia|]. split; [apply Qle_refl|]. intros Hlt.
    exfalso. revert Hlt. apply Qlt_irrefl.
  - apply locals_after_S in H. destruct H as (s0 & H0 & E).
    apply (best_of_step t s0 s H0); [left; exact E | apply IH, H0].
Qed.

Lemma best_of_done j s : trial_done env a j = Some s -> best_of env a (S j) s.
Proof.
  intros H. apply trial_done_inv in H. destruct H as (s0 & H0 & E).
  apply (best_of_step j s0 s H0 E). apply best_of_after, H0.
Qed.

Lemma not_worse_refl s : not_worse s s.
Proof. apply Qle_refl. Qed.

Lemma not_worse_trans s1 s2 s3 : not_worse s1 s2 -> not_worse s2 s3 -> not_worse s1 s3.
Proof. unfold not_worse. intros H1 H2. eapply Qle_trans; eassumption. Qed.

Lemma trial_not_worse irand s : not_worse s (state_of (trial env a irand s)).
Proof.
  unfold not_worse.
  destruct (trial env a irand s) as [s'|why s'|v s'] eqn:E; cbn [state_of].
  - pose proof (trial_effect irand s s' (or_introl E)) as T.
    destruct (Qltb (error s') (best_err s)) eqn:Q; destruct T as [-> _].
    + apply Qlt_le_weak, Qltb_lt, Q.
    + apply Qle_refl.
  - pose proof (trial_effect irand s s' (or_intror (ex_intro _ why E))) as T.
    destruct (Qltb (error s') (best_err s)) eqn:Q; destruct T as [-> _].
    + apply Qlt_le_weak, Qltb_lt, Q.
    + apply Qle_refl.
  - unfold trial in E. pose proof (evaluate_keeps irand s) as K.
    destruct (evaluate env a irand s) as [s1|why1 s1|v1 s1]; cbn [bind state_of] in *.
    + cbv zeta in E. destruct (escape_requested _ _ _) as [[] x]; discriminate.
    + discriminate.
    + inversion E; subst. unfold keeps, outside_evaluate in K.
      apply (f_equal fst) in K. cbn [fst] in K. rewrite K. apply Qle_refl.
Qed.

Lemma count_up_flow_more {St : Type} (body : Z -> St -> flow St) m d i s :
  count_up_flow (m + d) i body s =
  match count_up_flow m i body s with
  | Go s1 => count_up_flow d (i + Z.of_nat m) body s1
  | other => other
  end.
Proof.
  revert i s. induction m as [|m IH]; intros i s; cbn [count_up_flow Nat.add].
  - replace (i + Z.of_nat 0) with i by lia. reflexivity.
  - destruct (body i s); try reflexivity. rewrite IH.
    replace (i + 1 + Z.of_nat m) with (i + Z.of_nat (S m)) by lia. reflexivity.
Qed.

Lemma more_trials_not_worse m n sm sn :
  m <= n ->
  end_loop (trials env a m) = Go sm -> end_loop (trials env a n) = Go sn ->
  not_worse sm sn.
Proof.
  intros Hmn. unfold trials, for_flow.
  destruct (entry env a) as [s0|why0 s0|]; cbn [bind end_loop]; try discriminate.
  2:{ intros Hm Hn. inversion Hm; inversion Hn; subst. apply not_worse_refl. }
  replace (Z.to_nat n) with (Z.to_nat m + (Z.to_nat n - Z.to_nat m))%nat by lia.
  rewrite count_up_flow_more.
  destruct (count_up_flow (Z.to_nat m) 0 (trial env a) s0) as [s1|why s1|v s1];
    cbn [end_loop]; intros Hm Hn; inversion Hm; subst.
  - pose proof (rel_count_up_flow not_worse not_worse_refl not_worse_trans
                  (trial env a) trial_not_worse
                  (Z.to_nat n - Z.to_nat m) (0 + Z.of_nat (Z.to_nat m)) sm) as R.
    apply end_loop_Go in Hn. destruct Hn as [-> _]. exact R.
  - inversion Hn; subst. apply not_worse_refl.
Qed.

Lemma restore_best_best_err s : best_err (restore_best a s) = best_err s.
Proof.
  unfold restore_best, for_. cbv zeta.
  rewrite !(count_up_keeps best_err); try reflexivity.
  intros i s1. rewrite (count_up_keeps best_err); reflexivity.
Qed.

Lemma result_of n s :
  end_loop (trials env a n) = Go s ->
  result env a n
  = Some (best_err s / double_of_int (int_mul a.(nc) a.(n_inputs)))%Q.
Proof.
  intros H. unfold result, run. rewrite H. cbn [bind].
  change (best_err (set_ext ?x ?s)) with (best_err s).
  rewrite restore_best_best_err. reflexivity.
Qed.

End Facts.
End WtInitFacts.

(** ** The deterministic stream *)

Lemma int_wrap_small z : -2147483648 <= z <= 2147483647 -> int_wrap z = z.
Proof. intros H. unfold int_wrap. rewrite Z.mod_small; lia. Qed.

Lemma advance_spec x :
  1 <= x <= 2147483646 ->
  fst (advance x) = x / 127773
  /\ snd (advance x) = (16807 * x) mod 2147483647
  /\ 1 <= snd (advance x) <= 2147483646.
Proof.
  intros Hx.
  assert (Hq : Z.quot x 127773 = x / 127773) by (apply Z.quot_div_nonneg; lia).
  pose proof (Z.div_mod x 127773 ltac:(lia)) as Hdm.
  pose proof (Z.mod_pos_bound x 127773 ltac:(lia)) as Hr.
  assert (Hk : 0 <= x / 127773 <= 16807).
  { split; [apply Z.div_pos; lia|].
    assert (x / 127773 < 16808); [apply Z.div_lt_upper_bound; lia | lia]. }
  unfold advance, int_div, int_mul, int_sub, int_add, IA, IQ, IR, IM.
  rewrite Hq.
  set (q := x / 127773) in *. set (r := x mod 127773) in *.
  rewrite (int_wrap_small q) by lia.
  rewrite (int_wrap_small (q * 127773)) by lia.
  replace (x - q * 127773) with r by lia.
  rewrite (int_wrap_small r) by lia.
  rewrite (int_wrap_small (16807 * r)) by lia.
  rewrite (int_wrap_small (2836 * q)) by lia.
  rewrite (int_wrap_small (16807 * r - 2836 * q)) by lia.
  cbn [fst snd]. split; [reflexivity|].
  assert (Hmod : (16807 * x) mod 2147483647 = (16807 * r - 2836 * q) mod 2147483647).
  { replace (16807 * x) with ((16807 * r - 2836 * q) + q * 2147483647) by lia.
    apply Z.mod_add. lia. }
  (* 16807 has the inverse 1407677000 modulo 2^31 - 1 *)
  assert (Hnz : (16807 * x) mod 2147483647 <> 0).
  { intro H0.
    assert (H1 : (1407677000 * (16807 * x)) mod 2147483647 = 0).
    { rewrite Z.mul_mod by lia. rewrite H0. rewrite Z.mul_0_r. reflexivity. }
    replace (1407677000 * (16807 * x)) with (x + x * 11017 * 2147483647) in H1 by lia.
    rewrite Z.mod_add in H1 by lia. rewrite Z.mod_small in H1; lia. }
  destruct (Z.ltb_spec (16807 * r - 2836 * q) 0) as [Hneg|Hpos].
  - rewrite (int_wrap_small (16807 * r - 2836 * q + 2147483647)) by lia.
    assert (E : (16807 * x) mod 2147483647 = 16807 * r - 2836 * q + 2147483647).
    { rewrite Hmod. symmetry. apply Z.mod_unique with (q := -1); lia. }
    rewrite <- E. pose proof (Z.mod_pos_bound (16807 * x) 2147483647 ltac:(lia)). lia.
  - assert (E : (16807 * x) mod 2147483647 = 16807 * r - 2836 * q).
    { rewrite Hmod. apply Z.mod_small. lia. }
    rewrite <- E. pose proof (Z.mod_pos_bound (16807 * x) 2147483647 ltac:(lia)). lia.
Qed.

Lemma draws_spec n x :
  1 <= x <= 2147483646 ->
  draws n x = (16807 ^ Z.of_nat n * x) mod 2147483647 /\ 1 <= draws n x <= 2147483646.
Proof.
  revert x. induction n as [|n IH]; intros x Hx.
  - cbn [draws]. change (16807 ^ Z.of_nat 0) with 1. rewrite Z.mul_1_l.
    rewrite Z.mod_small by lia. lia.
  - cbn [draws]. destruct (advance_spec x Hx) as (_ & Hs & Hr).
    destruct (IH _ Hr) as [E R]. split; [|exact R].
    rewrite E, Hs. rewrite Z.mul_mod_idemp_r by lia.
    f_equal. rewrite Nat2Z.inj_succ, Z.pow_succ_r by lia. ring.
Qed.

(** Claim C9: the stream of [rbm_cuda] starts at 1, and each advance is the
    Park-Miller step [x' = 16807 * x mod (2^31 - 1)] on [1 .. 2^31 - 2],
    computed without overflow, so the state never leaves that range (and is
    never 0); the draws are a function of the seed alone, the 10000th from
    seed 1 being 1043618065. *)
Theorem stream_is_park_miller :
  (forall env a s, Rbm.entry env a = Go s -> Rbm.randnum s = 1)
  /\ (forall s, Rbm.randnum (Rbm.step_stream s) = snd (advance (Rbm.randnum s))
                /\ Rbm.k (Rbm.step_stream s) = Some (fst (advance (Rbm.randnum s))))
  /\ (forall x, 1 <= x <= 2147483646 ->
                fst (advance x) = x / 127773
                /\ snd (advance x) = (16807 * x) mod 2147483647
                /\ 1 <= snd (advance x) <= 2147483646)
  /\ (forall n, draws n 1 = (16807 ^ Z.of_nat n) mod 2147483647
                /\ 1 <= draws n 1 <= 2147483646)
  /\ draws (Z.to_nat 10000) 1 = 1043618065.
Proof.
  split; [|split; [|split; [|split]]].
  - intros env a s H. apply (RbmSeed.entry_k env a s H).
  - intros s. rewrite RbmFacts.step_stream_eq. split; reflexivity.
  - exact advance_spec.
  - intros n. destruct (draws_spec n 1 ltac:(lia)) as [E R]. rewrite Z.mul_1_r in E. auto.
  - vm_compute. reflexivity.
Qed.

Lemma stream_is_park_miller_witness :
  snd (advance 1) = (16807 * 1) mod 2147483647 /\ 1 <= snd (advance 1) <= 2147483646.
Proof.
  destruct stream_is_park_miller as (_ & _ & H & _).
  destruct (H 1 ltac:(lia)) as (_ & H1 & H2). split; [exact H1 | exact H2].
Defined.

(** ** Data statistics *)

(** Claim C8: for every data set with [nc <> 0], each of the first
    [n_inputs] entries of [data_mean] is, in [rbm_cuda_wt_init] and in
    [rbm_cuda], the sum of the column over the [nc] rows divided by [nc] and
    brought into [1e-8, 1 - 1e-8]; no entry lies outside that interval. *)
Theorem data_mean_clamped nc n_inputs ncols data data_mean ivis :
  nc <> 0 -> 0 <= ivis < n_inputs ->
  wt_init_data_mean nc n_inputs ncols data data_mean ivis
    = clamped (sum_rows nc (fun i => data (int_mul i ncols + ivis)%Z) / double_of_int nc)%Q
  /\ rbm_data_mean nc n_inputs ncols data data_mean ivis
    = clamped (sum_rows nc (fun i => data (int_add (int_mul i ncols) ivis))
               / double_of_int nc)%Q
  /\ (1e-8 <= wt_init_data_mean nc n_inputs ncols data data_mean ivis <= 1 - 1e-8)%Q
  /\ (1e-8 <= rbm_data_mean nc n_inputs ncols data data_mean ivis <= 1 - 1e-8)%Q.
Proof.
  intros _ Hi.
  assert (E1 := mean_loops (fun i iv => int_mul i ncols + iv) nc n_inputs data data_mean ivis Hi).
  assert (E2 := mean_loops (fun i iv => int_add (int_mul i ncols) iv) nc n_inputs data
                  data_mean ivis Hi).
  unfold wt_init_data_mean, rbm_data_mean.
  cbv zeta. rewrite E1, E2.
  repeat split; try apply clamped_range.
Qed.

Lemma data_mean_clamped_witness :
  wt_init_data_mean 100 4 4 zeros zeros 0 = 1e-8%Q
  /\ rbm_data_mean 100 4 4 zeros zeros 0 = 1e-8%Q.
Proof.
  destruct (data_mean_clamped 100 4 4 zeros zeros 0 ltac:(lia) ltac:(lia))
    as (H1 & H2 & _).
  split; [rewrite H1 | rewrite H2]; vm_compute; reflexivity.
Defined.

Module RbmSamples.
Import Rbm RbmRun RbmFacts RbmEscape RbmStall RbmSeed.

(** An epoch that ends the loop by convergence leaves [momentum] and
    [chain_length] as its batches left them. *)
Lemma no_anneal_in_last_epoch :
  exists s0 sb s,
    entry settled_run one_batch = Go s0
    /\ epoch_batches settled_run one_batch 0 s0 = Go sb
    /\ epoch settled_run one_batch 0 s0 = Brk converged s
    /\ ~ (momentum s == 0.99 * momentum sb + 0.01 * one_batch.(end_momentum))%Q
    /\ ~ (chain_length s
          == (1 - one_batch.(n_chain_rate)) * chain_length s0
             + one_batch.(n_chain_rate) * double_of_int one_batch.(n_chain_end))%Q.
Proof.
  eexists. eexists. eexists.
  split; [vm_compute; reflexivity|]. split; [vm_compute; reflexivity|].
  split; [vm_compute; reflexivity|].
  split; intros H; vm_compute in H; discriminate.
Qed.


Lemma quiet_sample_no_escape : no_escape quiet_host.
Proof. intros p. reflexivity. Qed.

Lemma steady_sample_ok h : engine_ok (sample_env steady_engine h).
Proof. split; [intros p|]; reflexivity. Qed.



(** With [max_no_imp = 2] and a ratio of [e + 1] in epoch [e], the loop is
    left at epoch 3. *)
Lemma stalls_at_max_no_imp_plus_1_witness :
  exists s, training steady_run stalling = Brk stalled s /\ i_epoch s = 3 /\ n_no_improvement s = 3.
Proof.
  refine (proj2 (stalls_at_max_no_imp_plus_1 steady_run stalling (steady_sample_ok quiet_host)
                   quiet_sample_no_escape eq_refl _ _ _ _ _)).
  - discriminate.
  - split; [reflexivity | discriminate].
  - intros e He. discriminate.
  - intros e He. assert (E : e = 0 \/ e = 1 \/ e = 2) by (unfold stalling in He; cbn in He; lia).
    destruct E as [-> | [-> | ->]]; reflexivity.
  - intros e He. assert (E : e = 0 \/ e = 1 \/ e = 2 \/ e = 3) by (unfold stalling in He; cbn in He; lia).
    destruct E as [-> | [-> | [-> | ->]]]; discriminate.
Defined.


(** With four cases the shuffle assigns [k]: the first fetch of the run gets
    the seed 3, and the first fetch of epoch 1 the seed 2 although the latest
    advance of the stream left the quotient 8954. *)
Lemma first_seed_assigned_by_shuffle :
  two_batches.(greedy_mean_field) <> 0
  /\ (exists s, batches_at steady_run two_batches 0 = Some (Go s)
                /\ firstn 3 (rev (trace (ext s)))
                   = [rbm_cuda_init 4 2 2 1 0 1 2; cuda_shuffle_to_device 4;
                      cuda_fetch_vis1 0 2 2 (Some 3)])
  /\ (exists s1 s2 l,
        locals_at steady_run two_batches 1 = Some s1 /\ k s1 = Some 8954
        /\ batches_at steady_run two_batches 1 = Some (Go s2)
        /\ rev (trace (ext s2))
           = rev (trace (ext s1))
             ++ cuda_shuffle_to_device 4 :: cuda_fetch_vis1 0 2 2 (Some 2) :: l).
Proof.
  split; [discriminate|]. split.
  - eexists. split; vm_compute; reflexivity.
  - eexists. eexists. eexists.
    split; [vm_compute; reflexivity|]. split; [vm_compute; reflexivity|].
    split; [vm_compute; reflexivity|]. vm_compute. reflexivity.
Qed.

Lemma fetch_seed_when_greedy_witness :
  two_batches.(greedy_mean_field) <> 0
  /\ k (state_of (entry steady_run two_batches)) = None
  /\ exists v j,
       k (shuffle steady_run two_batches (state_of (entry steady_run two_batches)))
       = Some v
       /\ shuffle_index
            (shuffle steady_run two_batches (state_of (entry steady_run two_batches))) j
          = v.
Proof.
  pose proof (fetch_seed_when_greedy steady_run two_batches ltac:(discriminate))
    as (_ & H2 & H3 & _).
  split; [discriminate|]. split.
  - apply H2. vm_compute. reflexivity.
  - apply (H3 (state_of (entry steady_run two_batches))).
    vm_compute. discriminate.
Defined.

End RbmSamples.

Module Binary64Facts.
Import PrimFloat Binary64.


End Binary64Facts.

Module WtInitSamples.
Import WtInit WtInitRun WtInitFacts.

(** Claim C7: a trial overwrites the snapshot and [best_err] exactly when
    its error is strictly below [best_err]; after any completed trial
    [best_err] is at most the error of every completed trial and, once below
    its starting value 1e40, is the error of a completed trial whose
    parameters the snapshot holds; and of two runs on the same engine and
    random stream that reach line 279, the one with the larger [n_rand] ends
    with a [best_err], and for [nc * n_inputs > 0] returns a value, that is
    not larger. *)
Theorem best_trial_kept env a :
  (forall irand s s',
      ends_in (trial env a irand s) s' ->
      if Qltb (error s') (best_err s)
      then best_err s' = error s' /\ holds a s' s'
      else best_err s' = best_err s /\ snapshot s' = snapshot s)
  /\ (forall j s,
        trial_done env a j = Some s ->
        (forall i si, (i <= j)%nat -> trial_done env a i = Some si ->
                      (best_err s <= error si)%Q)
        /\ ((best_err s < 1e40)%Q ->
            exists i si, (i <= j)%nat /\ trial_done env a i = Some si
                         /\ error si = best_err s /\ holds a s si))
  /\ (forall m n sm sn,
        m <= n ->
        end_loop (trials env a m) = Go sm -> end_loop (trials env a n) = Go sn ->
        (best_err sn <= best_err sm)%Q
        /\ exists rm rn,
             result env a m = Some rm /\ result env a n = Some rn
             /\ (0 < int_mul a.(nc) a.(n_inputs) -> (rn <= rm)%Q)).
Proof.
  split; [|split].
  - apply trial_effect.
  - intros j s H. destruct (best_of_done env a j s H) as (B1 & _ & B3). split.
    + intros i si Hi. apply B1. lia.
    + intros Hlt. destruct (B3 Hlt) as (i & si & Hi & R). exists i, si. split; [lia | exact R].
  - intros m n sm sn Hmn Hm Hn.
    pose proof (more_trials_not_worse env a m n sm sn Hmn Hm Hn) as W.
    split; [exact W|].
    eexists. eexists. split; [apply result_of, Hm|]. split; [apply result_of, Hn|].
    intros Hpos. unfold Qdiv. apply Qmult_le_compat_r; [exact W|].
    apply Qlt_le_weak, Qinv_lt_0_compat. unfold double_of_int.
    rewrite <- (Zlt_Qlt 0). exact Hpos.
Qed.

(** One trial against two with errors 1 and 1/2 per column and batch. *)
Lemma best_trial_kept_witness :
  exists rm rn, result improving_run two_trials 1 = Some rm /\ result improving_run two_trials 2 = Some rn /\ (rn <= rm)%Q.
Proof.
  destruct (proj2 (proj2 (best_trial_kept improving_run two_trials)) 1 2
              (state_of (end_loop (trials improving_run two_trials 1)))
              (state_of (end_loop (trials improving_run two_trials 2)))) as (_ & rm & rn & Hm & Hn & Hle).
  - discriminate.
  - vm_compute. reflexivity.
  - vm_compute. reflexivity.
  - exists rm, rn. split; [exact Hm|]. split; [exact Hn|]. apply Hle. reflexivity.
Defined.

(** Claim C2, at the failing input: [cuda_recon_error] reports a failure in
    the first batch of the first trial; [rbm_cuda_wt_init] goes on and returns
    the error of the best trial, where [rbm_cuda] on the same engine returns
    -1.0. *)
Theorem recon_error_status_ignored :
  status (engine recon_failing_run) (at_recon_error 0 0) = 1
  /\ rbm_cuda_wt_init recon_failing_run three_trials = Some (4 # 8)%Q
  /\ Rbm.rbm_cuda recon_failing_run two_batches = Some (-1)%Q.
Proof.
  split; [reflexivity|]. split; vm_compute; reflexivity.
Qed.

End WtInitSamples.

(** ** The batch partition *)

Lemma count_up_snoc {St : Type} (body : Z -> St -> St) n i s :
  count_up (S n) i body s = body (i + Z.of_nat n) (count_up n i body s).
Proof.
  revert i s. induction n as [|n IH]; intros i s.
  - cbn [count_up]. replace (i + Z.of_nat 0) with i by lia. reflexivity.
  - cbn [count_up] in *. rewrite IH.
    replace (i + 1 + Z.of_nat n) with (i + Z.of_nat (S n)) by lia. reflexivity.
Qed.

Lemma done_before_S nc n_batches b :
  done_before nc n_batches (S b)
  = int_add (done_before nc n_batches b)
      (batch_size nc (done_before nc n_batches b) n_batches (Z.of_nat b)).
Proof. unfold done_before. rewrite count_up_snoc. reflexivity. Qed.

Lemma batch_size_small nc n_done n_batches ibatch :
  0 <= n_done <= nc -> nc <= 2147483647 ->
  0 <= ibatch < n_batches -> n_batches <= 2147483647 ->
  batch_size nc n_done n_batches ibatch = (nc - n_done) / (n_batches - ibatch).
Proof.
  intros H1 H2 H3 H4. unfold batch_size, int_div, int_sub.
  rewrite (int_wrap_small (nc - n_done)) by lia.
  rewrite (int_wrap_small (n_batches - ibatch)) by lia.
  rewrite Z.quot_div_nonneg by lia.
  apply int_wrap_small.
  assert (0 <= (nc - n_done) / (n_batches - ibatch)) by (apply Z.div_pos; lia).
  assert ((nc - n_done) / (n_batches - ibatch) <= nc - n_done)
    by (apply Z.div_le_upper_bound; nia).
  lia.
Qed.

Section Partition.
Variables nc n_batches : Z.
Hypothesis Hnc : 0 <= nc <= 2147483647.
Hypothesis Hnb : 1 <= n_batches <= 2147483647.

Lemma floor_ceiling : (batch_floor nc n_batches) * n_batches <= nc <= (batch_ceiling nc n_batches) * n_batches /\ 0 <= (batch_floor nc n_batches) <= (batch_ceiling nc n_batches).
Proof.
  unfold batch_floor, batch_ceiling.
  pose proof (Z.div_mod nc n_batches ltac:(lia)).
  pose proof (Z.mod_pos_bound nc n_batches ltac:(lia)).
  pose proof (Z.div_mod (nc + n_batches - 1) n_batches ltac:(lia)).
  pose proof (Z.mod_pos_bound (nc + n_batches - 1) n_batches ltac:(lia)).
  assert (0 <= nc / n_batches) by (apply Z.div_pos; lia).
  assert (nc / n_batches <= (nc + n_batches - 1) / n_batches)
    by (apply Z.div_le_mono; lia).
  nia.
Qed.

(** What is left before batch [b] fits the batches left, at the floor and at
    the ceiling of [nc / n_batches]. *)
Lemma done_before_balanced b :
  Z.of_nat b <= n_batches ->
  0 <= done_before nc n_batches b <= nc
  /\ (batch_floor nc n_batches) * (n_batches - Z.of_nat b) <= nc - done_before nc n_batches b
     <= (batch_ceiling nc n_batches) * (n_batches - Z.of_nat b).
Proof.
  induction b as [|b IH]; intros Hb.
  - unfold done_before. cbn [count_up]. pose proof floor_ceiling. lia.
  - destruct IH as (Hd & Hq); [lia|].
    rewrite done_before_S. set (d := done_before nc n_batches b) in *.
    rewrite batch_size_small by lia.
    set (m := n_batches - Z.of_nat b) in *. set (r := nc - d) in *.
    assert (Hm : 1 <= m) by (unfold m; lia).
    pose proof (Z.div_mod r m ltac:(lia)) as Hdm.
    pose proof (Z.mod_pos_bound r m ltac:(lia)) as Hmod.
    pose proof floor_ceiling as (_ & HqQ).
    assert (Hf1 : (batch_floor nc n_batches) <= r / m) by (apply Z.div_le_lower_bound; lia).
    assert (Hf2 : r / m <= (batch_ceiling nc n_batches)) by (apply Z.div_le_upper_bound; lia).
    assert (Hf0 : 0 <= r / m) by lia.
    assert (Hfr : r / m <= r) by nia.
    rewrite RbmStall.int_add_small by (unfold r in *; lia).
    replace (n_batches - Z.of_nat (S b)) with (m - 1) by (unfold m; lia).
    replace (nc - (d + r / m)) with (r - r / m) by (unfold r; lia).
    split; [unfold r in *; lia|].
    split; [nia|].
    destruct (Z.eq_dec (r / m) (batch_ceiling nc n_batches)) as [E|E]; nia.
Qed.

(** The loop of lines 109-115 and 378-384 after [b] passes. *)
Lemma max_batch_loop b :
  Z.of_nat b <= n_batches ->
  exists M,
    count_up b 0
      (fun ibatch '(n_done, max_batch) =>
         let n_in_batch := batch_size nc n_done n_batches ibatch in
         let max_batch := if n_in_batch >? max_batch then n_in_batch else max_batch in
         (int_add n_done n_in_batch, max_batch)) (0, 0)
    = (done_before nc n_batches b, M)
    /\ 0 <= M <= (batch_ceiling nc n_batches)
    /\ done_before nc n_batches b <= Z.of_nat b * M
    /\ forall i, (i < b)%nat ->
         batch_size nc (done_before nc n_batches i) n_batches (Z.of_nat i) <= M.
Proof.
  induction b as [|b IH]; intros Hb.
  - exists 0. cbn [count_up]. pose proof floor_ceiling.
    split; [reflexivity|]. split; [lia|]. split; [reflexivity|]. intros i Hi. lia.
  - destruct IH as (M & E & HM & Hsum & Hall); [lia|].
    rewrite count_up_snoc, E. cbn [Z.add]. rewrite <- done_before_S.
    destruct (done_before_balanced b ltac:(lia)) as (Hd & Hq).
    set (d := done_before nc n_batches b) in *.
    pose proof (batch_size_small nc d n_batches (Z.of_nat b) ltac:(lia) ltac:(lia)
                  ltac:(lia) ltac:(lia)) as Es.
    set (m := n_batches - Z.of_nat b) in *. set (r := nc - d) in *.
    assert (Hm : 1 <= m) by (unfold m; lia).
    pose proof floor_ceiling as (_ & HqQ).
    assert (Hf1 : (batch_floor nc n_batches) <= r / m) by (apply Z.div_le_lower_bound; lia).
    assert (Hf2 : r / m <= (batch_ceiling nc n_batches)) by (apply Z.div_le_upper_bound; lia).
    assert (Ed : done_before nc n_batches (S b) = d + r / m).
    { rewrite done_before_S. fold d. rewrite Es. apply RbmStall.int_add_small.
      assert (r / m <= r) by (pose proof (Z.div_mod r m ltac:(lia));
                              pose proof (Z.mod_pos_bound r m ltac:(lia)); nia).
      unfold r in *. lia. }
    eexists. split; [reflexivity|]. rewrite Es, Ed.
    destruct (Z.gtb_spec (r / m) M) as [Hgt|Hle].
    + split; [lia|]. split; [nia|].
      intros i Hi. destruct (Nat.eq_dec i b) as [->|Hne].
      * fold d. rewrite Es. lia.
      * specialize (Hall i ltac:(lia)). lia.
    + split; [lia|]. split; [nia|].
      intros i Hi. destruct (Nat.eq_dec i b) as [->|Hne].
      * fold d. rewrite Es. lia.
      * apply Hall. lia.
Qed.
End Partition.

Lemma partition_total nc n_batches :
  0 <= nc <= 2147483647 -> 1 <= n_batches <= 2147483647 ->
  done_before nc n_batches (Z.to_nat n_batches) = nc.
Proof.
  intros Hnc Hnb.
  destruct (done_before_balanced nc n_batches Hnc Hnb (Z.to_nat n_batches) ltac:(lia))
    as (Hd & Hq).
  nia.
Qed.

(** Property X1: the batches of an epoch (or of a trial) take every case once,
    their sizes lie between the floor and the ceiling of [nc / n_batches], and
    the [max_batch] given to [rbm_cuda_init] is that ceiling, so no batch is
    larger. *)
Theorem batches_partition nc n_batches :
  0 <= nc <= 2147483647 -> 1 <= n_batches <= 2147483647 ->
  done_before nc n_batches (Z.to_nat n_batches) = nc
  /\ (forall b, (b < Z.to_nat n_batches)%nat ->
        batch_floor nc n_batches
        <= batch_size nc (done_before nc n_batches b) n_batches (Z.of_nat b)
        <= max_batch_size nc n_batches)
  /\ max_batch_size nc n_batches = batch_ceiling nc n_batches.
Proof.
  intros Hnc Hnb.
  destruct (done_before_balanced nc n_batches Hnc Hnb (Z.to_nat n_batches) ltac:(lia))
    as (Hd & Hq).
  assert (Edone : done_before nc n_batches (Z.to_nat n_batches) = nc) by nia.
  destruct (max_batch_loop nc n_batches Hnc Hnb (Z.to_nat n_batches) ltac:(lia))
    as (M & E & HM & Hsum & Hall).
  assert (EM : max_batch_size nc n_batches = M).
  { unfold max_batch_size, for_. exact (f_equal snd E). }
  rewrite EM. split; [exact Edone|].
  assert (EQ : M = batch_ceiling nc n_batches).
  { rewrite Edone in Hsum. rewrite Z2Nat.id in Hsum by lia.
    assert (batch_ceiling nc n_batches < M + 1)
      by (unfold batch_ceiling; apply Z.div_lt_upper_bound; nia).
    lia. }
  split; [|exact EQ].
  intros b Hb. split; [|apply Hall; exact Hb].
  destruct (done_before_balanced nc n_batches Hnc Hnb b ltac:(lia)) as (Hd' & Hq').
  rewrite batch_size_small by lia.
  apply Z.div_le_lower_bound; lia.
Qed.

Lemma batches_partition_witness :
  done_before 10 3 3 = 10
  /\ batch_size 10 (done_before 10 3 0) 3 0 = 3
  /\ batch_size 10 (done_before 10 3 2) 3 2 = 4
  /\ max_batch_size 10 3 = 4.
Proof.
  destruct (batches_partition 10 3 ltac:(lia) ltac:(lia)) as (H1 & _ & H3).
  split; [exact H1|]. split; [reflexivity|]. split; [reflexivity|]. exact H3.
Defined.

(** ** Invariants of a run *)

Lemma preserves_refl {St : Type} (I : St -> Prop) s : preserves I s s.
Proof. unfold preserves. auto. Qed.

Lemma preserves_trans {St : Type} (I : St -> Prop) s1 s2 s3 :
  preserves I s1 s2 -> preserves I s2 s3 -> preserves I s1 s3.
Proof. unfold preserves. auto. Qed.

Lemma preserves_count_up_flow {St : Type} (I : St -> Prop) (body : Z -> St -> flow St) :
  (forall i s, preserves I s (state_of (body i s))) ->
  forall n i s, preserves I s (state_of (count_up_flow n i body s)).
Proof.
  intros H. apply (rel_count_up_flow (preserves I)).
  - apply preserves_refl.
  - apply preserves_trans.
  - exact H.
Qed.

Lemma preserves_count_up {St : Type} (I : St -> Prop) (body : Z -> St -> St) :
  (forall i s, preserves I s (body i s)) ->
  forall n i s, preserves I s (count_up n i body s).
Proof.
  intros H n. induction n as [|n IH]; intros i s; cbn [count_up].
  - apply preserves_refl.
  - eapply preserves_trans; [apply H | apply IH].
Qed.

Lemma fails_only_bind {St : Type} (m : flow St) f :
  fails_only m -> (forall s, fails_only (f s)) -> fails_only (bind m f).
Proof.
  intros Hm Hf v s. destruct m as [s1|r s1|v1 s1]; cbn [bind].
  - apply Hf.
  - discriminate.
  - apply Hm.
Qed.

Lemma fails_only_count_up_flow {St : Type} (body : Z -> St -> flow St) :
  (forall i s, fails_only (body i s)) ->
  forall n i s, fails_only (count_up_flow n i body s).
Proof.
  intros H n. induction n as [|n IH]; intros i s v s'; cbn [count_up_flow].
  - discriminate.
  - specialize (H i s). destruct (body i s) as [s1|r s1|v1 s1].
    + apply IH.
    + discriminate.
    + apply H.
Qed.

Lemma fails_only_end_loop {St : Type} (m : flow St) : fails_only m -> fails_only (end_loop m).
Proof. intros H v s. destruct m; cbn [end_loop]; try discriminate. apply H. Qed.

Lemma fails_only_Go {St : Type} (s : St) : fails_only (Go s).
Proof. intros v s'. discriminate. Qed.

Lemma fails_only_Brk {St : Type} r (s : St) : fails_only (Brk r s).
Proof. intros v s'. discriminate. Qed.

Ltac flow_inv leaf :=
  cbv beta;
  lazymatch goal with
  | |- preserves ?I _ (state_of (bind _ _)) =>
      apply (rel_bind (preserves I) (preserves_trans I));
      [ flow_inv leaf | intros ?; flow_inv leaf ]
  | |- preserves _ _ (state_of (if ?c then _ else _)) => destruct c; flow_inv leaf
  | |- _ => leaf
  end.

Lemma advance_range x : in_stream_range x -> in_stream_range (snd (advance x)).
Proof. intros H. destruct (advance_spec x H) as (_ & _ & H'). exact H'. Qed.

Module RbmInvariants.
Import Rbm RbmRun RbmMore RbmFacts.

Ltac seeds_leaf :=
  unfold preserves; rewrite ?engine_call_state;
  repeat match goal with |- context[if ?c then _ else _] => destruct c end;
  rewrite ?step_stream_eq, ?engine_call_state;
  let Hr := fresh "Hr" in
  let Ht := fresh "Ht" in
  intros [Hr Ht]; split; proj;
  [ repeat apply advance_range; exact Hr
  | let c := fresh "c" in
    let r := fresh "r" in
    let Hin := fresh "Hin" in
    let Hs := fresh "Hs" in
    intros c r Hin Hs;
    repeat (destruct Hin as [<-|Hin];
            [ cbn [seed_of] in Hs;
              first [ discriminate Hs
                    | inversion Hs; subst; repeat apply advance_range; exact Hr ] | ]);
    eapply Ht; eassumption ].

Section Facts.
Variable env : Env.
Variable a : args.

(** *** The seeds given to the engine *)

Lemma seeds_step_stream s : preserves seeds_in_range s (step_stream s).
Proof.
  intros [Hr Ht]. rewrite step_stream_eq. split; proj.
  - destruct (advance_spec (randnum s) Hr) as (_ & _ & H). exact H.
  - exact Ht.
Qed.

Lemma seeds_call c p s :
  (forall r, seed_of c = Some r -> r = randnum s) ->
  preserves seeds_in_range s (state_of (engine_call env c p s)).
Proof.
  intros Hc [Hr Ht]. rewrite engine_call_state. split; proj; [exact Hr|].
  intros c' r [<-|Hin] Hs.
  - rewrite (Hc r Hs). exact Hr.
  - eapply Ht; eassumption.
Qed.

Lemma seeds_same s s' :
  randnum s' = randnum s -> trace (ext s') = trace (ext s) ->
  preserves seeds_in_range s s'.
Proof. intros E1 E2 [Hr Ht]. split; [rewrite E1 | rewrite E2]; assumption. Qed.

Lemma seeds_chain_step e b nb c s :
  preserves seeds_in_range s (state_of (chain_step env a e b nb c s)).
Proof. unfold chain_step. cbv zeta. flow_inv ltac:(idtac; seeds_leaf). Qed.

Lemma seeds_chain e b nb n s :
  preserves seeds_in_range s (state_of (for_flow n (chain_step env a e b nb) s)).
Proof. apply preserves_count_up_flow. intros. apply seeds_chain_step. Qed.

Lemma seeds_batch_work e b nb istop s :
  preserves seeds_in_range s (state_of (batch_work env a e b nb istop s)).
Proof.
  unfold batch_work. cbv zeta.
  flow_inv ltac:(idtac; first [ apply seeds_chain | seeds_leaf ]).
Qed.

Lemma seeds_adapt e b s : preserves seeds_in_range s (state_of (adapt env a e b s)).
Proof. unfold adapt. cbv zeta. flow_inv ltac:(idtac; seeds_leaf). Qed.

Lemma seeds_escape_seen e p s : preserves seeds_in_range s (snd (escape_seen env e p s)).
Proof. rewrite escape_seen_frame. apply seeds_same; reflexivity. Qed.

Lemma seeds_batch e b s : preserves seeds_in_range s (state_of (batch env a e b s)).
Proof.
  unfold batch. cbv zeta.
  apply (rel_bind (preserves seeds_in_range) (preserves_trans seeds_in_range)).
  - apply seeds_batch_work.
  - intros s1. pose proof (seeds_escape_seen e (poll_batch e b) s1) as F.
    destruct (escape_seen env e (poll_batch e b) s1) as [esc s2]. cbn [snd] in F.
    destruct esc; [exact F|].
    eapply preserves_trans; [exact F|].
    apply (rel_bind (preserves seeds_in_range) (preserves_trans seeds_in_range)).
    + apply seeds_adapt.
    + intros s3. apply seeds_same; reflexivity.
Qed.

Lemma seeds_batches e s : preserves seeds_in_range s (state_of (batches env a e s)).
Proof.
  unfold batches. cbv zeta. eapply preserves_trans; [|apply preserves_count_up_flow].
  - apply seeds_same; reflexivity.
  - intros. apply seeds_batch.
Qed.

Lemma seeds_shuffle s : preserves seeds_in_range s (shuffle env a s).
Proof.
  pose proof (shuffle_keeps env a s) as K. unfold keeps, outside_shuffle in K.
  apply seeds_same.
  - exact (f_equal (fun t => snd (fst (fst (fst (fst (fst (fst (fst (fst (fst (fst t))))))))))) K).
  - exact (f_equal (fun t => snd (fst t)) K).
Qed.

Lemma seeds_epoch_batches e s :
  preserves seeds_in_range s (state_of (epoch_batches env a e s)).
Proof.
  unfold epoch_batches. cbv zeta.
  eapply preserves_trans; [apply (seeds_same s (set_i_epoch e s)); reflexivity|].
  eapply preserves_trans; [apply seeds_shuffle|].
  apply (rel_bind (preserves seeds_in_range) (preserves_trans seeds_in_range)).
  - seeds_leaf.
  - intros s1. apply seeds_batches.
Qed.

Lemma trace_drain_escape h p x : trace (drain_escape h p x) = trace x.
Proof. unfold drain_escape. destruct (user_pressed_escape h p _). reflexivity. Qed.

Lemma seeds_stall_test e r s : preserves seeds_in_range s (state_of (stall_test a e r s)).
Proof.
  unfold stall_test, ceiling. cbv zeta. flow_inv ltac:(idtac; seeds_leaf).
Qed.

Lemma seeds_epoch_end e s : preserves seeds_in_range s (state_of (epoch_end env a e s)).
Proof.
  unfold epoch_end.
  pose proof (seeds_escape_seen e (poll_epoch e) s) as F.
  destruct (escape_seen env e (poll_epoch e) s) as [esc s1]. cbn [snd] in F.
  eapply preserves_trans; [exact F|]. destruct esc.
  - cbn [state_of]. apply seeds_same; [reflexivity|]. proj. apply trace_drain_escape.
  - cbv zeta.
    apply (rel_bind (preserves seeds_in_range) (preserves_trans seeds_in_range)).
    + seeds_leaf.
    + intros s2. destruct (Qltb _ _).
      * apply preserves_refl.
      * apply seeds_stall_test.
Qed.

Lemma seeds_epoch e s : preserves seeds_in_range s (state_of (epoch env a e s)).
Proof.
  unfold epoch.
  apply (rel_bind (preserves seeds_in_range) (preserves_trans seeds_in_range)).
  - apply rel_end_loop, seeds_epoch_batches.
  - intros s1. apply seeds_epoch_end.
Qed.

Lemma seeds_entry : seeds_in_range (state_of (entry env a)).
Proof.
  unfold entry. cbv zeta. destruct (init_refused _ _); cbn [state_of]; split; proj.
  1,3: unfold in_stream_range; lia.
  all: intros c r [<-|[]] Hs; discriminate Hs.
Qed.

Lemma seeds_training : seeds_in_range (state_of (training env a)).
Proof.
  unfold training. pose proof seeds_entry as H.
  destruct (entry env a) as [s0| |]; cbn [bind state_of] in *; try exact H.
  unfold epochs_from.
  pose proof (preserves_count_up_flow seeds_in_range (epoch env a) seeds_epoch
                (Z.to_nat (max_epochs a)) 0 s0 H) as H1.
  destruct (count_up_flow _ _ _ _); exact H1.
Qed.

Lemma seeds_run : seeds_in_range (state_of (run env a)).
Proof.
  unfold run. pose proof seeds_training as H.
  destruct (training env a) as [s1|r s1|v s1]; cbn [end_loop bind state_of] in *;
    try exact H; revert H;
    match goal with |- _ -> seeds_in_range ?x => change (preserves seeds_in_range s1 x) end;
    cbv zeta; flow_inv ltac:(idtac; seeds_leaf).
Qed.

End Facts.

(** Property X2: every [randnum] that [rbm_cuda] gives to the engine, whatever
    the arguments and whatever the engine answers, is a state of the stream: it
    lies in 1 .. 2147483646, and so does [randnum] where the function ends. *)
Theorem seeds_stay_in_stream env a : seeds_in_range (state_of (run env a)).
Proof. apply seeds_run. Qed.

End RbmInvariants.

Module RbmReturns.
Import Rbm RbmRun RbmMore RbmFacts RbmEscape.

Ltac open_leaf :=
  unfold preserves, still_open; rewrite ?engine_call_state;
  repeat match goal with |- context[if ?c then _ else _] => destruct c end;
  rewrite ?step_stream_eq, ?engine_call_state;
  let H := fresh "H" in
  let c := fresh "c" in
  let Hin := fresh "Hin" in
  intros H c Hin; proj;
  repeat (destruct Hin as [<-|Hin]; [split; [discriminate | intros; discriminate] | ]);
  apply H; exact Hin.

Section Facts.
Variable env : Env.
Variable a : args.

(** *** Failure returns *)

Lemma fails_only_engine_call c p s : fails_only (engine_call env c p s).
Proof.
  unfold engine_call. intros v s'. destruct (_ =? 0); intros H; inversion H. reflexivity.
Qed.

Ltac fails_flow :=
  cbv beta;
  lazymatch goal with
  | |- fails_only (bind _ _) => apply fails_only_bind; [fails_flow | intros ?; fails_flow]
  | |- fails_only (if ?c then _ else _) => destruct c; fails_flow
  | |- fails_only (Go _) => apply fails_only_Go
  | |- fails_only (Brk _ _) => apply fails_only_Brk
  | |- fails_only (engine_call _ _ _ _) => apply fails_only_engine_call
  end.

Lemma fails_only_chain_step e b nb c s : fails_only (chain_step env a e b nb c s).
Proof. unfold chain_step. cbv zeta. fails_flow. Qed.

Lemma fails_only_batch_work e b nb istop s : fails_only (batch_work env a e b nb istop s).
Proof.
  unfold batch_work. cbv zeta.
  apply fails_only_bind; [fails_flow|]. intros s1.
  apply fails_only_bind; [fails_flow|]. intros s2.
  apply fails_only_bind.
  { apply fails_only_count_up_flow. intros. apply fails_only_chain_step. }
  intros s3. fails_flow.
Qed.

Lemma fails_only_adapt e b s : fails_only (adapt env a e b s).
Proof. unfold adapt. cbv zeta. fails_flow. Qed.

Lemma fails_only_batch e b s : fails_only (batch env a e b s).
Proof.
  unfold batch. cbv zeta. apply fails_only_bind; [apply fails_only_batch_work|].
  intros s1. destruct (escape_seen env e (poll_batch e b) s1) as [esc s2].
  destruct esc; [apply fails_only_Brk|].
  apply fails_only_bind; [apply fails_only_adapt|]. intros s3. apply fails_only_Go.
Qed.

Lemma fails_only_epoch_batches e s : fails_only (epoch_batches env a e s).
Proof.
  unfold epoch_batches. cbv zeta. apply fails_only_bind; [apply fails_only_engine_call|].
  intros s1. unfold batches. cbv zeta.
  apply fails_only_count_up_flow. intros. apply fails_only_batch.
Qed.

Lemma fails_only_stall_test e r s : fails_only (stall_test a e r s).
Proof. unfold stall_test. cbv zeta. fails_flow. Qed.

Lemma fails_only_epoch_end e s : fails_only (epoch_end env a e s).
Proof.
  unfold epoch_end. destruct (escape_seen env e (poll_epoch e) s) as [esc s1].
  destruct esc; [apply fails_only_Brk|]. cbv zeta.
  apply fails_only_bind; [apply fails_only_engine_call|]. intros s2.
  destruct (Qltb _ _); [apply fails_only_Brk | apply fails_only_stall_test].
Qed.

Lemma fails_only_epoch e s : fails_only (epoch env a e s).
Proof.
  unfold epoch. apply fails_only_bind.
  - apply fails_only_end_loop, fails_only_epoch_batches.
  - intros s1. apply fails_only_epoch_end.
Qed.

Lemma fails_only_entry : fails_only (entry env a).
Proof.
  unfold entry. cbv zeta. intros v s. destruct (init_refused _ _); intros H; inversion H.
  reflexivity.
Qed.

Lemma fails_only_training : fails_only (training env a).
Proof.
  unfold training. apply fails_only_bind; [apply fails_only_entry|]. intros s0.
  unfold epochs_from.
  pose proof (fails_only_count_up_flow (epoch env a) fails_only_epoch
                (Z.to_nat (max_epochs a)) 0 s0) as H.
  destruct (count_up_flow _ _ _ _); [apply fails_only_Go | apply fails_only_Brk | exact H].
Qed.

(** *** The download and the cleanup come last *)

Lemma open_chain_step e b nb c s :
  preserves still_open s (state_of (chain_step env a e b nb c s)).
Proof. unfold chain_step. cbv zeta. flow_inv ltac:(idtac; open_leaf). Qed.

Lemma open_chain e b nb n s :
  preserves still_open s (state_of (for_flow n (chain_step env a e b nb) s)).
Proof. apply preserves_count_up_flow. intros. apply open_chain_step. Qed.

Lemma open_batch_work e b nb istop s :
  preserves still_open s (state_of (batch_work env a e b nb istop s)).
Proof.
  unfold batch_work. cbv zeta.
  flow_inv ltac:(idtac; first [ apply open_chain | open_leaf ]).
Qed.

Lemma open_adapt e b s : preserves still_open s (state_of (adapt env a e b s)).
Proof. unfold adapt. cbv zeta. flow_inv ltac:(idtac; open_leaf). Qed.

Lemma open_same s s' : trace (ext s') = trace (ext s) -> preserves still_open s s'.
Proof. intros E H. unfold still_open. rewrite E. exact H. Qed.

Lemma open_escape_seen e p s : preserves still_open s (snd (escape_seen env e p s)).
Proof. rewrite escape_seen_frame. apply open_same. reflexivity. Qed.

Lemma open_batch e b s : preserves still_open s (state_of (batch env a e b s)).
Proof.
  unfold batch. cbv zeta.
  apply (rel_bind (preserves still_open) (preserves_trans still_open)).
  - apply open_batch_work.
  - intros s1. pose proof (open_escape_seen e (poll_batch e b) s1) as F.
    destruct (escape_seen env e (poll_batch e b) s1) as [esc s2]. cbn [snd] in F.
    destruct esc; [exact F|].
    eapply preserves_trans; [exact F|].
    apply (rel_bind (preserves still_open) (preserves_trans still_open)).
    + apply open_adapt.
    + intros s3. apply open_same; reflexivity.
Qed.

Lemma open_epoch_batches e s :
  preserves still_open s (state_of (epoch_batches env a e s)).
Proof.
  unfold epoch_batches. cbv zeta.
  eapply preserves_trans; [apply (open_same s (shuffle env a (set_i_epoch e s)))|].
  { pose proof (shuffle_keeps env a (set_i_epoch e s)) as K.
    unfold keeps, outside_shuffle in K.
    exact (f_equal (fun t => snd (fst t)) K). }
  apply (rel_bind (preserves still_open) (preserves_trans still_open)).
  - open_leaf.
  - intros s1. unfold batches. cbv zeta.
    eapply preserves_trans; [|apply preserves_count_up_flow; intros; apply open_batch].
    apply open_same; reflexivity.
Qed.

Lemma open_epoch_end e s : preserves still_open s (state_of (epoch_end env a e s)).
Proof.
  unfold epoch_end.
  pose proof (open_escape_seen e (poll_epoch e) s) as F.
  destruct (escape_seen env e (poll_epoch e) s) as [esc s1]. cbn [snd] in F.
  eapply preserves_trans; [exact F|]. destruct esc.
  - cbn [state_of]. apply open_same. proj. apply RbmInvariants.trace_drain_escape.
  - cbv zeta.
    apply (rel_bind (preserves still_open) (preserves_trans still_open)).
    + open_leaf.
    + intros s2. destruct (Qltb _ _); [apply preserves_refl|].
      unfold stall_test, ceiling. cbv zeta. flow_inv ltac:(idtac; open_leaf).
Qed.

Lemma open_epoch e s : preserves still_open s (state_of (epoch env a e s)).
Proof.
  unfold epoch.
  apply (rel_bind (preserves still_open) (preserves_trans still_open)).
  - apply rel_end_loop, open_epoch_batches.
  - intros s1. apply open_epoch_end.
Qed.

Lemma open_training : still_open (state_of (training env a)).
Proof.
  assert (H : still_open (state_of (entry env a))).
  { unfold entry. cbv zeta. destruct (init_refused _ _); cbn [state_of];
      intros c [<-|[]]; split; [discriminate | intros; discriminate
                               | discriminate | intros; discriminate]. }
  unfold training.
  destruct (entry env a) as [s0| |]; cbn [bind state_of] in *; try exact H.
  unfold epochs_from.
  pose proof (preserves_count_up_flow still_open (epoch env a) open_epoch
                (Z.to_nat (max_epochs a)) 0 s0 H) as H1.
  destruct (count_up_flow _ _ _ _); exact H1.
Qed.

End Facts.

(** Property X3: [rbm_cuda] always returns. Either it returns -1.0 and has not
    called [rbm_cuda_cleanup] (no failure path cleans up), or its last two
    engine calls are the download of the parameters and the cleanup, neither of
    which was called before, the download succeeded and the value returned is
    [most_recent_correct_error]. *)
Theorem cleanup_only_on_completion env a :
  exists v s,
    run env a = Ret v s
    /\ ((v = Some (-1)%Q /\ ~ In rbm_cuda_cleanup (trace (ext s)))
        \/ (v = most_recent_correct_error s
            /\ status (engine env) at_params_from_device = 0
            /\ exists l,
                 trace (ext s)
                 = rbm_cuda_cleanup :: cuda_params_from_device a.(n_inputs) a.(nhid) :: l
                 /\ forall c, In c l ->
                      c <> rbm_cuda_cleanup
                      /\ forall n h, c <> cuda_params_from_device n h)).
Proof.
  pose proof (open_training env a) as Ho. pose proof (fails_only_training env a) as Hf.
  unfold run.
  destruct (training env a) as [s1|r s1|v s1]; cbn [end_loop bind state_of] in *.
  3: { exists v, s1. split; [reflexivity|]. left. split; [eapply Hf; reflexivity|].
       intros Hin. apply Ho in Hin. destruct Hin as [Hin _]. apply Hin. reflexivity. }
  all: unfold engine_call; destruct (Z.eqb_spec (status (engine env) at_params_from_device) 0)
         as [E|E]; cbn [bind]; cbv zeta; eexists; eexists; (split; [reflexivity|]).
  1,3: right; split; [reflexivity|]; split; [exact E|]; proj; eexists;
       (split; [reflexivity|]); exact Ho.
  all: left; split; [reflexivity|]; proj; intros [Hin|Hin]; [discriminate Hin|];
       apply Ho in Hin; destruct Hin as [Hin _]; apply Hin; reflexivity.
Qed.

End RbmReturns.

Module RbmValue.
Import Rbm RbmRun RbmMore RbmFacts RbmEscape RbmReturns.

Section Facts.
Variable env : Env.
Variable a : args.

(** Epoch 0 is never left through ESCape. *)
Lemma epoch_0_Brk s why s' :
  epoch env a 0 s = Brk why s' -> most_recent_correct_error s' <> None.
Proof.
  intros H. pose proof (epoch_Brk env a 0 s why s' H) as (_ & _ & _ & Hr).
  destruct Hr as [[-> _] | [_ ->]]; [|discriminate].
  exfalso. unfold epoch in H. apply bind_Brk in H.
  destruct H as [H | (s1 & H1 & H)].
  { destruct (epoch_batches env a 0 s); discriminate. }
  unfold epoch_end in H. rewrite escape_seen_0 in H. cbv zeta in H.
  apply bind_Brk in H. destruct H as [H | (s2 & _ & H)].
  { exact (no_Brk_engine_call _ _ _ _ _ _ H). }
  destruct (Qltb _ _); [discriminate|].
  apply stall_test_Brk in H. destruct H as [H _]. discriminate.
Qed.

Lemma epochs_keep_error n i s :
  most_recent_correct_error s <> None ->
  match count_up_flow n i (epoch env a) s with
  | Go s' | Brk _ s' => most_recent_correct_error s' <> None
  | Ret _ _ => True
  end.
Proof.
  revert i s. induction n as [|n IH]; intros i s Hs; cbn [count_up_flow].
  - exact Hs.
  - destruct (epoch env a i s) as [s1|why s1|v s1] eqn:E.
    + apply IH. apply epoch_Go in E. destruct E as (_ & _ & -> & _). discriminate.
    + apply epoch_Brk in E. destruct E as (_ & _ & _ & [[_ ->] | [_ ->]]);
        [exact Hs | discriminate].
    + exact I.
Qed.

Lemma training_error_assigned :
  1 <= a.(max_epochs) ->
  match training env a with
  | Go s' | Brk _ s' => most_recent_correct_error s' <> None
  | Ret _ _ => True
  end.
Proof.
  intros Hm. unfold training, entry. cbv zeta.
  destruct (init_refused _ _); cbn [bind]; [exact I|].
  match goal with |- context[epochs_from _ _ _ _ ?s] => generalize s end. intros s0.
  unfold epochs_from.
  replace (Z.to_nat (max_epochs a)) with (S (Z.to_nat (max_epochs a) - 1)) by lia.
  cbn [count_up_flow].
  destruct (epoch env a 0 s0) as [s1|why s1|v s1] eqn:E.
  - assert (H1 : most_recent_correct_error s1 <> None).
    { apply epoch_Go in E. destruct E as (_ & _ & -> & _). discriminate. }
    pose proof (epochs_keep_error (Z.to_nat (max_epochs a) - 1) (0 + 1) s1 H1) as H.
    destruct (count_up_flow _ _ _ _); exact H.
  - eapply epoch_0_Brk; eassumption.
  - exact I.
Qed.

Lemma run_of_training s :
  end_loop (training env a) = Go s ->
  status (engine env) at_params_from_device = 0 ->
  rbm_cuda env a = most_recent_correct_error s.
Proof.
  intros H Hd. unfold rbm_cuda, run. rewrite H. cbn [bind].
  unfold engine_call. rewrite Hd. reflexivity.
Qed.

End Facts.

(** Property X4: with one epoch or more to run, [rbm_cuda] returns a value that
    was assigned: -1.0 or the error of an epoch. With [max_epochs <= 0], an
    engine that accepts the initialisation and the download makes it return
    [most_recent_correct_error] without ever having assigned it. *)
Theorem returned_value_is_assigned env a :
  (1 <= a.(max_epochs) -> exists v, rbm_cuda env a = Some v)
  /\ (a.(max_epochs) <= 0 ->
      init_refused env (status (engine env) at_init) = false ->
      status (engine env) at_params_from_device = 0 ->
      rbm_cuda env a = None).
Proof.
  split.
  - intros Hm. pose proof (training_error_assigned env a Hm) as H.
    pose proof (fails_only_training env a) as Hf.
    unfold rbm_cuda, run.
    destruct (training env a) as [s1|r s1|v s1]; cbn [end_loop bind].
    3: { exists (-1)%Q. f_equal. rewrite (Hf v s1 eq_refl). reflexivity. }
    all: unfold engine_call; destruct (_ =? 0); cbn [bind]; cbv zeta; proj;
      [ destruct (most_recent_correct_error s1) as [v|]; [exists v; reflexivity|];
        contradiction H; reflexivity
      | exists (-1)%Q; reflexivity ].
  - intros Hm Hi Hd. unfold rbm_cuda, run, training, entry. cbv zeta. rewrite Hi.
    cbn [bind]. unfold epochs_from.
    replace (Z.to_nat (max_epochs a)) with O by lia. cbn [count_up_flow end_loop bind].
    unfold engine_call. rewrite Hd. reflexivity.
Qed.

Lemma returned_value_is_assigned_witness :
  (exists v, rbm_cuda steady_run two_epochs = Some v)
  /\ rbm_cuda steady_run no_epochs = None.
Proof.
  split.
  - apply (proj1 (returned_value_is_assigned steady_run two_epochs)).
    unfold two_epochs. cbn. lia.
  - apply (proj2 (returned_value_is_assigned steady_run no_epochs)).
    + unfold no_epochs. cbn. lia.
    + reflexivity.
    + reflexivity.
Defined.

(** Property X5: when the epoch loop is left by convergence or by the stall test
    in epoch [e], or runs all its [max_epochs] epochs, and the last epoch ran
    all its batches, [rbm_cuda] returns the error summed over the batches of
    that last epoch, over [nc * n_inputs], provided the closing download of the
    parameters succeeds. *)
Theorem returns_error_of_last_epoch env a :
  status (engine env) at_params_from_device = 0 ->
  (forall (e : nat) s why s',
      locals_at env a e = Some s -> Z.of_nat e < a.(max_epochs) ->
      epoch env a (Z.of_nat e) s = Brk why s' -> why <> escape_pressed ->
      escape_during env a e = false ->
      exists v, reconstruction_error env a e = Some v /\ rbm_cuda env a = Some v)
  /\ (forall (e : nat) s,
        Z.of_nat (S e) = a.(max_epochs) ->
        locals_at env a (S e) = Some s ->
        escape_during env a e = false ->
        exists v, reconstruction_error env a e = Some v /\ rbm_cuda env a = Some v).
Proof.
  intros Hd. split.
  - intros e s why s' Hs Hlt E Hw Hesc.
    pose proof (epoch_Brk env a _ _ _ _ E) as (_ & _ & _ & Hr).
    destruct Hr as [[-> _] | [_ Hr]]; [contradiction Hw; reflexivity|].
    unfold escape_during, reconstruction_error, batches_at in *. rewrite Hs in *.
    destruct (epoch_batches env a (Z.of_nat e) s) as [sb|r sb|v sb] eqn:Hb.
    + exists (normalized a sb). split; [reflexivity|].
      rewrite (run_of_training env a s').
      * exact Hr.
      * rewrite (training_leaves env a _ _ _ _ Hs Hlt E). reflexivity.
      * exact Hd.
    + apply epoch_batches_Brk in Hb. destruct Hb as (-> & _). discriminate.
    + unfold epoch in E. rewrite Hb in E. discriminate.
  - intros e s Hm Hs Hesc.
    destruct (locals_at_S _ _ _ _ Hs) as (sp & Hsp & Ep).
    pose proof (epoch_Go env a _ _ _ Ep) as (_ & _ & Hr & _).
    unfold escape_during, reconstruction_error, batches_at in *. rewrite Hsp in *.
    destruct (epoch_batches env a (Z.of_nat e) sp) as [sb|r sb|v sb] eqn:Hb.
    + exists (normalized a sb). split; [reflexivity|].
      assert (T : exists s1, end_loop (training env a) = Go s1
                             /\ most_recent_correct_error s1 = most_recent_correct_error s).
      { destruct (locals_at_count env a _ _ Hs) as (s0 & H0 & Hc).
        unfold training. rewrite H0. cbn [bind]. unfold epochs_from.
        replace (Z.to_nat (max_epochs a)) with (S e + 0)%nat by lia.
        rewrite Hc. cbn [count_up_flow end_loop]. eexists. split; reflexivity. }
      destruct T as (s1 & T & K).
      rewrite (run_of_training env a s1 T Hd), K, Hr. reflexivity.
    + apply epoch_batches_Brk in Hb. destruct Hb as (-> & _). discriminate.
    + unfold epoch in Ep. rewrite Hb in Ep. discriminate.
Qed.

Lemma returns_error_of_last_epoch_witness :
  (exists v, reconstruction_error settled_run one_batch 0 = Some v
             /\ rbm_cuda settled_run one_batch = Some v)
  /\ (exists v, reconstruction_error steady_run two_epochs 1 = Some v
                /\ rbm_cuda steady_run two_epochs = Some v).
Proof.
  split.
  - eapply (proj1 (returns_error_of_last_epoch settled_run one_batch eq_refl) 0%nat
              (state_of (entry settled_run one_batch)) converged).
    + vm_compute. reflexivity.
    + reflexivity.
    + vm_compute. reflexivity.
    + discriminate.
    + vm_compute. reflexivity.
  - eapply (proj2 (returns_error_of_last_epoch steady_run two_epochs eq_refl) 1%nat).
    + reflexivity.
    + vm_compute. reflexivity.
    + vm_compute. reflexivity.
Defined.

End RbmValue.

(** ** The shuffle *)

Lemma int_of_double_nonneg x : (0 <= x)%Q -> 0 <= int_of_double x.
Proof.
  unfold Qle, int_of_double. cbn. intros H. apply Z.quot_pos; lia.
Qed.

Lemma int_of_double_le x n : (0 <= x)%Q -> (x <= inject_Z n)%Q -> int_of_double x <= n.
Proof.
  unfold Qle, int_of_double. cbn. intros H0 H.
  rewrite Z.quot_div_nonneg by lia.
  apply Z.div_le_upper_bound; lia.
Qed.

(** A product that line 445 casts is an [int] between 0 and [i]. *)
Lemma cast_of_draw u i :
  (0 <= u <= 1)%Q -> 0 <= i ->
  0 <= int_of_double (u * double_of_int i)%Q <= i.
Proof.
  intros [H0 H1] Hi.
  assert (Hq : (0 <= double_of_int i)%Q).
  { unfold double_of_int. change 0%Q with (inject_Z 0). rewrite <- Zle_Qle. exact Hi. }
  split.
  - apply int_of_double_nonneg. apply Qmult_le_0_compat; assumption.
  - apply int_of_double_le.
    + apply Qmult_le_0_compat; assumption.
    + unfold double_of_int in *.
      setoid_replace (inject_Z i) with (1 * inject_Z i)%Q at 2 by ring.
      apply Qmult_le_compat_r; assumption.
Qed.

Lemma permutes_swap n f i j :
  0 <= i < n -> 0 <= j < n -> permutes n f ->
  permutes n (store (store f i (f j)) j (f i)).
Proof.
  intros Hi Hj (g & Hf & Hg).
  exists (fun v => if v =? f i then j else if v =? f j then i else g v).
  split.
  - intros x Hx. rewrite !store_at.
    destruct (Z.eqb_spec x j) as [->|Nj].
    + split; [apply Hf; exact Hi|]. rewrite Z.eqb_refl. reflexivity.
    + destruct (Z.eqb_spec x i) as [->|Ni].
      * split; [apply Hf; exact Hj|].
        destruct (Z.eqb_spec (f j) (f i)) as [E|_].
        -- pose proof (proj2 (Hf i Hi)). pose proof (proj2 (Hf j Hj)). congruence.
        -- rewrite Z.eqb_refl. reflexivity.
      * split; [apply Hf; exact Hx|].
        pose proof (proj2 (Hf x Hx)). pose proof (proj2 (Hf i Hi)).
        pose proof (proj2 (Hf j Hj)).
        destruct (Z.eqb_spec (f x) (f i)); [congruence|].
        destruct (Z.eqb_spec (f x) (f j)); [congruence|]. assumption.
  - intros v Hv. rewrite !store_at.
    destruct (Z.eqb_spec v (f i)) as [->|Ni].
    + split; [exact Hj|]. rewrite Z.eqb_refl. reflexivity.
    + destruct (Z.eqb_spec v (f j)) as [->|Nj].
      * split; [exact Hi|].
        destruct (Z.eqb_spec i j) as [->|_]; [contradiction Ni; reflexivity|].
        rewrite Z.eqb_refl. reflexivity.
      * destruct (Hg v Hv) as (Hr & E). split; [exact Hr|].
        destruct (Z.eqb_spec (g v) j) as [Ej|_]; [rewrite Ej in E; congruence|].
        destruct (Z.eqb_spec (g v) i) as [Ei|_]; [rewrite Ei in E; congruence|].
        exact E.
Qed.

Module RbmShuffle.
Import Rbm RbmRun RbmMore RbmFacts.

Ltac same_leaf :=
  unfold keeps; rewrite ?engine_call_state;
  repeat match goal with |- context[if ?c then _ else _] => destruct c end;
  rewrite ?step_stream_eq; reflexivity.

Ltac same_flow :=
  cbv beta;
  lazymatch goal with
  | |- keeps ?f _ (state_of (bind _ _)) =>
      apply (rel_bind (keeps f) (keeps_trans f)); [ same_flow | intros ?; same_flow ]
  | |- _ => same_leaf
  end.

Lemma shuffled_after_batches env a e s :
  keeps shuffled s (state_of (batches env a e s)).
Proof.
  pose proof (batches_keeps env a e s) as K. apply outside_batches_inv in K.
  destruct K as (_ & _ & _ & _ & _ & K1 & K2). unfold keeps, shuffled. congruence.
Qed.

Lemma n_unif_drain_escape h p x : n_unif (drain_escape h p x) = n_unif x.
Proof. unfold drain_escape. destruct (user_pressed_escape h p _). reflexivity. Qed.

Lemma shuffled_after_epoch_end env a e s :
  keeps shuffled s (state_of (epoch_end env a e s)).
Proof.
  unfold epoch_end. pose proof (escape_seen_frame env e (poll_epoch e) s) as F.
  destruct (escape_seen env e (poll_epoch e) s) as [esc s1]. cbn [snd] in F.
  assert (K : keeps shuffled s s1) by (rewrite F; reflexivity).
  eapply keeps_trans; [exact K|]. destruct esc.
  - unfold keeps, shuffled. proj. rewrite n_unif_drain_escape. reflexivity.
  - cbv zeta. apply (rel_bind (keeps shuffled) (keeps_trans shuffled)); [same_leaf|].
    intros s2. destruct (Qltb _ _); [reflexivity|].
    unfold stall_test, ceiling. cbv zeta. same_flow.
Qed.

Lemma shuffled_after_epoch env a e s :
  keeps shuffled (shuffle env a (set_i_epoch e s)) (state_of (epoch env a e s)).
Proof.
  unfold epoch, epoch_batches. cbv zeta.
  set (s1 := shuffle env a (set_i_epoch e s)).
  apply (rel_bind (keeps shuffled) (keeps_trans shuffled)).
  - apply rel_end_loop.
    apply (rel_bind (keeps shuffled) (keeps_trans shuffled)); [same_leaf|].
    intros s2. apply shuffled_after_batches.
  - intros s2. apply shuffled_after_epoch_end.
Qed.

Section Facts.
Variable env : Env.
Variable a : args.
Hypothesis draws_nonneg : forall n, (0 <= unifrand_fast (host env) n)%Q.

Lemma shuffle_loop_permutes n fuel i s :
  Z.of_nat fuel <= i - 1 -> i <= n ->
  permutes n (shuffle_index s) ->
  permutes n (shuffle_index (shuffle_loop env fuel i s))
  /\ (forall x, ~ 0 <= x < n ->
        shuffle_index (shuffle_loop env fuel i s) x = shuffle_index s x)
  /\ n_unif (ext (shuffle_loop env fuel i s)) = (n_unif (ext s) + fuel)%nat.
Proof.
  revert i s. induction fuel as [|fuel IH]; intros i s Hf Hi Hp.
  - cbn [shuffle_loop]. split; [exact Hp|]. split; [reflexivity | lia].
  - cbn [shuffle_loop]. unfold draw. cbv zeta. proj.
    set (u := unifrand_fast (host env) (n_unif (ext s))).
    set (j0 := int_of_double (u * double_of_int i)%Q).
    assert (H0 : 0 <= j0).
    { apply int_of_double_nonneg. apply Qmult_le_0_compat; [apply draws_nonneg|].
      unfold double_of_int, Qle. cbn. lia. }
    set (j := if j0 >=? i then i - 1 else j0).
    assert (Hj : 0 <= j <= i - 1).
    { unfold j. destruct (Z.geb_spec j0 i); lia. }
    match goal with |- context[shuffle_loop env fuel (i - 1) ?st] => set (s1 := st) end.
    assert (E1 : shuffle_index s1
                 = store (store (shuffle_index s) (i - 1) (shuffle_index s j)) j
                     (shuffle_index s (i - 1))) by reflexivity.
    assert (U1 : n_unif (ext s1) = S (n_unif (ext s))) by reflexivity.
    destruct (IH (i - 1) s1 ltac:(lia) ltac:(lia)) as (P & O & U).
    { rewrite E1. apply permutes_swap; [lia | lia | exact Hp]. }
    split; [exact P|]. split.
    + intros x Hx. rewrite (O x Hx), E1, !store_at.
      destruct (Z.eqb_spec x j); [lia|]. destruct (Z.eqb_spec x (i - 1)); [lia|].
      reflexivity.
    + rewrite U, U1. lia.
Qed.

Lemma shuffle_permutes s :
  permutes a.(nc) (shuffle_index s) ->
  permutes a.(nc) (shuffle_index (shuffle env a s))
  /\ (forall x, ~ 0 <= x < a.(nc) ->
        shuffle_index (shuffle env a s) x = shuffle_index s x)
  /\ n_unif (ext (shuffle env a s)) = (n_unif (ext s) + Z.to_nat (a.(nc) - 1))%nat.
Proof.
  intros Hp. unfold shuffle. destruct (Z.le_gt_cases a.(nc) 0) as [H|H].
  - replace (Z.to_nat (a.(nc) - 1)) with O by lia. cbn [shuffle_loop].
    split; [exact Hp|]. split; [reflexivity | lia].
  - apply shuffle_loop_permutes; [lia | lia | exact Hp].
Qed.

Lemma entry_identity s :
  entry env a = Go s ->
  permutes a.(nc) (shuffle_index s)
  /\ (forall x, ~ 0 <= x < a.(nc) -> shuffle_index s x = a.(shuffle_index0) x)
  /\ n_unif (ext s) = O.
Proof.
  unfold entry. cbv zeta. destruct (init_refused _ _); intros H; inversion H; subst s.
  proj. clear H.
  assert (E : forall x, for_ a.(nc) (fun icase si => store si icase icase)
                          a.(shuffle_index0) x
                        = if (0 <=? x) && (x <? a.(nc)) then x else a.(shuffle_index0) x).
  { intros x. apply (for_at _ (fun i _ => i)). intros i f j. rewrite store_at. reflexivity. }
  split; [|split; [|reflexivity]].
  - exists (fun v => v). split; intros x Hx; rewrite E;
      destruct (Z.leb_spec 0 x), (Z.ltb_spec x a.(nc)); cbn [andb]; lia.
  - intros x Hx. rewrite E.
    destruct (Z.leb_spec 0 x), (Z.ltb_spec x a.(nc)); cbn [andb]; try reflexivity. lia.
Qed.

Lemma locals_at_shuffled (e : nat) s :
  locals_at env a e = Some s ->
  permutes a.(nc) (shuffle_index s)
  /\ (forall x, ~ 0 <= x < a.(nc) -> shuffle_index s x = a.(shuffle_index0) x)
  /\ n_unif (ext s) = (e * Z.to_nat (a.(nc) - 1))%nat.
Proof.
  revert s. induction e as [|e IH]; intros s H.
  - cbn [locals_at] in H. destruct (entry env a) as [s0| |] eqn:E; inversion H; subst s0.
    destruct (entry_identity s E) as (P & O & U). split; [exact P|]. split; [exact O|].
    rewrite U. reflexivity.
  - apply locals_at_S in H. destruct H as (s0 & H0 & E).
    destruct (IH s0 H0) as (P & O & U).
    pose proof (shuffled_after_epoch env a (Z.of_nat e) s0) as K. rewrite E in K.
    unfold keeps, shuffled in K. cbn [state_of] in K. injection K as K1 K2.
    destruct (shuffle_permutes (set_i_epoch (Z.of_nat e) s0) P) as (P1 & O1 & U1).
    rewrite K1, K2. split; [exact P1|]. split.
    + intros x Hx. rewrite (O1 x Hx). apply O. exact Hx.
    + rewrite U1. proj. rewrite U. lia.
Qed.

End Facts.

(** Property X6: with draws in [0, 1] and [nc] an [int], every product that
    line 445 casts to [int] is an [int], between 0 and the number [i] of cases
    left, and the shuffle keeps [shuffle_index] a one-to-one arrangement of the
    case numbers 0 .. nc-1: at the start of every epoch and in what every epoch
    gives to [cuda_shuffle_to_device]. It never writes outside these [nc]
    entries, and it takes [nc - 1] draws an epoch, no other part of the
    function drawing any. *)
Theorem shuffle_index_is_permutation env a :
  (forall n, (0 <= unifrand_fast (host env) n <= 1)%Q) ->
  a.(nc) <= 2147483647 ->
  (forall n i, 0 <= i <= a.(nc) ->
     0 <= int_of_double (unifrand_fast (host env) n * double_of_int i)%Q <= i
     /\ i <= 2147483647)
  /\ forall (e : nat) s,
       locals_at env a e = Some s ->
       permutes a.(nc) (shuffle_index s)
       /\ permutes a.(nc) (shuffle_index (shuffle env a (set_i_epoch (Z.of_nat e) s)))
       /\ (forall x, ~ 0 <= x < a.(nc) ->
             shuffle_index (shuffle env a (set_i_epoch (Z.of_nat e) s)) x
             = a.(shuffle_index0) x)
       /\ n_unif (ext s) = (e * Z.to_nat (a.(nc) - 1))%nat.
Proof.
  intros Hu Hnc. split.
  { intros n i Hi. split; [|lia]. apply cast_of_draw; [apply Hu | lia]. }
  assert (Hu0 : forall n, (0 <= unifrand_fast (host env) n)%Q).
  { intros n. apply Hu. }
  intros e s H.
  destruct (locals_at_shuffled env a Hu0 e s H) as (P & O & U).
  destruct (shuffle_permutes env a Hu0 (set_i_epoch (Z.of_nat e) s) P) as (P1 & O1 & _).
  split; [exact P|]. split; [exact P1|]. split; [|exact U].
  intros x Hx. rewrite (O1 x Hx). apply O. exact Hx.
Qed.

(** Four cases and draws of 0.5: after epoch 0 the index is an arrangement of
    0 .. 3 and three draws are taken. *)
Lemma shuffle_index_is_permutation_witness :
  permutes 4 (shuffle_index (state_of (epoch steady_run two_batches 0
                                         (state_of (entry steady_run two_batches)))))
  /\ n_unif (ext (state_of (epoch steady_run two_batches 0
                              (state_of (entry steady_run two_batches))))) = 3%nat.
Proof.
  destruct (proj2 (shuffle_index_is_permutation steady_run two_batches
                     ltac:(intros n; split; unfold Qle; cbn; lia)
                     ltac:(unfold two_batches; cbn; lia)) 1%nat
              (state_of (epoch steady_run two_batches 0
                           (state_of (entry steady_run two_batches))))
              ltac:(vm_compute; reflexivity)) as (P & _ & _ & U).
  split; [exact P | exact U].
Defined.

End RbmShuffle.

Module RbmRates.
Import Rbm RbmRun RbmMore RbmFacts.

Ltac rates_leaf :=
  unfold preserves, rates_bounded; rewrite ?engine_call_state;
  repeat match goal with |- context[if ?c then _ else _] => destruct c end;
  rewrite ?step_stream_eq, ?engine_call_state;
  let Hl := fresh "Hl" in
  let Hm := fresh "Hm" in
  let Ht := fresh "Ht" in
  intros (Hl & Hm & Ht); proj; split; [exact Hl | split; [exact Hm|]];
  let c := fresh "c" in
  let r := fresh "r" in
  let m := fresh "m" in
  let Hin := fresh "Hin" in
  let Hs := fresh "Hs" in
  intros c r m Hin Hs;
  repeat (destruct Hin as [<-|Hin];
          [ cbn [rate_of] in Hs;
            first [ discriminate Hs | inversion Hs; subst; split; assumption ] | ]);
  eapply Ht; eassumption.

Section Facts.
Variable env : Env.
Variable a : args.
Variable b : double.
Hypothesis end_bounded : (0 <= a.(end_momentum) <= b)%Q.

Lemma rates_same s s' :
  learning_rate s' = learning_rate s -> momentum s' = momentum s ->
  trace (ext s') = trace (ext s) -> preserves (rates_bounded b) s s'.
Proof.
  intros E1 E2 E3 (Hl & Hm & Ht). unfold rates_bounded. rewrite E1, E2, E3. auto.
Qed.

Lemma rates_set s r m :
  in_rate_range r -> (0 <= m <= b)%Q ->
  preserves (rates_bounded b) s (set_momentum m (set_learning_rate r s)).
Proof. intros Hr Hm (_ & _ & Ht). split; [exact Hr|]. split; [exact Hm | exact Ht]. Qed.

Lemma rates_chain_step e bt nb c s :
  preserves (rates_bounded b) s (state_of (chain_step env a e bt nb c s)).
Proof. unfold chain_step. cbv zeta. flow_inv ltac:(idtac; rates_leaf). Qed.

Lemma rates_chain e bt nb n s :
  preserves (rates_bounded b) s (state_of (for_flow n (chain_step env a e bt nb) s)).
Proof. apply preserves_count_up_flow. intros. apply rates_chain_step. Qed.

Lemma rates_batch_work e bt nb istop s :
  preserves (rates_bounded b) s (state_of (batch_work env a e bt nb istop s)).
Proof.
  unfold batch_work. cbv zeta.
  flow_inv ltac:(idtac; first [ apply rates_chain | rates_leaf ]).
Qed.

Lemma damped (m : Q) : (0 <= m <= b)%Q -> (0 <= m / 1.5 <= b)%Q.
Proof.
  intros H. unfold Qdiv. assert (E : (/ 1.5 == 2 # 3)%Q) by reflexivity. rewrite E. lra.
Qed.

Lemma rates_adapt e bt s : preserves (rates_bounded b) s (state_of (adapt env a e bt s)).
Proof.
  unfold adapt. destruct (_ && _).
  - flow_inv ltac:(idtac; rates_leaf).
  - cbv zeta. apply (rel_bind (preserves (rates_bounded b)) (preserves_trans (rates_bounded b))); [rates_leaf|].
    intros s1. cbn [state_of].
    match goal with |- context[adapt_rate ?d _] => generalize d end. intros d.
    intros (Hl & Hm & Ht).
    destruct (Qltb 0.3 (fabs d)).
    + split; [apply adapt_rate_range|]. split; [apply damped; exact Hm | exact Ht].
    + split; [apply adapt_rate_range|]. split; [exact Hm | exact Ht].
Qed.

Lemma rates_escape_seen e p s : preserves (rates_bounded b) s (snd (escape_seen env e p s)).
Proof. rewrite escape_seen_frame. apply rates_same; reflexivity. Qed.

Lemma rates_batch e bt s : preserves (rates_bounded b) s (state_of (batch env a e bt s)).
Proof.
  unfold batch. cbv zeta.
  apply (rel_bind (preserves (rates_bounded b)) (preserves_trans (rates_bounded b))).
  - apply rates_batch_work.
  - intros s1. pose proof (rates_escape_seen e (poll_batch e bt) s1) as F.
    destruct (escape_seen env e (poll_batch e bt) s1) as [esc s2]. cbn [snd] in F.
    destruct esc; [exact F|].
    eapply preserves_trans; [exact F|].
    apply (rel_bind (preserves (rates_bounded b)) (preserves_trans (rates_bounded b))).
    + apply rates_adapt.
    + intros s3. apply rates_same; reflexivity.
Qed.

Lemma rates_epoch_batches e s : preserves (rates_bounded b) s (state_of (epoch_batches env a e s)).
Proof.
  unfold epoch_batches. cbv zeta.
  pose proof (shuffle_keeps env a (set_i_epoch e s)) as K.
  unfold keeps, outside_shuffle in K.
  eapply preserves_trans; [apply (rates_same s (shuffle env a (set_i_epoch e s)))|].
  - exact (f_equal (fun t => snd (fst (fst (fst (fst (fst (fst (fst (fst (fst t)))))))))) K).
  - exact (f_equal (fun t => snd (fst (fst (fst (fst (fst (fst (fst (fst t))))))))) K).
  - exact (f_equal (fun t => snd (fst t)) K).
  - idtac.
    apply (rel_bind (preserves (rates_bounded b)) (preserves_trans (rates_bounded b))).
    + rates_leaf.
    + intros s1. unfold batches. cbv zeta.
      eapply preserves_trans; [|apply preserves_count_up_flow; intros; apply rates_batch].
      apply rates_same; reflexivity.
Qed.

Lemma ceiling_bounded n c s :
  in_rate_range c -> preserves (rates_bounded b) s (ceiling n c s).
Proof.
  intros Hc (Hl & Hm & Ht). unfold ceiling. destruct (_ && _).
  - split; [exact Hc|]. split; [exact Hm | exact Ht].
  - split; [exact Hl|]. split; [exact Hm | exact Ht].
Qed.

Lemma rates_stall_test e r s : preserves (rates_bounded b) s (state_of (stall_test a e r s)).
Proof.
  unfold stall_test.
  apply (rel_bind (preserves (rates_bounded b)) (preserves_trans (rates_bounded b))).
  - flow_inv ltac:(idtac; rates_leaf).
  - intros s1. cbv zeta. cbn [state_of].
    repeat (eapply preserves_trans; [|apply ceiling_bounded; unfold in_rate_range; lra]).
    intros (Hl & Hm & Ht). split; [exact Hl|]. split; [|exact Ht]. proj. lra.
Qed.

Lemma rates_epoch_end e s : preserves (rates_bounded b) s (state_of (epoch_end env a e s)).
Proof.
  unfold epoch_end.
  pose proof (rates_escape_seen e (poll_epoch e) s) as F.
  destruct (escape_seen env e (poll_epoch e) s) as [esc s1]. cbn [snd] in F.
  eapply preserves_trans; [exact F|]. destruct esc.
  - cbn [state_of]. apply rates_same; try reflexivity. proj.
    apply RbmInvariants.trace_drain_escape.
  - cbv zeta. apply (rel_bind (preserves (rates_bounded b)) (preserves_trans (rates_bounded b))).
    + rates_leaf.
    + intros s2. destruct (Qltb _ _); [apply preserves_refl | apply rates_stall_test].
Qed.

Lemma rates_epoch e s : preserves (rates_bounded b) s (state_of (epoch env a e s)).
Proof.
  unfold epoch. apply (rel_bind (preserves (rates_bounded b)) (preserves_trans (rates_bounded b))).
  - apply rel_end_loop, rates_epoch_batches.
  - intros s1. apply rates_epoch_end.
Qed.

Lemma rates_run :
  in_rate_range a.(learning_rate0) -> (0 <= a.(start_momentum) <= b)%Q ->
  rates_bounded b (state_of (run env a)).
Proof.
  intros Hl Hm.
  assert (H : rates_bounded b (state_of (entry env a))).
  { unfold entry. cbv zeta. destruct (init_refused _ _); cbn [state_of];
      (split; [exact Hl|]; split; [exact Hm|]);
      intros c r m [<-|[]] Hs; discriminate Hs. }
  assert (H1 : rates_bounded b (state_of (training env a))).
  { unfold training.
    destruct (entry env a) as [s0| |]; cbn [bind state_of] in *; try exact H.
    unfold epochs_from.
    pose proof (preserves_count_up_flow (rates_bounded b) (epoch env a) rates_epoch
                  (Z.to_nat (max_epochs a)) 0 s0 H) as H1.
    destruct (count_up_flow _ _ _ _); exact H1. }
  unfold run.
  destruct (training env a) as [s1|r s1|v s1]; cbn [end_loop bind state_of] in *;
    try exact H1; revert H1;
    match goal with |- _ -> rates_bounded b ?x => change (preserves (rates_bounded b) s1 x) end;
    cbv zeta; flow_inv ltac:(idtac; rates_leaf).
Qed.

End Facts.

(** Property X7: when the caller's learning rate is within [0.001, 1.0] and the
    two momenta within [0, b], every learning rate and every momentum that
    [rbm_cuda] gives to the engine is within these bounds, and so are the two
    variables where the function ends. *)
Theorem engine_rates_bounded env a b :
  in_rate_range a.(learning_rate0) ->
  (0 <= a.(start_momentum) <= b)%Q -> (0 <= a.(end_momentum) <= b)%Q ->
  rates_bounded b (state_of (run env a)).
Proof. intros Hl Hs He. apply rates_run; assumption. Qed.

Lemma engine_rates_bounded_witness :
  rates_bounded 0.9%Q (state_of (run steady_run two_batches)).
Proof.
  apply engine_rates_bounded.
  - unfold in_rate_range, two_batches. cbn. lra.
  - unfold two_batches. cbn. lra.
  - unfold two_batches. cbn. lra.
Defined.

End RbmRates.

Module RbmCounter.
Import Rbm RbmRun RbmMore RbmFacts.

Section Facts.
Variable env : Env.
Variable a : args.

Lemma ceiling_effect n c s :
  n_no_improvement (ceiling n c s) = n_no_improvement s
  /\ (learning_rate (ceiling n c s) <= learning_rate s)%Q
  /\ (n < n_no_improvement s -> (learning_rate (ceiling n c s) <= c)%Q)
  /\ (n_no_improvement s <= n -> learning_rate (ceiling n c s) = learning_rate s).
Proof.
  unfold ceiling.
  destruct (Z.gtb_spec (n_no_improvement s) n) as [Hn|Hn]; cbn [andb].
  - destruct (Qltb c (learning_rate s)) eqn:E; proj.
    + apply Qltb_lt in E. split; [reflexivity|]. split; [lra|]. split; [intros _; lra|].
      intros H. lia.
    + apply Qltb_ge in E. split; [reflexivity|]. split; [lra|]. split; [intros _; lra|].
      intros _. reflexivity.
  - split; [reflexivity|]. split; [lra|]. split; [intros H; lia|]. intros _. reflexivity.
Qed.

(** The five ceilings of lines 755-768, applied in the order of the source. *)
Lemma ceilings_effect s :
  let s' := ceiling 250 0.002%Q (ceiling 200 0.005%Q (ceiling 150 0.01%Q
              (ceiling 100 0.02%Q (ceiling 50 0.03%Q s)))) in
  n_no_improvement s' = n_no_improvement s
  /\ (learning_rate s' <= learning_rate s)%Q
  /\ (n_no_improvement s <= 50 -> learning_rate s' = learning_rate s)
  /\ (50 < n_no_improvement s -> (learning_rate s' <= 0.03)%Q)
  /\ (100 < n_no_improvement s -> (learning_rate s' <= 0.02)%Q)
  /\ (150 < n_no_improvement s -> (learning_rate s' <= 0.01)%Q)
  /\ (200 < n_no_improvement s -> (learning_rate s' <= 0.005)%Q)
  /\ (250 < n_no_improvement s -> (learning_rate s' <= 0.002)%Q).
Proof.
  cbv zeta.
  destruct (ceiling_effect 50 0.03%Q s) as (N1 & L1 & A1 & B1).
  set (s1 := ceiling 50 0.03%Q s) in *.
  destruct (ceiling_effect 100 0.02%Q s1) as (N2 & L2 & A2 & B2).
  set (s2 := ceiling 100 0.02%Q s1) in *.
  destruct (ceiling_effect 150 0.01%Q s2) as (N3 & L3 & A3 & B3).
  set (s3 := ceiling 150 0.01%Q s2) in *.
  destruct (ceiling_effect 200 0.005%Q s3) as (N4 & L4 & A4 & B4).
  set (s4 := ceiling 200 0.005%Q s3) in *.
  destruct (ceiling_effect 250 0.002%Q s4) as (N5 & L5 & A5 & B5).
  set (s5 := ceiling 250 0.002%Q s4) in *.
  split; [lia|]. split; [lra|].
  split. { intros H. rewrite B5, B4, B3, B2, B1 by lia. reflexivity. }
  split. { intros H. specialize (A1 H). lra. }
  split. { intros H. specialize (A2 ltac:(lia)). lra. }
  split. { intros H. specialize (A3 ltac:(lia)). lra. }
  split. { intros H. specialize (A4 ltac:(lia)). lra. }
  intros H. specialize (A5 ltac:(lia)). lra.
Qed.

Lemma stall_test_Go_counter e r s s' :
  stall_test a e r s = Go s' ->
  exists s1,
    s' = ceiling 250 0.002%Q (ceiling 200 0.005%Q (ceiling 150 0.01%Q
           (ceiling 100 0.02%Q (ceiling 50 0.03%Q s1))))
    /\ learning_rate s1 = learning_rate s
    /\ (n_no_improvement s1 = 0
        \/ n_no_improvement s1 = int_add (n_no_improvement s) 1
           /\ n_no_improvement s1 <= a.(max_no_imp)).
Proof.
  unfold stall_test. intros H. apply bind_Go in H. destruct H as (s1 & H1 & H).
  injection H as <-. eexists. split; [reflexivity|]. proj.
  destruct (_ || _).
  - injection H1 as <-. proj. split; [reflexivity|]. left. reflexivity.
  - revert H1. cbv zeta. proj.
    destruct (Z.gtb_spec (int_add (n_no_improvement s) 1) a.(max_no_imp)) as [G|G];
      intros H1; [discriminate|]. injection H1 as <-. proj.
    split; [reflexivity|]. right. split; [reflexivity | exact G].
Qed.

Lemma epoch_Go_counter e s s' :
  epoch env a e s = Go s' ->
  exists s1,
    s' = ceiling 250 0.002%Q (ceiling 200 0.005%Q (ceiling 150 0.01%Q
           (ceiling 100 0.02%Q (ceiling 50 0.03%Q s1))))
    /\ learning_rate s1 = learning_rate (state_of (epoch_batches env a e s))
    /\ (n_no_improvement s1 = 0
        \/ n_no_improvement s1 = int_add (n_no_improvement s) 1
           /\ n_no_improvement s1 <= a.(max_no_imp)).
Proof.
  unfold epoch. intros H. apply bind_Go in H. destruct H as (sb & Hb & H).
  apply end_loop_Go in Hb. destruct Hb as [-> _].
  destruct (epoch_batches_keeps env a e s) as [K _].
  unfold keeps, outside_epoch_batches in K.
  pose proof (f_equal (fun t => snd (fst (fst t))) K) as Kn. cbn [fst snd] in Kn.
  set (sb := state_of (epoch_batches env a e s)) in *.
  unfold epoch_end in H. pose proof (escape_seen_frame env e (poll_epoch e) sb) as F.
  destruct (escape_seen env e (poll_epoch e) sb) as [esc s1]. cbn [fst snd] in *.
  destruct esc; [discriminate|]. cbv zeta in H.
  apply bind_Go in H. destruct H as (s2 & H2 & H). apply engine_call_Go in H2.
  destruct (Qltb _ _); [discriminate|].
  apply stall_test_Go_counter in H. destruct H as (s3 & E & L & N).
  exists s3. split; [exact E|]. subst s2. rewrite F in L, N. proj.
  rewrite Kn in N. split; assumption.
Qed.

Lemma rate_ceilings_aux e s s' :
  epoch env a e s = Go s' ->
  n_no_improvement s' <= 50 ->
  learning_rate s' = learning_rate (state_of (epoch_batches env a e s)).
Proof.
  intros H. apply epoch_Go_counter in H. destruct H as (s1 & -> & L & _).
  pose proof (ceilings_effect s1) as C. cbv zeta in C.
  destruct C as (N & _ & C1 & _). rewrite N, <- L. exact C1.
Qed.

End Facts.

(** Property X8: an epoch after which the loop goes on ends with a learning rate
    that is not above the one its batches left, equal to it when the stall
    counter is at most 50, and at most 0.03, 0.02, 0.01, 0.005, 0.002 when the
    stall counter is above 50, 100, 150, 200, 250. *)
Theorem rate_ceilings env a e s s' :
  epoch env a e s = Go s' ->
  (learning_rate s' <= learning_rate (state_of (epoch_batches env a e s)))%Q
  /\ (n_no_improvement s' <= 50 ->
      learning_rate s' = learning_rate (state_of (epoch_batches env a e s)))
  /\ (50 < n_no_improvement s' -> (learning_rate s' <= 0.03)%Q)
  /\ (100 < n_no_improvement s' -> (learning_rate s' <= 0.02)%Q)
  /\ (150 < n_no_improvement s' -> (learning_rate s' <= 0.01)%Q)
  /\ (200 < n_no_improvement s' -> (learning_rate s' <= 0.005)%Q)
  /\ (250 < n_no_improvement s' -> (learning_rate s' <= 0.002)%Q).
Proof.
  intros H. apply epoch_Go_counter in H. destruct H as (s1 & -> & L & _).
  pose proof (ceilings_effect s1) as C. cbv zeta in C.
  destruct C as (N & C0 & C1 & C2 & C3 & C4 & C5 & C6).
  rewrite N, <- L. repeat split; assumption.
Qed.

Lemma rate_ceilings_witness :
  (learning_rate
     (state_of (epoch steady_run patient 60
                  (set_n_no_improvement 50 (state_of (entry steady_run patient)))))
   <= 0.03)%Q.
Proof.
  refine (proj1 (proj2 (proj2 (rate_ceilings steady_run patient 60
            (set_n_no_improvement 50 (state_of (entry steady_run patient)))
            (state_of (epoch steady_run patient 60
                         (set_n_no_improvement 50 (state_of (entry steady_run patient)))))
            _))) _).
  - vm_compute. reflexivity.
  - vm_compute. reflexivity.
Defined.

(** Property X9: with [0 <= max_no_imp < 2147483647] the stall counter lies
    between 0 and [max_no_imp], and is at most the number of the epoch, at the
    start of every epoch; so with [max_no_imp <= 50] the ceilings of lines
    755-768 never act: every epoch after which the loop goes on ends with the
    learning rate its batches left. *)
Theorem stall_counter_bounded env a :
  0 <= a.(max_no_imp) < 2147483647 ->
  forall (e : nat) s,
    locals_at env a e = Some s ->
    0 <= n_no_improvement s <= a.(max_no_imp)
    /\ n_no_improvement s <= Z.of_nat e
    /\ (a.(max_no_imp) <= 50 ->
        forall s', epoch env a (Z.of_nat e) s = Go s' ->
                   learning_rate s'
                   = learning_rate (state_of (epoch_batches env a (Z.of_nat e) s))).
Proof.
  intros Hm.
  assert (B : forall (e : nat) s, locals_at env a e = Some s ->
                0 <= n_no_improvement s <= a.(max_no_imp)
                /\ n_no_improvement s <= Z.of_nat e).
  { induction e as [|e IH]; intros s H.
    - cbn [locals_at] in H. unfold entry in H. cbv zeta in H.
      destruct (init_refused _ _); inversion H; subst s. proj. lia.
    - apply locals_at_S in H. destruct H as (s0 & H0 & E).
      specialize (IH s0 H0). apply epoch_Go_counter in E.
      destruct E as (s1 & -> & _ & N).
      destruct (ceilings_effect s1) as (-> & _).
      destruct N as [-> | [N1 N2]]; [lia|].
      rewrite N1 in *. rewrite RbmStall.int_add_small in * by lia. lia. }
  intros e s H. destruct (B e s H) as (B1 & B2). split; [exact B1|]. split; [exact B2|].
  intros H50 s' E.
  assert (H' : locals_at env a (S e) = Some s').
  { cbn [locals_at]. rewrite H, E. reflexivity. }
  destruct (B (S e) s' H') as (B3 & _).
  apply (rate_ceilings_aux env a (Z.of_nat e) s s' E). lia.
Qed.

Lemma stall_counter_bounded_witness :
  exists s, locals_at steady_run stalling 2 = Some s /\ 0 <= n_no_improvement s <= 2.
Proof.
  eexists. split; [vm_compute; reflexivity|].
  refine (proj1 (stall_counter_bounded steady_run stalling _ 2%nat _ _)).
  - unfold stalling. cbn. lia.
  - vm_compute. reflexivity.
Defined.

End RbmCounter.

Module RbmBatches.
Import Rbm RbmRun RbmMore RbmFacts RbmSeed.

Ltac more_calls_leaf :=
  rewrite ?engine_call_state;
  repeat match goal with |- context[if ?c then _ else _] => destruct c end;
  rewrite ?step_stream_eq; unfold extends;
  cbn [ext set_ext set_randnum set_k set_error set_max_inc set_err_vec set_len_prev
       set_learning_rate set_momentum set_istart set_n_done trace record];
  first [ exists []; reflexivity | eexists [_]; reflexivity ].

Ltac more_calls :=
  cbv beta;
  lazymatch goal with
  | |- extends _ (state_of (bind _ _)) =>
      apply (rel_bind extends extends_trans); [ more_calls | intros ?; more_calls ]
  | |- extends _ (state_of (for_flow _ (chain_step _ _ _ _ _) _)) => apply chain_extends
  | |- _ => more_calls_leaf
  end.

Section Facts.
Variable env : Env.
Variable a : args.

(** The progress of a batch through the cases. *)
Lemma batch_Go_done e b s s' :
  batch env a e b s = Go s' ->
  n_done s' = int_add (n_done s) (batch_size a.(nc) (n_done s) a.(n_batches) b)
  /\ istart s' = int_add (istart s) (batch_size a.(nc) (n_done s) a.(n_batches) b).
Proof.
  unfold batch. cbv zeta. intros H.
  apply bind_Go in H. destruct H as (s1 & H1 & H).
  match type of H1 with batch_work _ _ _ _ ?nb ?st _ = _ =>
    pose proof (batch_work_keeps env a e b nb st s) as K end.
  rewrite H1 in K. cbn [state_of] in K. apply outside_chain_inv in K.
  pose proof (escape_seen_frame env e (poll_batch e b) s1) as F.
  destruct (escape_seen env e (poll_batch e b) s1) as [esc s2]. cbn [snd] in F.
  destruct esc; [discriminate|].
  apply bind_Go in H. destruct H as (s3 & H3 & H).
  assert (K3 : keeps (fun s => (n_done s, istart s)) s2 s3).
  { replace s3 with (state_of (adapt env a e b s2)) by (rewrite H3; reflexivity).
    unfold adapt. destruct (_ && _); cbv zeta; RbmShuffle.same_flow. }
  unfold keeps in K3. injection K3 as K3 K4.
  injection H as <-. proj. rewrite K3, F. proj.
  destruct K as (_ & _ & _ & _ & _ & _ & _ & _ & Kn & Ki & _).
  rewrite Kn. split; reflexivity.
Qed.

(** The first engine call of a batch is the fetch of its cases. *)
Lemma batch_fetch e b s :
  exists l seed,
    trace (ext (state_of (batch env a e b s)))
    = l ++ cuda_fetch_vis1 (istart s)
             (int_add (istart s) (batch_size a.(nc) (n_done s) a.(n_batches) b))
             a.(n_inputs) seed :: trace (ext s).
Proof.
  unfold batch, batch_work. cbv zeta.
  set (s0 := if greedy_mean_field a =? 0 then step_stream s else s).
  assert (E0 : istart s0 = istart s /\ trace (ext s0) = trace (ext s)).
  { unfold s0. destruct (_ =? 0); rewrite ?step_stream_eq; split; reflexivity. }
  destruct E0 as (Ei & Et). rewrite Ei.
  set (c := cuda_fetch_vis1 _ _ _ _).
  match goal with |- context[bind (bind (engine_call env c ?p s0) ?g) ?h] =>
    assert (X : extends (state_of (engine_call env c p s0))
                  (state_of (bind (bind (engine_call env c p s0) g) h))) end.
  { eapply extends_trans; [apply extends_after | apply extends_after].
    - intros s1. more_calls.
    - intros s2. cbv beta. pose proof (escape_seen_extends env e (poll_batch e b) s2) as X.
      destruct (escape_seen env e (poll_batch e b) s2) as [esc s3]. cbn [snd] in X.
      destruct esc; [exact X|].
      eapply extends_trans; [exact X|].
      apply (rel_bind extends extends_trans); [apply adapt_extends|].
      intros s4. exists []. reflexivity. }
  rewrite engine_call_state in X at 1. destruct X as (l & X).
  exists l. eexists. rewrite X. proj. rewrite Et. reflexivity.
Qed.

Lemma first_batches_S e b s :
  first_batches env a e (S b) s
  = bind (first_batches env a e b s) (batch env a e (Z.of_nat b)).
Proof.
  unfold first_batches. replace (S b) with (b + 1)%nat by lia.
  rewrite WtInitFacts.count_up_flow_more.
  destruct (count_up_flow b 0 _ _); cbn [bind count_up_flow]; try reflexivity.
  replace (0 + Z.of_nat b) with (Z.of_nat b) by lia.
  destruct (batch env a e (Z.of_nat b) s0); reflexivity.
Qed.

Lemma first_batches_done e b s sb :
  first_batches env a e b s = Go sb ->
  n_done sb = done_before a.(nc) a.(n_batches) b
  /\ istart sb = done_before a.(nc) a.(n_batches) b.
Proof.
  revert sb. induction b as [|b IH]; intros sb H.
  - unfold first_batches in H. cbn [count_up_flow] in H. injection H as <-.
    split; reflexivity.
  - rewrite first_batches_S in H. apply bind_Go in H. destruct H as (s1 & H1 & H).
    destruct (IH s1 H1) as (En & Ei). apply batch_Go_done in H.
    destruct H as (-> & ->). rewrite done_before_S, En, Ei. split; reflexivity.
Qed.

End Facts.

(** Property X10: in every epoch of [rbm_cuda], when the first [b] batches ran
    to their end, [n_done] and [istart] are the cases done before batch [b], and
    the first engine call of batch [b] fetches the cases from there up to the
    cases done before batch [b + 1]; with [0 <= nc] and [1 <= n_batches], both
    of them [int]s, the batch loop ends with [n_done = istart = nc]. *)
Theorem epoch_tiles_cases env a e s :
  (forall b sb,
      first_batches env a e b s = Go sb ->
      n_done sb = done_before a.(nc) a.(n_batches) b
      /\ istart sb = done_before a.(nc) a.(n_batches) b
      /\ exists l seed,
           trace (ext (state_of (batch env a e (Z.of_nat b) sb)))
           = l ++ cuda_fetch_vis1 (done_before a.(nc) a.(n_batches) b)
                    (done_before a.(nc) a.(n_batches) (S b)) a.(n_inputs) seed
                  :: trace (ext sb))
  /\ (forall s',
        0 <= a.(nc) <= 2147483647 -> 1 <= a.(n_batches) <= 2147483647 ->
        batches env a e s = Go s' -> n_done s' = a.(nc) /\ istart s' = a.(nc)).
Proof.
  split.
  - intros b sb H. destruct (first_batches_done env a e b s sb H) as (En & Ei).
    split; [exact En|]. split; [exact Ei|].
    destruct (batch_fetch env a e (Z.of_nat b) sb) as (l & seed & E).
    exists l, seed. rewrite E, Ei, En, <- done_before_S. reflexivity.
  - intros s' Hnc Hnb H.
    change (batches env a e s) with (first_batches env a e (Z.to_nat a.(n_batches)) s) in H.
    destruct (first_batches_done env a e _ s s' H) as (En & Ei).
    rewrite En, Ei, (partition_total a.(nc) a.(n_batches) Hnc Hnb). split; reflexivity.
Qed.

Lemma epoch_tiles_cases_witness :
  n_done (state_of (batches steady_run two_batches 0
                      (state_of (entry steady_run two_batches)))) = 4.
Proof.
  refine (proj1 (proj2 (epoch_tiles_cases steady_run two_batches 0
                          (state_of (entry steady_run two_batches))) _ _ _ _)).
  - unfold two_batches. cbn. lia.
  - unfold two_batches. cbn. lia.
  - vm_compute. reflexivity.
Defined.

End RbmBatches.

Lemma for_inv {St : Type} (P : Z -> St -> Prop) (body : Z -> St -> St) n s :
  (forall i s, P i s -> P (i + 1) (body i s)) ->
  P 0 s -> P (Z.of_nat (Z.to_nat n)) (for_ n body s).
Proof. intros Hb H. unfold for_. apply (count_up_inv P body Hb (Z.to_nat n) 0 s H). Qed.

Module WtInitReturns.
Import WtInit WtInitRun WtInitMore WtInitFacts.

Section Facts.
Variable env : Env.
Variable a : args.

(** *** Copying the snapshot back *)

Lemma restoring_weaken s0 (D D' : Z -> Prop) h s :
  (forall idx, D' idx -> D idx) -> restoring s0 D h s -> restoring s0 D' h s.
Proof. intros H (Hw & Hi & Hd & Hh). repeat split; auto. Qed.

Lemma restore_entry s0 D h s i :
  restoring s0 D h s ->
  restoring s0 (fun idx => D idx \/ idx = i) h
    (set_w (store (w s) i (w_best s i)) s).
Proof.
  intros (Hw & Hi & Hd & Hh). split; [exact Hw|]. split; [exact Hi|]. split; [|exact Hh].
  intros idx Hidx. cbn [w set_w]. rewrite store_at.
  destruct (Z.eqb_spec idx i) as [->|N].
  - exact (f_equal (fun t => fst (fst (fst (fst (fst t)))) i) Hw).
  - destruct Hidx as [Hidx|Hidx]; [apply Hd, Hidx | contradiction].
Qed.

Lemma restore_row s0 h s :
  0 <= h -> restoring s0 (in_rows a h) h s ->
  restoring s0 (in_rows a (h + 1)) (h + 1)
    (for_ a.(n_inputs)
       (fun ivis s => set_w (store (w s) (widx a h ivis) (w_best s (widx a h ivis))) s)
       (set_hid_bias (store (hid_bias s) h (hid_bias_best s h)) s)).
Proof.
  intros Hh0 (Hw & Hi & Hd & Hh).
  set (s1 := set_hid_bias (store (hid_bias s) h (hid_bias_best s h)) s).
  assert (P0 : restoring s0 (fun idx => in_rows a h idx \/ in_row a h 0 idx) (h + 1) s1).
  { split; [exact Hw|]. split; [exact Hi|]. split.
    - intros idx [Hidx | (v & Hv & _)]; [apply Hd, Hidx | lia].
    - intros h' Hh'. subst s1. cbn [hid_bias set_hid_bias]. rewrite store_at.
      destruct (Z.eqb_spec h' h) as [->|N].
      + exact (f_equal (fun t => snd (fst (fst (fst (fst t)))) h) Hw).
      + apply Hh. lia. }
  pose proof (for_inv
                (fun v s => restoring s0
                              (fun idx => in_rows a h idx \/ in_row a h v idx) (h + 1) s)
                (fun ivis s =>
                   set_w (store (w s) (widx a h ivis) (w_best s (widx a h ivis))) s)
                a.(n_inputs) s1) as L.
  specialize (L ltac:(intros i s2 H2; apply restore_entry with (i := widx a h i) in H2;
                      revert H2; apply restoring_weaken;
                      intros idx [Hidx | (v & Hv & ->)];
                      [ left; left; exact Hidx
                      | destruct (Z.eq_dec v i) as [->|N];
                        [ right; reflexivity
                        | left; right; exists v; split; [lia | reflexivity] ] ])
                P0).
  revert L. apply restoring_weaken.
  intros idx (h' & Hh' & v & Hv & ->).
  destruct (Z.eq_dec h' h) as [->|N].
  - right. exists v. split; [lia | reflexivity].
  - left. exists h'. split; [lia|]. exists v. split; [lia | reflexivity].
Qed.

Lemma restore_best_restored s :
  restored a (restore_best a s) s /\ work (restore_best a s) = work s.
Proof.
  unfold restore_best. cbv zeta.
  assert (R0 : restoring s (in_rows a 0) 0 s).
  { split; [reflexivity|]. split; [reflexivity|]. split.
    - intros idx (h & Hh & _). lia.
    - intros h' Hh'. lia. }
  pose proof (for_inv
                (fun h s1 => 0 <= h /\ restoring s (in_rows a h) h s1)
                (fun ihid s1 =>
                   for_ a.(n_inputs)
                     (fun ivis s2 =>
                        set_w (store (w s2) (widx a ihid ivis) (w_best s2 (widx a ihid ivis))) s2)
                     (set_hid_bias (store (hid_bias s1) ihid (hid_bias_best s1 ihid)) s1))
                a.(nhid) s) as L.
  specialize (L ltac:(intros i s1 [Hi H1]; split; [lia | apply restore_row; assumption])
                (conj (Z.le_refl 0) R0)).
  destruct L as (_ & R).
  match type of R with restoring _ _ _ ?st => set (s2 := st) in * end. clearbody s2.
  destruct R as (Rw & Ri & Rd & Rh).
  pose proof (for_inv
                (fun v s3 => work s3 = work s /\ w s3 = w s2 /\ hid_bias s3 = hid_bias s2
                             /\ forall v', 0 <= v' < v -> in_bias s3 v' = in_bias_best s v')
                (fun ivis s3 =>
                   set_in_bias (store (in_bias s3) ivis (in_bias_best s3 ivis)) s3)
                a.(n_inputs) s2) as L.
  specialize (L ltac:(intros i s3 (H1 & H2 & H3 & H4);
                      split; [exact H1|]; split; [exact H2|]; split; [exact H3|];
                      intros v' Hv'; cbn [in_bias set_in_bias]; rewrite store_at;
                      destruct (Z.eqb_spec v' i) as [->|N];
                      [ exact (f_equal (fun t => snd (fst (fst (fst t))) i) H1)
                      | apply H4; lia ])).
  destruct L as (Lw & Lww & Lh & Li).
  { split; [exact Rw|]. split; [reflexivity|]. split; [reflexivity|]. intros v' Hv'. lia. }
  split; [|exact Lw]. split.
  - intros ihid Hh. rewrite Lh, Lww. split; [apply Rh; lia|].
    intros ivis Hv. apply Rd. exists ihid. split; [lia|]. exists ivis. split; [lia|reflexivity].
  - intros ivis Hv. apply Li. lia.
Qed.

(** *** How the main loop ends *)

Lemma locals_after_next (j : nat) s s' :
  locals_after env a j = Some s -> trial env a (Z.of_nat j) s = Go s' ->
  locals_after env a (S j) = Some s'.
Proof. intros H E. cbn [locals_after]. rewrite H, E. reflexivity. Qed.

Lemma locals_after_stops (j : nat) s :
  locals_after env a j = Some s ->
  (forall s', trial env a (Z.of_nat j) s <> Go s') ->
  forall d, locals_after env a (S j + d) = None.
Proof.
  intros H N d. induction d as [|d IH].
  - replace (S j + 0)%nat with (S j) by lia. cbn [locals_after]. rewrite H.
    destruct (trial env a (Z.of_nat j) s) eqn:E; try reflexivity.
    exfalso. exact (N _ eq_refl).
  - replace (S j + S d)%nat with (S (S j + d)) by lia. cbn [locals_after].
    cbn [locals_after] in IH. rewrite IH. reflexivity.
Qed.

Lemma loop_outcome fuel (i : nat) s :
  locals_after env a i = Some s ->
  match count_up_flow fuel (Z.of_nat i) (trial env a) s with
  | Go s' => locals_after env a (i + fuel) = Some s'
  | Brk why s' =>
      exists (j : nat) sj,
        (i <= j < i + fuel)%nat /\ locals_after env a j = Some sj
        /\ trial env a (Z.of_nat j) sj = Brk why s'
  | Ret _ _ => True
  end.
Proof.
  revert i s. induction fuel as [|fuel IH]; intros i s H; cbn [count_up_flow].
  - replace (i + 0)%nat with i by lia. exact H.
  - destruct (trial env a (Z.of_nat i) s) as [s1|why s1|v s1] eqn:E.
    + pose proof (locals_after_next i s s1 H E) as H1.
      specialize (IH (S i) s1 H1).
      replace (Z.of_nat i + 1) with (Z.of_nat (S i)) by lia.
      destruct (count_up_flow fuel (Z.of_nat (S i)) (trial env a) s1).
      * replace (i + S fuel)%nat with (S i + fuel)%nat by lia. exact IH.
      * destruct IH as (j & sj & Hj & Hs & Ej). exists j, sj.
        split; [lia|]. split; assumption.
      * exact I.
    + exists i, s. split; [lia|]. split; assumption.
    + exact I.
Qed.

(** When the loop is over, the best error and the snapshot are those of the
    trials that were run, and no trial after them was started. *)
Lemma trials_best n s :
  end_loop (trials env a n) = Go s ->
  exists t : nat,
    Z.of_nat t <= Z.max n 0 /\ best_of env a t s
    /\ forall (j : nat) sj,
         Z.of_nat j < n -> trial_done env a j = Some sj -> (j < t)%nat.
Proof.
  unfold trials, for_flow. intros H.
  destruct (entry env a) as [s0|why0 s0|v0 s0] eqn:E0; cbn [bind end_loop] in H;
    try discriminate.
  2: { unfold entry in E0. cbv zeta in E0. destruct (init_refused _ _); discriminate. }
  assert (H0 : locals_after env a 0 = Some s0) by (cbn [locals_after]; rewrite E0; reflexivity).
  pose proof (loop_outcome (Z.to_nat n) 0 s0 H0) as L. cbn [Z.of_nat] in L.
  destruct (count_up_flow (Z.to_nat n) 0 (trial env a) s0) as [s1|why s1|v s1];
    cbn [end_loop] in H; try discriminate; injection H as <-.
  - exists (Z.to_nat n). split; [lia|]. split; [apply best_of_after; exact L|].
    intros j sj Hlt _. lia.
  - destruct L as (j & sj & Hj & Hs & Ej). exists (S j).
    split; [lia|]. split.
    + apply best_of_done. unfold trial_done. rewrite Hs, Ej. reflexivity.
    + intros j' sj' _ Hd. apply trial_done_inv in Hd. destruct Hd as (s2 & H2 & _).
      destruct (Nat.lt_ge_cases j' (S j)) as [Hlt|Hge]; [exact Hlt|exfalso].
      pose proof (locals_after_stops j sj Hs ltac:(intros s' Es; congruence)
                    (j' - S j)%nat) as N.
      replace (S j + (j' - S j))%nat with j' in N by lia. congruence.
Qed.

Lemma locals_after_count (j : nat) s :
  locals_after env a j = Some s ->
  exists s0, entry env a = Go s0
             /\ forall fuel, count_up_flow (j + fuel) 0 (trial env a) s0
                             = count_up_flow fuel (Z.of_nat j) (trial env a) s.
Proof.
  revert s. induction j as [|j IH]; intros s H.
  - cbn [locals_after] in H. destruct (entry env a) as [s0| |]; inversion H; subst.
    exists s. split; [reflexivity|]. intros fuel. reflexivity.
  - apply locals_after_S in H. destruct H as (s1 & H & E).
    destruct (IH s1 H) as (s0 & H0 & Hc). exists s0. split; [exact H0|].
    intros fuel. replace (S j + fuel)%nat with (j + S fuel)%nat by lia.
    rewrite Hc. cbn [count_up_flow]. rewrite E.
    replace (Z.of_nat j + 1) with (Z.of_nat (S j)) by lia. reflexivity.
Qed.

Lemma trial_Brk irand s why s' :
  trial env a irand s = Brk why s' ->
  why = escape_pressed /\ escape_key_pressed (ext s') = false.
Proof.
  unfold trial. intros H. apply bind_Brk in H.
  destruct H as [H | (s1 & _ & H)]; [exfalso; exact (no_Brk_evaluate env a _ _ _ _ H)|].
  cbv zeta in H. destruct (escape_requested _ _ _) as [esc x].
  destruct esc; [|discriminate]. injection H as <- <-. split; [reflexivity|].
  cbn [ext set_ext]. unfold drain_escape. destruct (user_pressed_escape _ _ _). reflexivity.
Qed.

Lemma run_of_trials n s :
  end_loop (trials env a n) = Go s ->
  run env a n
  = Ret (Some (best_err s / double_of_int (int_mul a.(nc) a.(n_inputs)))%Q)
        (set_ext (record rbm_cuda_cleanup (ext (restore_best a s))) (restore_best a s)).
Proof.
  intros H. unfold run. rewrite H. cbn [bind]. cbv zeta.
  change (best_err (set_ext ?x ?s)) with (best_err s).
  rewrite restore_best_best_err. reflexivity.
Qed.

End Facts.

(** Property X11: when the main loop of [rbm_cuda_wt_init] is not cut short by a
    failure and some trial had an error below 1e40, the function returns with
    [w], [in_bias] and [hid_bias] holding the parameters of a trial that was run
    and whose error no other trial that was run undercuts, and the value
    returned is that error over [nc * n_inputs]. *)
Theorem returned_parameters_are_best env a n s :
  end_loop (trials env a n) = Go s -> (best_err s < 1e40)%Q ->
  exists (i : nat) si,
    Z.of_nat i < n /\ trial_done env a i = Some si
    /\ (forall (j : nat) sj,
          Z.of_nat j < n -> trial_done env a j = Some sj -> (error si <= error sj)%Q)
    /\ result env a n
       = Some (error si / double_of_int (int_mul a.(nc) a.(n_inputs)))%Q
    /\ same_parameters a (state_of (run env a n)) si.
Proof.
  intros H Hlt. destruct (trials_best env a n s H) as (t & Ht & (B1 & B2 & B3) & Hall).
  destruct (B3 Hlt) as (i & si & Hi & Hd & He & (Hh1 & Hh2)).
  exists i, si. split; [lia|]. split; [exact Hd|]. split.
  { intros j sj Hj Hdj. rewrite He. apply (B1 j sj); [|exact Hdj].
    eapply Hall; eassumption. }
  split. { rewrite He. apply result_of. exact H. }
  rewrite (run_of_trials env a n s H). cbn [state_of].
  destruct (restore_best_restored a s) as ((R1 & R2) & _).
  unfold same_parameters.
  change (w (set_ext ?x ?s)) with (w s). change (hid_bias (set_ext ?x ?s)) with (hid_bias s).
  change (in_bias (set_ext ?x ?s)) with (in_bias s).
  split.
  - intros ihid Hr. destruct (R1 ihid Hr) as [E1 E2]. destruct (Hh1 ihid Hr) as [F1 F2].
    split; [congruence|]. intros ivis Hv. rewrite (E2 ivis Hv). apply F2, Hv.
  - intros ivis Hv. rewrite (R2 ivis Hv). apply Hh2, Hv.
Qed.

Lemma returned_parameters_are_best_witness :
  exists (i : nat) si,
    trial_done improving_run two_trials i = Some si
    /\ result improving_run two_trials 2
       = Some (error si / double_of_int (int_mul 4 2))%Q.
Proof.
  destruct (returned_parameters_are_best improving_run two_trials 2
              (state_of (end_loop (trials improving_run two_trials 2))))
    as (i & si & _ & Hd & _ & Hr & _).
  - vm_compute. reflexivity.
  - vm_compute. reflexivity.
  - exists i, si. split; [exact Hd | exact Hr].
Defined.

(** Property X12: with [n_rand <= 0] and an engine that accepts the
    initialisation, no trial is run: [rbm_cuda_wt_init] returns 1e40 over [nc *
    n_inputs] and overwrites [w], [in_bias] and [hid_bias] with what the
    caller's work vectors [w_best], [in_bias_best] and [hid_bias_best] held at
    the call. *)
Theorem no_trial_returns_work_vectors env a :
  a.(n_rand) <= 0 ->
  init_refused env (status (engine env) at_init) = false ->
  rbm_cuda_wt_init env a
  = Some (1e40 / double_of_int (int_mul a.(nc) a.(n_inputs)))%Q
  /\ (forall ihid, 0 <= ihid < a.(nhid) ->
        hid_bias (state_of (run env a a.(n_rand))) ihid = a.(hid_bias_best0) ihid
        /\ forall ivis, 0 <= ivis < a.(n_inputs) ->
             w (state_of (run env a a.(n_rand))) (widx a ihid ivis)
             = a.(w_best0) (widx a ihid ivis))
  /\ (forall ivis, 0 <= ivis < a.(n_inputs) ->
        in_bias (state_of (run env a a.(n_rand))) ivis = a.(in_bias_best0) ivis).
Proof.
  intros Hn Hi.
  assert (E : exists s, end_loop (trials env a a.(n_rand)) = Go s
                        /\ best_err s = 1e40%Q /\ w_best s = a.(w_best0)
                        /\ hid_bias_best s = a.(hid_bias_best0)
                        /\ in_bias_best s = a.(in_bias_best0)).
  { unfold trials, for_flow, entry. cbv zeta. rewrite Hi. cbn [bind].
    replace (Z.to_nat (n_rand a)) with O by lia. cbn [count_up_flow end_loop].
    eexists. split; [reflexivity|]. repeat split. }
  destruct E as (s & H & Eb & Ew & Eh & Ei).
  split.
  { unfold rbm_cuda_wt_init. rewrite (result_of env a _ s H), Eb. reflexivity. }
  rewrite (run_of_trials env a _ s H). cbn [state_of].
  change (w (set_ext ?x ?s)) with (w s). change (hid_bias (set_ext ?x ?s)) with (hid_bias s).
  change (in_bias (set_ext ?x ?s)) with (in_bias s).
  destruct (restore_best_restored a s) as ((R1 & R2) & _).
  rewrite <- Ew, <- Eh, <- Ei. split; assumption.
Qed.

Lemma no_trial_returns_work_vectors_witness :
  rbm_cuda_wt_init steady_run no_trials = Some (1e40 / double_of_int (int_mul 4 2))%Q.
Proof.
  apply (proj1 (no_trial_returns_work_vectors steady_run no_trials
                  ltac:(unfold no_trials; cbn; lia) eq_refl)).
Defined.

(** Property X13: when ESCape is seen after trial [j], the flag is cleared and
    the search is over: whatever [n_rand] above [j], the function does what it
    does with [n_rand = j + 1], returning the best error of the trials 0 .. j
    over [nc * n_inputs]. *)
Theorem escape_ends_search env a (j : nat) s why s' :
  locals_after env a j = Some s ->
  trial env a (Z.of_nat j) s = Brk why s' ->
  why = escape_pressed
  /\ escape_key_pressed (ext s') = false
  /\ forall n, Z.of_nat j < n ->
       run env a n = run env a (Z.of_nat j + 1)
       /\ result env a n
          = Some (best_err s' / double_of_int (int_mul a.(nc) a.(n_inputs)))%Q.
Proof.
  intros H E. destruct (trial_Brk env a _ _ _ _ E) as (-> & F).
  split; [reflexivity|]. split; [exact F|].
  destruct (locals_after_count env a j s H) as (s0 & H0 & Hc).
  assert (T : forall n, Z.of_nat j < n -> trials env a n = Brk escape_pressed s').
  { intros n Hn. unfold trials, for_flow. rewrite H0. cbn [bind].
    replace (Z.to_nat n) with (j + S (Z.to_nat n - S j))%nat by lia.
    rewrite Hc. cbn [count_up_flow]. rewrite E. reflexivity. }
  intros n Hn. split.
  - unfold run. rewrite (T n Hn), (T (Z.of_nat j + 1) ltac:(lia)). reflexivity.
  - apply result_of. rewrite (T n Hn). reflexivity.
Qed.

Lemma escape_ends_search_witness :
  run escape_trial_run three_trials 3 = run escape_trial_run three_trials 1.
Proof.
  refine (proj1 (proj2 (proj2 (escape_ends_search escape_trial_run three_trials 0
            (state_of (entry escape_trial_run three_trials)) escape_pressed
            (state_of (trial escape_trial_run three_trials 0
                         (state_of (entry escape_trial_run three_trials)))) _ _)) 3 _)).
  - vm_compute. reflexivity.
  - vm_compute. reflexivity.
  - lia.
Defined.

End WtInitReturns.

Module WtInitFailures.
Import WtInit WtInitRun WtInitMore WtInitFacts WtInitReturns.

Ltac wt_proj :=
  cbn [data_mean shuffle_index w in_bias hid_bias in_bias_best hid_bias_best w_best err_vec
       error best_err n_done istart ext
       set_shuffle_index set_w set_in_bias set_hid_bias set_in_bias_best set_hid_bias_best
       set_w_best set_err_vec set_error set_best_err set_n_done set_istart set_ext
       trace n_unif escape_key_pressed record set_escape_key_pressed
       bind state_of fst snd] in *.

Ltac wt_open_leaf :=
  unfold preserves, still_open; rewrite ?wt_engine_call_state;
  repeat match goal with |- context[if ?c then _ else _] => destruct c end;
  let H := fresh "H" in
  let Hin := fresh "Hin" in
  intros H Hin; wt_proj;
  repeat (destruct Hin as [Hin|Hin]; [discriminate Hin|]);
  apply H; exact Hin.

Section Facts.
Variable env : Env.
Variable a : args.

Lemma wt_fails_only_engine_call c p s : fails_only (engine_call env c p s).
Proof.
  unfold engine_call. intros v s'. destruct (_ =? 0); intros H; inversion H. reflexivity.
Qed.

Lemma fails_only_evaluate_batch irand ibatch s :
  fails_only (evaluate_batch env a irand ibatch s).
Proof.
  unfold evaluate_batch. cbv zeta.
  repeat (apply fails_only_bind; [apply wt_fails_only_engine_call | intros ?]).
  apply fails_only_Go.
Qed.

Lemma fails_only_evaluate irand s : fails_only (evaluate env a irand s).
Proof.
  unfold evaluate. cbv zeta. apply fails_only_bind.
  - destruct (irand =? 0); [apply wt_fails_only_engine_call | apply fails_only_Go].
  - intros s1. unfold draw. cbv zeta. cbn iota.
    apply fails_only_bind; [apply wt_fails_only_engine_call | intros s2].
    apply fails_only_count_up_flow. intros. apply fails_only_evaluate_batch.
Qed.

Lemma fails_only_trial irand s : fails_only (trial env a irand s).
Proof.
  unfold trial. apply fails_only_bind; [apply fails_only_evaluate|]. intros s1.
  cbv zeta. destruct (escape_requested _ _ _) as [esc x].
  destruct esc; [apply fails_only_Brk | apply fails_only_Go].
Qed.

Lemma fails_only_trials n : fails_only (trials env a n).
Proof.
  unfold trials. apply fails_only_bind.
  - unfold entry. cbv zeta. intros v s. destruct (init_refused _ _); intros H; inversion H.
    reflexivity.
  - intros s0. apply fails_only_count_up_flow. intros. apply fails_only_trial.
Qed.

(** The trace through the loops that draw the trial parameters. *)
Lemma trace_gen_hidden diff ihid s :
  trace (ext (gen_hidden env a diff ihid s)) = trace (ext s).
Proof.
  unfold gen_hidden.
  pose proof (count_up_keeps (fun p : double * locals => trace (ext (snd p)))
                (fun ivis '(sum, s) =>
                   let '(u, x) := draw (host env) (ext s) in
                   let wt := (diff * (u - 0.5))%Q in
                   let s := set_w (store (w s) (widx a ihid ivis) wt) (set_ext x s) in
                   ((sum + data_mean s ivis * wt)%Q, s))) as K.
  unfold for_.
  specialize (K ltac:(intros i [sum s1]; reflexivity) (Z.to_nat a.(n_inputs)) 0 (0%Q, s)).
  cbn [snd] in K.
  destruct (count_up _ _ _ _) as [sum s1]. cbn [snd] in K. rewrite <- K. reflexivity.
Qed.

Lemma wt_open_same s s' : trace (ext s') = trace (ext s) -> preserves still_open s s'.
Proof. intros E H. unfold still_open. rewrite E. exact H. Qed.

Lemma open_evaluate_batch irand ibatch s :
  preserves still_open s (state_of (evaluate_batch env a irand ibatch s)).
Proof. unfold evaluate_batch. cbv zeta. flow_inv ltac:(idtac; wt_open_leaf). Qed.

Lemma open_evaluate irand s : preserves still_open s (state_of (evaluate env a irand s)).
Proof.
  unfold evaluate. cbv zeta.
  apply (rel_bind (preserves still_open) (preserves_trans still_open)).
  { flow_inv ltac:(idtac; wt_open_leaf). }
  intros s1. cbv beta. unfold draw. cbv zeta. cbn iota.
  apply (rel_bind (preserves still_open) (preserves_trans still_open)).
  - unfold preserves, still_open. rewrite wt_engine_call_state. wt_proj.
    unfold for_. rewrite (count_up_keeps (fun s => trace (ext s)));
      [|intros; reflexivity].
    rewrite (count_up_keeps (fun s => trace (ext s))); [|intros; apply trace_gen_hidden].
    wt_proj. intros H [Hin|Hin]; [discriminate Hin | exact (H Hin)].
  - intros s2. cbv beta.
    eapply preserves_trans; [|apply preserves_count_up_flow; intros; apply open_evaluate_batch].
    apply wt_open_same. reflexivity.
Qed.

Lemma trace_escape_requested h p x : trace (snd (escape_requested h p x)) = trace x.
Proof.
  unfold escape_requested. destruct (escape_key_pressed x); [reflexivity|].
  destruct (user_pressed_escape h p false). reflexivity.
Qed.

Lemma open_trial irand s : preserves still_open s (state_of (trial env a irand s)).
Proof.
  unfold trial.
  apply (rel_bind (preserves still_open) (preserves_trans still_open)).
  - apply open_evaluate.
  - intros s1. cbv zeta.
    set (s2 := if Qltb (error s1) (best_err s1) then save_best a s1 else s1).
    assert (E2 : trace (ext s2) = trace (ext s1)).
    { subst s2. destruct (Qltb _ _); [|reflexivity].
      destruct (save_best_holds a s1) as (Ho & _). apply outside_save_inv in Ho.
      destruct Ho as (_ & _ & _ & _ & ->). reflexivity. }
    pose proof (trace_escape_requested (host env) (poll_trial irand) (ext s2)) as E3.
    destruct (escape_requested _ _ _) as [esc x]. cbn [snd] in E3.
    apply wt_open_same. destruct esc; cbn [state_of]; wt_proj;
      rewrite ?RbmInvariants.trace_drain_escape; congruence.
Qed.

End Facts.

(** Property X14: [rbm_cuda_wt_init] always returns. Either it returns -1.0 and
    has not called [rbm_cuda_cleanup] (no failure path cleans up), or its main
    loop was not cut short by a failure, it returns the best error over [nc *
    n_inputs], and the cleanup is its last engine call and was not called
    before. *)
Theorem wt_cleanup_only_on_completion env a n :
  exists v s,
    run env a n = Ret v s
    /\ ((v = Some (-1)%Q /\ ~ In rbm_cuda_cleanup (trace (ext s)))
        \/ exists s1,
             end_loop (trials env a n) = Go s1
             /\ v = Some (best_err s1 / double_of_int (int_mul a.(nc) a.(n_inputs)))%Q
             /\ trace (ext s) = rbm_cuda_cleanup :: trace (ext s1)
             /\ ~ In rbm_cuda_cleanup (trace (ext s1))).
Proof.
  assert (Ho : still_open (state_of (trials env a n))).
  { unfold trials.
    assert (H : still_open (state_of (entry env a))).
    { unfold entry, still_open. cbv zeta. destruct (init_refused _ _); cbn [state_of];
        wt_proj; unfold drain_escape; destruct (user_pressed_escape _ _ _); wt_proj;
        intros [Hin|[]]; discriminate Hin. }
    destruct (entry env a) as [s0| |]; cbn [bind state_of] in *; try exact H.
    apply (preserves_count_up_flow still_open (trial env a) (open_trial env a)). exact H. }
  pose proof (fails_only_trials env a n) as Hf.
  destruct (trials env a n) as [s1|r s1|v s1] eqn:T; cbn [state_of] in Ho.
  3: { exists v, s1. split; [unfold run; rewrite T; reflexivity|]. left.
       split; [eapply Hf; reflexivity | exact Ho]. }
  all: assert (E : end_loop (trials env a n) = Go s1) by (rewrite T; reflexivity);
       rewrite <- T; rewrite (run_of_trials env a n s1 E); eexists; eexists;
       (split; [reflexivity|]); right; exists s1; split; [exact E|];
       split; [reflexivity|]; split; [|exact Ho]; wt_proj;
       destruct (restore_best_restored a s1) as (_ & W);
       pose proof (f_equal (fun t => trace (snd t)) W) as Wx; unfold work in Wx;
       cbn [snd] in Wx; rewrite Wx; reflexivity.
Qed.

End WtInitFailures.

Module WtInitBatches.
Import WtInit WtInitRun WtInitMore WtInitFacts WtInitReturns WtInitFailures.

Section Facts.
Variable env : Env.
Variable a : args.

Lemma wt_engine_call_Go c p s s' :
  engine_call env c p s = Go s' -> s' = set_ext (record c (ext s)) s.
Proof.
  intros H. apply (f_equal state_of) in H. rewrite wt_engine_call_state in H.
  symmetry. exact H.
Qed.

Lemma evaluate_batch_Go irand ibatch s s' :
  evaluate_batch env a irand ibatch s = Go s' ->
  n_done s' = int_add (n_done s) (batch_size a.(nc) (n_done s) a.(n_batches) ibatch)
  /\ istart s' = int_add (istart s) (batch_size a.(nc) (n_done s) a.(n_batches) ibatch)
  /\ error s' = for_ a.(n_inputs) (fun ivis e => (e + err_vec s' ivis)%Q) (error s)
  /\ err_vec s' = recon_error_out (engine env) irand ibatch (err_vec s)
  /\ trace (ext s')
     = [cuda_recon_error a.(n_inputs) (batch_size a.(nc) (n_done s) a.(n_batches) ibatch);
        cuda_hid_to_vis_direct (batch_size a.(nc) (n_done s) a.(n_batches) ibatch)
          a.(n_inputs);
        cuda_vis_to_hid (batch_size a.(nc) (n_done s) a.(n_batches) ibatch) a.(nhid);
        cuda_fetch_vis1 (istart s)
          (int_add (istart s) (batch_size a.(nc) (n_done s) a.(n_batches) ibatch))
          a.(n_inputs) (Some 1)]
       ++ trace (ext s)
  /\ (w s', in_bias s', hid_bias s') = (w s, in_bias s, hid_bias s).
Proof.
  unfold evaluate_batch. cbv zeta. intros H.
  apply bind_Go in H. destruct H as (s1 & H1 & H).
  apply bind_Go in H. destruct H as (s2 & H2 & H).
  apply bind_Go in H. destruct H as (s3 & H3 & H).
  injection H as <-.
  apply wt_engine_call_Go in H1, H2, H3. subst s3 s2 s1. wt_proj. repeat split.
Qed.

Lemma evaluation_done irand n i s s' :
  count_up_flow n (Z.of_nat i) (evaluate_batch env a irand) s = Go s' ->
  n_done s = done_before a.(nc) a.(n_batches) i ->
  istart s = done_before a.(nc) a.(n_batches) i ->
  n_done s' = done_before a.(nc) a.(n_batches) (i + n)
  /\ istart s' = done_before a.(nc) a.(n_batches) (i + n).
Proof.
  revert i s. induction n as [|n IH]; intros i s H Hn Hi; cbn [count_up_flow] in H.
  - injection H as <-. replace (i + 0)%nat with i by lia. split; assumption.
  - destruct (evaluate_batch env a irand (Z.of_nat i) s) as [s1| |] eqn:E; try discriminate.
    apply evaluate_batch_Go in E. destruct E as (En & Ei & _).
    replace (Z.of_nat i + 1) with (Z.of_nat (S i)) in H by lia.
    replace (i + S n)%nat with (S i + n)%nat by lia.
    apply (IH (S i) s1 H); rewrite done_before_S; congruence.
Qed.

(** The error, [err_vec] and the engine calls through the batches of a
    trial, [v] being [err_vec] and [t] the calls at the first batch. *)
Lemma evaluation_sums irand v t n i s s' :
  count_up_flow n (Z.of_nat i) (evaluate_batch env a irand) s = Go s' ->
  n_done s = done_before a.(nc) a.(n_batches) i ->
  istart s = done_before a.(nc) a.(n_batches) i ->
  error s = summed_error env a irand i v ->
  err_vec s = err_vec_after env irand i v ->
  trace (ext s) = evaluation_calls a i ++ t ->
  error s' = summed_error env a irand (i + n) v
  /\ err_vec s' = err_vec_after env irand (i + n) v
  /\ trace (ext s') = evaluation_calls a (i + n) ++ t
  /\ (w s', in_bias s', hid_bias s') = (w s, in_bias s, hid_bias s).
Proof.
  revert i s. induction n as [|n IH]; intros i s H Hn Hi He Hv Ht; cbn [count_up_flow] in H.
  - injection H as <-. replace (i + 0)%nat with i by lia. repeat split; assumption.
  - destruct (evaluate_batch env a irand (Z.of_nat i) s) as [s1| |] eqn:E; try discriminate.
    apply evaluate_batch_Go in E. destruct E as (En & Ei & Ee & Ev & Et & Ep).
    replace (Z.of_nat i + 1) with (Z.of_nat (S i)) in H by lia.
    replace (i + S n)%nat with (S i + n)%nat by lia.
    assert (Hv1 : err_vec s1 = err_vec_after env irand (S i) v).
    { rewrite Ev, Hv. reflexivity. }
    destruct (IH (S i) s1 H) as (R1 & R2 & R3 & R4).
    + rewrite done_before_S. congruence.
    + rewrite done_before_S. congruence.
    + rewrite Ee, He. cbn [summed_error]. rewrite Hv1. reflexivity.
    + exact Hv1.
    + rewrite Et, Ht, Hn, Hi. cbn [evaluation_calls]. unfold batch_calls, in_batch.
      rewrite <- done_before_S. rewrite <- app_assoc. reflexivity.
    + split; [exact R1|]. split; [exact R2|]. split; [exact R3|]. congruence.
Qed.

Lemma drawing_gen_hidden diff ihid s :
  outside_drawing (gen_hidden env a diff ihid s) = outside_drawing s.
Proof.
  unfold gen_hidden.
  pose proof (count_up_keeps (fun p : double * locals => outside_drawing (snd p))
                (fun ivis '(sum, s) =>
                   let '(u, x) := draw (host env) (ext s) in
                   let wt := (diff * (u - 0.5))%Q in
                   let s := set_w (store (w s) (widx a ihid ivis) wt) (set_ext x s) in
                   ((sum + data_mean s ivis * wt)%Q, s))) as K.
  unfold for_.
  specialize (K ltac:(intros i [sum s1]; reflexivity) (Z.to_nat a.(n_inputs)) 0 (0%Q, s)).
  cbn [snd] in K.
  destruct (count_up _ _ _ _) as [sum s1]. cbn [snd] in K. rewrite <- K. reflexivity.
Qed.

End Facts.

(** Property X15: a trial of [rbm_cuda_wt_init] whose evaluation is not aborted
    ends it with [n_done] and [istart] at the cases done before batch
    [n_batches]; with [0 <= nc] and [1 <= n_batches], both of them [int]s, that
    is [nc].  Its engine calls are, after the uploads, those of the batches
    0 .. n_batches - 1 one after the other, each batch fetching the cases from
    where the batch before stopped (from 0 in the first batch) up to the cases
    done before the next batch and calling [cuda_recon_error] for as many
    cases; [err_vec] is what these calls of [cuda_recon_error] left one after
    the other, and [error] is the sum, batch after batch, of the [n_inputs]
    entries they left: the error of the trial is summed over every case. *)
Theorem trial_covers_cases env a irand s s' :
  evaluate env a irand s = Go s' ->
  n_done s' = done_before a.(nc) a.(n_batches) (Z.to_nat a.(n_batches))
  /\ istart s' = done_before a.(nc) a.(n_batches) (Z.to_nat a.(n_batches))
  /\ error s' = summed_error env a irand (Z.to_nat a.(n_batches)) (err_vec s)
  /\ err_vec s' = err_vec_after env irand (Z.to_nat a.(n_batches)) (err_vec s)
  /\ trace (ext s')
     = evaluation_calls a (Z.to_nat a.(n_batches)) ++ upload_calls a irand s'
       ++ trace (ext s)
  /\ done_before a.(nc) a.(n_batches) 0 = 0
  /\ (0 <= a.(nc) <= 2147483647 -> 1 <= a.(n_batches) <= 2147483647 ->
      n_done s' = a.(nc) /\ istart s' = a.(nc)
      /\ done_before a.(nc) a.(n_batches) (Z.to_nat a.(n_batches)) = a.(nc)).
Proof.
  unfold evaluate. cbv zeta. intros H.
  apply bind_Go in H. destruct H as (s1 & H1 & H).
  assert (E1 : error s1 = 0%Q /\ err_vec s1 = err_vec s
               /\ trace (ext s1)
                  = (if irand =? 0 then [cuda_shuffle_to_device a.(nc)] else [])
                    ++ trace (ext s)).
  { destruct (irand =? 0).
    - apply wt_engine_call_Go in H1. subst s1. wt_proj. repeat split.
    - injection H1 as <-. wt_proj. repeat split. }
  destruct E1 as (E1e & E1v & E1t). clear H1. revert H. unfold draw. cbv zeta. cbn iota.
  match goal with |- context[for_ (nhid a) (gen_hidden env a ?d) ?st] =>
    set (diff := d); set (s2 := st) end.
  assert (E2 : outside_drawing s2 = outside_drawing s1).
  { subst s2. reflexivity. }
  assert (E3 : outside_drawing (for_ (nhid a) (gen_hidden env a diff) s2)
               = outside_drawing s2).
  { unfold for_. apply (count_up_keeps outside_drawing). intros i st.
    apply drawing_gen_hidden. }
  set (s3 := for_ (nhid a) (gen_hidden env a diff) s2) in *.
  assert (E4 : outside_drawing (for_ (n_inputs a) (center_visible env a) s3)
               = outside_drawing s3).
  { unfold for_. apply (count_up_keeps outside_drawing). intros i st. reflexivity. }
  set (s4 := for_ (n_inputs a) (center_visible env a) s3) in *.
  assert (E : outside_drawing s4 = outside_drawing s1) by congruence.
  clearbody s4 s3 s2. clear E2 E3 E4. unfold outside_drawing in E.
  injection E as Ee Ev Et. intros H.
  apply bind_Go in H. destruct H as (s5 & H5 & H).
  apply wt_engine_call_Go in H5. unfold for_flow in H.
  pose proof (evaluation_done env a irand _ O _ _ H eq_refl eq_refl) as (Dn & Di).
  pose proof (evaluation_sums env a irand (err_vec s)
                (upload_calls a irand s4 ++ trace (ext s)) _ O _ _ H
                eq_refl eq_refl) as S.
  cbn [Nat.add] in Dn, Di, S. subst s5. wt_proj.
  destruct S as (Se & Sv & St & Sp).
  { rewrite Ee, E1e. reflexivity. }
  { rewrite Ev, E1v. reflexivity. }
  { rewrite Et, E1t. unfold upload_calls. cbn [evaluation_calls app]. reflexivity. }
  injection Sp as Sw Si Sh.
  split; [exact Dn|]. split; [exact Di|]. split; [exact Se|]. split; [exact Sv|].
  split.
  { rewrite St. unfold upload_calls. rewrite Sw, Si, Sh. reflexivity. }
  split; [reflexivity|].
  intros Hnc Hnb.
  rewrite Dn, Di, (partition_total a.(nc) a.(n_batches) Hnc Hnb). repeat split.
Qed.

(** Two batches of two cases with an error of 1 an input: the first trial
    ends with all 4 cases done and the error 4. *)
Lemma trial_covers_cases_witness :
  n_done (state_of (evaluate improving_run two_trials 0
                      (state_of (entry improving_run two_trials)))) = 4
  /\ (error (state_of (evaluate improving_run two_trials 0
                         (state_of (entry improving_run two_trials)))) == 4)%Q.
Proof.
  pose proof (trial_covers_cases improving_run two_trials 0
                (state_of (entry improving_run two_trials))
                (state_of (evaluate improving_run two_trials 0
                             (state_of (entry improving_run two_trials))))
                ltac:(vm_compute; reflexivity)) as (_ & _ & He & _ & _ & _ & Hn).
  split.
  - apply Hn; unfold two_trials; cbn; lia.
  - rewrite He. vm_compute. reflexivity.
Defined.

End WtInitBatches.

Lemma draws_end n x : snd (advance (draws n x)) = draws (S n) x.
Proof.
  revert x. induction n as [|n IH]; intros x; [reflexivity|].
  cbn [draws] in *. apply IH.
Qed.

Module RbmChain.
Import Rbm RbmRun RbmMore RbmFacts.

Section Facts.
Variable env : Env.
Variable a : args.

Lemma chain_step_Go e b nb c s s' :
  chain_step env a e b nb c s = Go s' ->
  randnum s' = draws 2 (randnum s)
  /\ err_vec s' = (if c =? 0 then recon_error_out (engine env) e b (err_vec s)
                   else err_vec s)
  /\ error s' = error s /\ chain_length s' = chain_length s.
Proof.
  unfold chain_step. cbv zeta. intros H.
  apply bind_Go in H. destruct H as (s1 & H1 & H). apply engine_call_Go in H1.
  apply bind_Go in H. destruct H as (s2 & H2 & H). apply engine_call_Go in H2.
  apply bind_Go in H. destruct H as (s3 & H3 & H). apply engine_call_Go in H.
  subst s'. proj. revert H3. destruct (c =? 0); intros H3.
  - apply bind_Go in H3. destruct H3 as (s4 & H4 & H3). apply engine_call_Go in H4.
    injection H3 as <-. subst s4 s2 s1. rewrite !step_stream_eq. proj. repeat split.
  - injection H3 as <-. subst s2 s1. rewrite !step_stream_eq. proj. repeat split.
Qed.

Lemma chain_Go e b nb n i s s' :
  0 <= i ->
  count_up_flow n i (chain_step env a e b nb) s = Go s' ->
  randnum s' = draws (2 * n) (randnum s)
  /\ err_vec s' = (if (i =? 0) && (0 <? Z.of_nat n)
                   then recon_error_out (engine env) e b (err_vec s) else err_vec s)
  /\ error s' = error s /\ chain_length s' = chain_length s.
Proof.
  revert i s. induction n as [|n IH]; intros i s Hi H; cbn [count_up_flow] in H.
  - injection H as <-. rewrite andb_false_r. repeat split.
  - destruct (chain_step env a e b nb i s) as [s1| |] eqn:E; try discriminate.
    apply chain_step_Go in E. destruct E as (Er & Ev & Ee & Ec).
    destruct (IH (i + 1) s1 ltac:(lia) H) as (Fr & Fv & Fe & Fc).
    replace (2 * S n)%nat with (S (S (2 * n))) by lia.
    split; [rewrite Fr, Er; reflexivity|]. split; [|split; congruence].
    rewrite Fv, Ev. destruct (Z.eqb_spec (i + 1) 0); [lia|]. cbn [andb].
    destruct (Z.eqb_spec i 0); cbn [andb]; [|reflexivity].
    destruct (Z.ltb_spec 0 (Z.of_nat (S n))); [reflexivity | lia].
Qed.

Lemma batch_work_Go e b nb istop s s' :
  batch_work env a e b nb istop s = Go s' ->
  randnum s'
  = draws (2 * Z.to_nat (int_of_double (chain_length s + 0.5)%Q) + 1)
      (if a.(greedy_mean_field) =? 0 then snd (advance (randnum s)) else randnum s)
  /\ err_vec s' = (if 0 <? int_of_double (chain_length s + 0.5)%Q
                   then recon_error_out (engine env) e b (err_vec s) else err_vec s)
  /\ error s' = for_ a.(n_inputs) (fun ivis x => (x + err_vec s' ivis)%Q) (error s).
Proof.
  unfold batch_work. cbv zeta.
  set (s0 := if greedy_mean_field a =? 0 then step_stream s else s).
  assert (E0 : randnum s0 = (if a.(greedy_mean_field) =? 0
                             then snd (advance (randnum s)) else randnum s)
               /\ err_vec s0 = err_vec s /\ error s0 = error s
               /\ chain_length s0 = chain_length s).
  { unfold s0. destruct (_ =? 0); rewrite ?step_stream_eq; repeat split. }
  destruct E0 as (Er & Ev & Ee & Ec). rewrite <- Er, <- Ev, <- Ee, <- Ec.
  clearbody s0. intros H.
  apply bind_Go in H. destruct H as (s1 & H1 & H). apply engine_call_Go in H1.
  apply bind_Go in H. destruct H as (s2 & H2 & H). apply engine_call_Go in H2.
  apply bind_Go in H. destruct H as (s3 & H3 & H).
  unfold for_flow in H3. apply chain_Go in H3; [|lia].
  destruct H3 as (Fr & Fv & Fe & Fc).
  apply bind_Go in H. destruct H as (s4 & H4 & H). apply engine_call_Go in H4.
  apply bind_Go in H. destruct H as (s5 & H5 & H). apply engine_call_Go in H5.
  apply bind_Go in H. destruct H as (s6 & H6 & H). apply engine_call_Go in H6.
  apply bind_Go in H. destruct H as (s7 & H7 & H). apply engine_call_Go in H7.
  apply bind_Go in H. destruct H as (s8 & H8 & H). apply engine_call_Go in H8.
  assert (X : randnum s' = randnum s5 /\ err_vec s' = err_vec s5
              /\ error s' = for_ a.(n_inputs) (fun ivis x => (x + err_vec s5 ivis)%Q)
                              (error s5)).
  { revert H. destruct (Qltb _ _); intros H; injection H as <-; subst s8 s7 s6;
      proj; repeat split. }
  destruct X as (Xr & Xv & Xe). rewrite Xe, Xr, Xv. subst s5. rewrite step_stream_eq. proj.
  subst s4. proj. rewrite Fr, Fv, Fe. subst s2 s1. proj.
  split; [|split; [|reflexivity]].
  - rewrite draws_end. f_equal. lia.
  - cbn [Z.eqb andb].
    destruct (Z.ltb_spec 0 (Z.of_nat (Z.to_nat (int_of_double (chain_length s0 + 0.5)%Q)))),
      (Z.ltb_spec 0 (int_of_double (chain_length s0 + 0.5)%Q)); try reflexivity; lia.
Qed.

End Facts.

(** Property X16: a batch that runs to its end advances the stream twice for
    every step of the Markov chain and once more, after the advance before the
    fetch that it makes when [greedy_mean_field] is 0. It takes the
    reconstruction error once, in the first step of the chain; with a chain
    length that rounds to 0 it takes none and adds to [error] what [err_vec]
    held before the batch. *)
Theorem batch_stream_and_error env a e b s s' :
  batch env a e b s = Go s' ->
  randnum s'
  = draws (2 * Z.to_nat (int_of_double (chain_length s + 0.5)%Q) + 1)
      (if a.(greedy_mean_field) =? 0 then snd (advance (randnum s)) else randnum s)
  /\ err_vec s' = (if 0 <? int_of_double (chain_length s + 0.5)%Q
                   then recon_error_out (engine env) e b (err_vec s) else err_vec s)
  /\ error s' = for_ a.(n_inputs) (fun ivis x => (x + err_vec s' ivis)%Q) (error s).
Proof.
  unfold batch. cbv zeta. intros H.
  apply bind_Go in H. destruct H as (s1 & H1 & H).
  apply batch_work_Go in H1. destruct H1 as (Er & Ev & Ee).
  pose proof (escape_seen_frame env e (poll_batch e b) s1) as F.
  destruct (escape_seen env e (poll_batch e b) s1) as [esc s2]. cbn [snd] in F.
  destruct esc; [discriminate|].
  apply bind_Go in H. destruct H as (s3 & H3 & H).
  assert (Av : keeps err_vec s2 s3).
  { replace s3 with (state_of (adapt env a e b s2)) by (rewrite H3; reflexivity).
    unfold adapt. destruct (_ && _); cbv zeta; RbmShuffle.same_flow. }
  unfold keeps in Av. apply adapt_Go in H3.
  destruct H3 as (_ & _ & _ & _ & _ & _ & _ & Ar & Ae & _).
  injection H as <-. proj. rewrite Ar, Ae, Av, F. proj. rewrite Er, Ev, Ee, Ev.
  repeat split.
Qed.

Lemma batch_stream_and_error_witness :
  randnum (state_of (batch steady_run two_batches 0 0
                       (state_of (entry steady_run two_batches)))) = draws 3 1.
Proof.
  refine (proj1 (batch_stream_and_error steady_run two_batches 0 0
                   (state_of (entry steady_run two_batches))
                   (state_of (batch steady_run two_batches 0 0
                                (state_of (entry steady_run two_batches)))) _)).
  vm_compute. reflexivity.
Defined.

End RbmChain.

Lemma count_up_ext {St : Type} (f g : Z -> St -> St) n i0 x :
  (forall i y, i0 <= i < i0 + Z.of_nat n -> f i y = g i y) ->
  count_up n i0 f x = count_up n i0 g x.
Proof.
  revert i0 x. induction n as [|n IH]; intros i0 x H; cbn [count_up]; [reflexivity|].
  rewrite (H i0 x) by lia. apply IH. intros i y Hi. apply H. lia.
Qed.

Lemma for_inv_bounded {St : Type} (P : Z -> St -> Prop) (body : Z -> St -> St) n s :
  0 <= n ->
  (forall i s, 0 <= i < n -> P i s -> P (i + 1) (body i s)) ->
  P 0 s -> P n (for_ n body s).
Proof.
  intros Hn Hb H.
  pose proof (for_inv (fun i s => 0 <= i /\ (i <= n -> P i s)) body n s) as L.
  destruct L as (_ & L).
  - intros i s1 (Hi & Hs). split; [lia|]. intros Hle. apply Hb; [lia|]. apply Hs. lia.
  - split; [lia|]. intros _. exact H.
  - rewrite Z2Nat.id in L by lia. apply L. lia.
Qed.

Module WtInitGeneration.
Import WtInit WtInitRun WtInitMore WtInitFacts WtInitReturns WtInitFailures.

Section Facts.
Variable env : Env.
Variable a : args.
Hypothesis inputs_nonneg : 0 <= a.(n_inputs).
Hypothesis hidden_nonneg : 0 <= a.(nhid).
Hypothesis no_overflow : a.(nhid) * a.(n_inputs) <= 2147483647.

Lemma widx_small ihid ivis :
  0 <= ihid < a.(nhid) -> 0 <= ivis < a.(n_inputs) ->
  widx a ihid ivis = ihid * a.(n_inputs) + ivis.
Proof.
  intros Hh Hv. unfold widx, int_mul, int_add.
  assert (0 <= ihid * a.(n_inputs)) by nia.
  assert (ihid * a.(n_inputs) + ivis < a.(nhid) * a.(n_inputs)) by nia.
  rewrite (int_wrap_small (ihid * a.(n_inputs))) by lia.
  apply int_wrap_small. lia.
Qed.

(** One hidden neuron: the loop of lines 184-190. *)
Lemma gen_row diff h s :
  0 <= h < a.(nhid) ->
  let q := n_unif (ext s) in
  let s' := gen_hidden env a diff h s in
  n_unif (ext s') = (q + Z.to_nat a.(n_inputs))%nat
  /\ data_mean s' = data_mean s /\ in_bias s' = in_bias s
  /\ (forall idx,
        w s' idx = if (h * a.(n_inputs) <=? idx) && (idx <? h * a.(n_inputs) + a.(n_inputs))
                   then weight_at env diff (q + Z.to_nat (idx - h * a.(n_inputs)))
                   else w s idx)
  /\ (forall h',
        hid_bias s' h'
        = if h' =? h
          then (- for_ a.(n_inputs)
                    (fun ivis sum =>
                       sum + data_mean s ivis * weight_at env diff (q + Z.to_nat ivis)) 0)%Q
          else hid_bias s h').
Proof.
  intros Hh q s'. subst s' q. unfold gen_hidden.
  match goal with |- context[for_ ?n ?f ?x] => set (res := for_ n f x) end.
  assert (L : row_inv env a diff h s a.(n_inputs) res).
  { subst res. apply (for_inv_bounded (row_inv env a diff h s)); [exact inputs_nonneg| |].
    - intros i [sum s1] Hi (Pn & Pd & Pi & Ph & Pw & Ps). cbn [fst snd] in *.
      unfold row_inv, draw. cbv zeta. cbn [fst snd]. wt_proj.
      split; [rewrite Pn; lia|]. split; [exact Pd|]. split; [exact Pi|]. split; [exact Ph|].
      split.
      + intros idx. rewrite store_at, (widx_small h i Hh Hi), Pw.
        destruct (Z.eqb_spec idx (h * a.(n_inputs) + i)) as [->|N].
        * replace (h * n_inputs a <=? h * n_inputs a + i) with true
            by (symmetry; apply Z.leb_le; lia).
          replace (h * n_inputs a + i <? h * n_inputs a + (i + 1)) with true
            by (symmetry; apply Z.ltb_lt; lia).
          cbn [andb]. unfold weight_at. rewrite Pn. do 3 f_equal. lia.
        * destruct (Z.leb_spec (h * a.(n_inputs)) idx); cbn [andb]; [|reflexivity].
          destruct (Z.ltb_spec idx (h * a.(n_inputs) + i)),
            (Z.ltb_spec idx (h * a.(n_inputs) + (i + 1))); try reflexivity; lia.
      + replace (Z.to_nat (i + 1)) with (S (Z.to_nat i)) by lia.
        rewrite count_up_snoc, <- Ps, Pd, Pn. cbn [Z.add].
        rewrite Z2Nat.id by lia. reflexivity.
    - unfold row_inv. cbn [fst snd]. split; [lia|]. do 3 (split; [reflexivity|]).
      split; [|reflexivity].
      intros idx. destruct (Z.leb_spec (h * a.(n_inputs)) idx); cbn [andb]; [|reflexivity].
      destruct (Z.ltb_spec idx (h * a.(n_inputs) + 0)); [lia | reflexivity]. }
  clearbody res. destruct res as [sum s1]. destruct L as (Ln & Ld & Li & Lh & Lw & Ls).
  cbn [fst snd] in *. wt_proj.
  split; [exact Ln|]. split; [exact Ld|]. split; [exact Li|]. split; [exact Lw|].
  intros h'. rewrite store_at, Lh, Ls. reflexivity.
Qed.

(** All hidden neurons: the loop of lines 181-191. *)
Lemma gen_rows diff s1 :
  rows_inv env a diff s1 a.(nhid) (for_ a.(nhid) (gen_hidden env a diff) s1).
Proof.
  apply (for_inv_bounded (rows_inv env a diff s1)); [exact hidden_nonneg| |].
  - intros h s Hh (Pn & Pd & Pi & Pw & Ph).
    destruct (gen_row diff h s Hh) as (Gn & Gd & Gi & Gw & Gh).
    assert (0 <= h * a.(n_inputs)) by nia.
    split; [rewrite Gn, Pn; lia|]. split; [congruence|]. split; [congruence|]. split.
    + intros idx. rewrite Gw, Pw, Pn.
      destruct (Z.leb_spec (h * a.(n_inputs)) idx),
        (Z.ltb_spec idx (h * a.(n_inputs) + a.(n_inputs))),
        (Z.leb_spec 0 idx), (Z.ltb_spec idx (h * a.(n_inputs))),
        (Z.ltb_spec idx ((h + 1) * a.(n_inputs))); cbn [andb]; try reflexivity; try lia.
      f_equal. lia.
    + intros h'. rewrite Gh, Ph, Pn, Pd.
      destruct (Z.eqb_spec h' h) as [->|N].
      * destruct (Z.leb_spec 0 h), (Z.ltb_spec h (h + 1)); try lia. cbn [andb].
        f_equal. unfold for_. apply count_up_ext. intros i y Hi.
        do 3 f_equal. lia.
      * destruct (Z.leb_spec 0 h'), (Z.ltb_spec h' h), (Z.ltb_spec h' (h + 1));
          cbn [andb]; try reflexivity; lia.
  - split; [cbn; lia|]. split; [reflexivity|]. split; [reflexivity|]. split.
    + intros idx. destruct (Z.leb_spec 0 idx), (Z.ltb_spec idx (0 * a.(n_inputs)));
        cbn [andb]; try reflexivity; lia.
    + intros h'. destruct (Z.leb_spec 0 h'), (Z.ltb_spec h' 0); cbn [andb];
        try reflexivity; lia.
Qed.

(** All visible neurons: the loop of lines 194-199. *)
Lemma center_all s2 :
  center_inv env a s2 a.(n_inputs) (for_ a.(n_inputs) (center_visible env a) s2).
Proof.
  apply (for_inv_bounded (center_inv env a s2)); [exact inputs_nonneg| |].
  - intros v s Hv (Pw & Ph & Pd & Px & Pi). unfold center_visible. cbv zeta.
    split; [exact Pw|]. split; [exact Ph|]. split; [exact Pd|]. split; [exact Px|].
    intros ivis. wt_proj. rewrite store_at, Pi, Pw, Pd.
    destruct (Z.eqb_spec ivis v) as [->|N].
    + destruct (Z.leb_spec 0 v), (Z.ltb_spec v (v + 1)); try lia. reflexivity.
    + destruct (Z.leb_spec 0 ivis), (Z.ltb_spec ivis v), (Z.ltb_spec ivis (v + 1));
        cbn [andb]; try reflexivity; lia.
  - do 4 (split; [reflexivity|]). intros ivis.
    destruct (Z.leb_spec 0 ivis), (Z.ltb_spec ivis 0); cbn [andb]; try reflexivity; lia.
Qed.

Lemma evaluate_batch_drawn irand ibatch s s' :
  evaluate_batch env a irand ibatch s = Go s' ->
  drawn s' = drawn s /\ forall c, In c (trace (ext s)) -> In c (trace (ext s')).
Proof.
  unfold evaluate_batch. cbv zeta. intros H.
  apply bind_Go in H. destruct H as (s1 & H1 & H).
  apply bind_Go in H. destruct H as (s2 & H2 & H).
  apply bind_Go in H. destruct H as (s3 & H3 & H).
  injection H as <-.
  apply WtInitBatches.wt_engine_call_Go in H1, H2, H3. subst s3 s2 s1.
  unfold drawn. wt_proj. split; [reflexivity|].
  intros c Hc. do 4 right. exact Hc.
Qed.

Lemma evaluation_drawn irand n i s s' :
  count_up_flow n i (evaluate_batch env a irand) s = Go s' ->
  drawn s' = drawn s /\ forall c, In c (trace (ext s)) -> In c (trace (ext s')).
Proof.
  revert i s. induction n as [|n IH]; intros i s H; cbn [count_up_flow] in H.
  - injection H as <-. split; [reflexivity | auto].
  - destruct (evaluate_batch env a irand i s) as [s1| |] eqn:E; try discriminate.
    apply evaluate_batch_drawn in E. destruct E as (E1 & E2).
    destruct (IH _ _ H) as (F1 & F2). split; [congruence | auto].
Qed.

End Facts.

(** Property X17: a trial draws its parameters from the values of
    [unifrand_fast] at the positions [p], [p + 1], ... where [p] is the number
    of values taken before: [diff] from the first, then the weights of the
    hidden neurons one after the other; each hidden bias is minus the sum of its
    weights times the data means, each visible bias the log-odds of the data
    mean minus half the sum of its weights. These are the parameters given to
    [cuda_params_to_device], and a trial takes [1 + nhid * n_inputs] values. The
    dimensions are not negative and [nhid * n_inputs] is an [int]. *)
Theorem trial_parameters env a irand s s' :
  0 <= a.(n_inputs) -> 0 <= a.(nhid) -> a.(nhid) * a.(n_inputs) <= 2147483647 ->
  evaluate env a irand s = Go s' ->
  n_unif (ext s') = (n_unif (ext s) + 1 + Z.to_nat (a.(nhid) * a.(n_inputs)))%nat
  /\ (forall ihid, 0 <= ihid < a.(nhid) ->
        hid_bias s' ihid = trial_hid_bias env a (n_unif (ext s)) (data_mean s) ihid
        /\ forall ivis, 0 <= ivis < a.(n_inputs) ->
             w s' (widx a ihid ivis) = trial_weight env a (n_unif (ext s)) ihid ivis)
  /\ (forall ivis, 0 <= ivis < a.(n_inputs) ->
        in_bias s' ivis = trial_in_bias env a (n_unif (ext s)) (data_mean s) ivis)
  /\ In (cuda_params_to_device a.(n_inputs) a.(nhid) (in_bias s') (hid_bias s') (w s'))
        (trace (ext s')).
Proof.
  intros Hv Hh Hov. unfold evaluate. cbv zeta. intros H.
  apply bind_Go in H. destruct H as (s1 & H1 & H).
  assert (E1 : n_unif (ext s1) = n_unif (ext s) /\ data_mean s1 = data_mean s).
  { destruct (irand =? 0).
    - apply WtInitBatches.wt_engine_call_Go in H1. subst s1. split; reflexivity.
    - injection H1 as <-. split; reflexivity. }
  destruct E1 as (En & Ed). clear H1. revert H. unfold draw. cbv zeta. cbn iota.
  rewrite En.
  set (p := n_unif (ext s)) in *.
  set (diff := (4 * unifrand_fast (host env) p
                / sqrt env (sqrt env (double_of_int a.(n_inputs) * double_of_int a.(nhid))))%Q).
  match goal with |- context[for_ (nhid a) (gen_hidden env a diff) ?st] =>
    set (s2 := st) end.
  assert (E2 : n_unif (ext s2) = S p /\ data_mean s2 = data_mean s).
  { subst s2. wt_proj. split; [reflexivity | exact Ed]. }
  destruct E2 as (E2n & E2d).
  pose proof (gen_rows env a Hv Hh Hov diff s2) as (Rn & Rd & Ri & Rw & Rh).
  set (s3 := for_ (nhid a) (gen_hidden env a diff) s2) in *.
  pose proof (center_all env a Hv s3) as (Cw & Ch & Cd & Cx & Ci).
  set (s4 := for_ (n_inputs a) (center_visible env a) s3) in *.
  clearbody s4 s3 s2. intros H.
  apply bind_Go in H. destruct H as (s5 & H5 & H).
  apply WtInitBatches.wt_engine_call_Go in H5.
  unfold for_flow in H. apply evaluation_drawn in H. destruct H as (D & T).
  unfold drawn in D. wt_proj.
  pose proof (f_equal (fun t => fst (fst (fst t))) D) as Dw.
  pose proof (f_equal (fun t => snd (fst (fst t))) D) as Di.
  pose proof (f_equal (fun t => snd (fst t)) D) as Dh.
  pose proof (f_equal (fun t => snd t) D) as Dn.
  cbn [fst snd] in Dw, Di, Dh, Dn. subst s5. wt_proj.
  assert (W : forall ihid ivis, 0 <= ihid < a.(nhid) -> 0 <= ivis < a.(n_inputs) ->
                w s3 (widx a ihid ivis) = trial_weight env a p ihid ivis).
  { intros ihid ivis Hr1 Hr2. rewrite (widx_small a Hv Hh Hov ihid ivis Hr1 Hr2), Rw.
    assert (0 <= ihid * a.(n_inputs) + ivis < a.(nhid) * a.(n_inputs)) by nia.
    destruct (Z.leb_spec 0 (ihid * a.(n_inputs) + ivis)),
      (Z.ltb_spec (ihid * a.(n_inputs) + ivis) (a.(nhid) * a.(n_inputs))); try lia.
    cbn [andb]. unfold weight_at, trial_weight, trial_diff. fold p. fold diff.
    rewrite E2n. do 3 f_equal. lia. }
  split; [|split; [|split]].
  - rewrite Dn, Cx, Rn, E2n. lia.
  - intros ihid Hr. rewrite Dh, Dw, Ch, Cw. split.
    + rewrite Rh.
      destruct (Z.leb_spec 0 ihid), (Z.ltb_spec ihid a.(nhid)); try lia. cbn [andb].
      unfold trial_hid_bias. f_equal. unfold for_. apply count_up_ext.
      intros i y Hi. rewrite E2d. do 2 f_equal.
      unfold weight_at, trial_weight, trial_diff. fold p. fold diff.
      rewrite E2n. do 3 f_equal. lia.
    + intros ivis Hr2. apply W; assumption.
  - intros ivis Hr. rewrite Di, Ci.
    destruct (Z.leb_spec 0 ivis), (Z.ltb_spec ivis a.(n_inputs)); try lia. cbn [andb].
    unfold trial_in_bias. rewrite Rd, E2d. do 2 f_equal.
    unfold for_. apply count_up_ext. intros i y Hi. f_equal. apply W; lia.
  - apply T. rewrite Dw, Di, Dh. left. reflexivity.
Qed.

Lemma trial_parameters_witness :
  n_unif (ext (state_of (evaluate improving_run two_trials 0
                           (state_of (entry improving_run two_trials))))) = 3%nat.
Proof.
  refine (proj1 (trial_parameters improving_run two_trials 0
                   (state_of (entry improving_run two_trials))
                   (state_of (evaluate improving_run two_trials 0
                                (state_of (entry improving_run two_trials)))) _ _ _ _)).
  - unfold two_trials. cbn. lia.
  - unfold two_trials. cbn. lia.
  - unfold two_trials. cbn. lia.
  - vm_compute. reflexivity.
Defined.

End WtInitGeneration.

Module RbmIncrement.
Import Rbm RbmRun RbmMore RbmFacts RbmChain.

Section Facts.
Variable env : Env.
Variable a : args.

Lemma batch_work_Go_max_inc e b nb istop s s' :
  batch_work env a e b nb istop s = Go s' ->
  max_inc s' = larger env e b (max_inc s).
Proof.
  unfold batch_work. cbv zeta.
  set (s0 := if greedy_mean_field a =? 0 then step_stream s else s).
  assert (E0 : max_inc s0 = max_inc s).
  { unfold s0. destruct (_ =? 0); rewrite ?step_stream_eq; reflexivity. }
  rewrite <- E0. clearbody s0. intros H.
  apply bind_Go in H. destruct H as (s1 & H1 & H). apply engine_call_Go in H1.
  apply bind_Go in H. destruct H as (s2 & H2 & H). apply engine_call_Go in H2.
  apply bind_Go in H. destruct H as (s3 & H3 & H).
  pose proof (chain_keeps_all env a e b nb
                (int_of_double (chain_length s2 + 0.5)%Q) s2) as K.
  rewrite H3 in K. cbn [state_of] in K. unfold keeps, outside_chain_steps in K.
  pose proof (f_equal snd K) as Km. cbn [snd] in Km.
  apply bind_Go in H. destruct H as (s4 & H4 & H). apply engine_call_Go in H4.
  apply bind_Go in H. destruct H as (s5 & H5 & H). apply engine_call_Go in H5.
  apply bind_Go in H. destruct H as (s6 & H6 & H). apply engine_call_Go in H6.
  apply bind_Go in H. destruct H as (s7 & H7 & H). apply engine_call_Go in H7.
  apply bind_Go in H. destruct H as (s8 & H8 & H). apply engine_call_Go in H8.
  assert (E8 : max_inc s8 = max_inc s0).
  { subst s8 s7 s6 s5. rewrite step_stream_eq. proj. subst s4. proj. rewrite Km.
    subst s2 s1. reflexivity. }
  unfold larger. rewrite <- E8.
  destruct (Qltb (max_inc s8) _); injection H as <-; reflexivity.
Qed.

Lemma batch_Go_max_inc e b s s' :
  batch env a e b s = Go s' -> max_inc s' = larger env e b (max_inc s).
Proof.
  unfold batch. cbv zeta. intros H.
  apply bind_Go in H. destruct H as (s1 & H1 & H).
  apply batch_work_Go_max_inc in H1.
  pose proof (escape_seen_frame env e (poll_batch e b) s1) as F.
  destruct (escape_seen env e (poll_batch e b) s1) as [esc s2]. cbn [snd] in F.
  destruct esc; [discriminate|].
  apply bind_Go in H. destruct H as (s3 & H3 & H). apply adapt_Go in H3.
  destruct H3 as (_ & _ & _ & _ & _ & _ & _ & _ & _ & Am & _).
  injection H as <-. proj. rewrite Am, F. proj. exact H1.
Qed.

Lemma batches_Go_max_inc e n i s s' :
  count_up_flow n i (batch env a e) s = Go s' ->
  max_inc s' = count_up n i (larger env e) (max_inc s).
Proof.
  revert i s. induction n as [|n IH]; intros i s H; cbn [count_up_flow count_up] in *.
  - injection H as <-. reflexivity.
  - destruct (batch env a e i s) as [s1| |] eqn:E; try discriminate.
    apply batch_Go_max_inc in E. rewrite (IH _ _ H), E. reflexivity.
Qed.

Lemma larger_above e b m : (m <= larger env e b m)%Q
                           /\ (max_inc_out (engine env) e b <= larger env e b m)%Q.
Proof.
  unfold larger. destruct (Qltb m _) eqn:Q.
  - apply Qltb_lt in Q. split; lra.
  - apply Qltb_ge in Q. split; lra.
Qed.

Lemma running_max_above e n i m :
  (m <= count_up n i (larger env e) m)%Q
  /\ forall b, i <= b < i + Z.of_nat n ->
       (max_inc_out (engine env) e b <= count_up n i (larger env e) m)%Q.
Proof.
  revert i m. induction n as [|n IH]; intros i m; cbn [count_up].
  - split; [lra | intros b Hb; lia].
  - destruct (larger_above e i m) as (L1 & L2).
    destruct (IH (i + 1) (larger env e i m)) as (I1 & I2).
    split; [lra|]. intros b Hb. destruct (Z.eq_dec b i) as [->|N].
    + lra.
    + apply I2. lia.
Qed.

End Facts.

(** Property X18: when the batch loop of an epoch runs to its end, [max_inc] is
    the running maximum of the increments that the engine reported for the
    batches of the epoch, started at 0: it is not negative and no batch of the
    epoch reported a larger increment. *)
Theorem max_inc_is_largest env a e s s' :
  batches env a e s = Go s' ->
  max_inc s' = epoch_max_inc env a e
  /\ (0 <= max_inc s')%Q
  /\ forall b, 0 <= b < a.(n_batches) ->
       (max_inc_out (engine env) e b <= max_inc s')%Q.
Proof.
  unfold batches, for_flow. cbv zeta. intros H.
  apply batches_Go_max_inc in H. proj.
  assert (E : max_inc s' = epoch_max_inc env a e) by exact H.
  split; [exact E|]. rewrite H.
  destruct (running_max_above env e (Z.to_nat a.(n_batches)) 0 0%Q) as (R1 & R2).
  split; [exact R1|]. intros b Hb. apply R2. lia.
Qed.

Lemma max_inc_is_largest_witness :
  max_inc (state_of (batches steady_run two_batches 0
                       (state_of (entry steady_run two_batches))))
  = epoch_max_inc steady_run two_batches 0.
Proof.
  refine (proj1 (max_inc_is_largest steady_run two_batches 0
                   (state_of (entry steady_run two_batches))
                   (state_of (batches steady_run two_batches 0
                                (state_of (entry steady_run two_batches)))) _)).
  vm_compute. reflexivity.
Defined.

End RbmIncrement.
